(** * telegram-inline-menu: a shallow embedding of the menu tree, its change
    tracking, its path and index resolution and its callback dispatcher.

    Sources: src/src/menu-builder.ts (class [MenuBuilder]),
    src/src/menu-item-builder.ts (class [MenuItemBuilder]),
    src/src/change.enum.ts (enum [Change]), src/src/helpers.ts and
    src/src/callback-handler.ts (class [CallbackQueryHandler]).

    The JavaScript objects live in a heap [World]: menus, buttons, the
    shared registries of a tree, value stacks and built [Menu] / button
    objects are arrays indexed by handles, so that reference identity and
    aliasing are those of the program.  A computation is a state and error
    monad over the heap: a thrown [Error] is [RErr]. *)

From Stdlib Require Import ZArith String Ascii Bool List.
From stdpp Require Import base gmap strings list.

Local Open Scope Z_scope.

Local Infix "+:+" := String.append (at level 60, right associativity).

(* ------------------------------------------------------------------ *)
(** ** JavaScript string operations used by the code *)

Module JS.

(** [String.prototype.trim] on Latin-1 characters: tab, line feed,
    vertical tab, form feed, carriage return, space and no-break space. *)
Definition is_ws (c : ascii) : bool :=
  let n := nat_of_ascii c in
  (((9 <=? n) && (n <=? 13)) || (n =? 32) || (n =? 160))%nat.

Fixpoint trim_start (s : string) : string :=
  match s with
  | EmptyString => EmptyString
  | String c r => if is_ws c then trim_start r else s
  end.

Definition rev_string (s : string) : string :=
  string_of_list_ascii (rev (list_ascii_of_string s)).

Definition trim (s : string) : string :=
  rev_string (trim_start (rev_string (trim_start s))).

Definition starts_with (s p : string) : bool := String.prefix p s.

Definition ends_with (s p : string) : bool :=
  String.prefix (rev_string p) (rev_string s).

(** [s.indexOf(t)]: the first position, or [-1]. *)
Definition index_of (s t : string) : Z :=
  match String.index 0 t s with
  | Some n => Z.of_nat n
  | None => -1
  end.

Definition slice_from (s : string) (k : nat) : string :=
  String.substring k (String.length s - k) s.

Definition slash : ascii := "/"%char.
Definition slash_s : string := String slash EmptyString.

(** [s.split('/')] *)
Fixpoint split_slash_acc (acc : string) (s : string) : list string :=
  match s with
  | EmptyString => [rev_string acc]
  | String c r =>
      if Ascii.eqb c slash then rev_string acc :: split_slash_acc EmptyString r
      else split_slash_acc (String c acc) r
  end.

Definition split_slash (s : string) : list string := split_slash_acc EmptyString s.

(** Truthiness of a string. *)
Definition truthy_s (s : string) : bool :=
  match s with EmptyString => false | _ => true end.

(** Own and inherited property names of a plain object literal [{}]:
    [key in {}] is true for these. *)
Definition object_proto_keys : list string :=
  ["constructor"; "hasOwnProperty"; "isPrototypeOf"; "propertyIsEnumerable";
   "toLocaleString"; "toString"; "valueOf"; "__proto__"; "__defineGetter__";
   "__defineSetter__"; "__lookupGetter__"; "__lookupSetter__"]%string.

(** [key in dict] for a dictionary created as [{}]. *)
Definition js_in {V} (k : string) (d : gmap string V) : bool :=
  match d !! k with
  | Some _ => true
  | None => bool_decide (k ∈ object_proto_keys)
  end.

End JS.

(* ------------------------------------------------------------------ *)
(** ** [enum Change] (src/src/change.enum.ts) *)

Module Change.
Definition None_ : Z := 0.
Definition Text : Z := Z.shiftl 1 0.
Definition Visibility : Z := Z.shiftl 1 1.
Definition Layout : Z := Z.shiftl 1 2.
Definition Draw : Z := Z.shiftl 1 3.
Definition Update : Z := Z.shiftl 1 4.
End Change.

(* ------------------------------------------------------------------ *)
(** ** Values the user hands to the library *)

(** A value carried by [value] in an action result. *)
Definition Val := string.

(** [boolean | Func<boolean>]: a constant, or a user function named by a
    token; what a user function does is given by [run_fn] below. *)
Inductive PropVal := PConst (b : bool) | PFun (tok : nat).

(** [navigate?: string | number] *)
Inductive NavVal := NavStr (s : string) | NavNum (z : Z).

(** An [IMenu] layout whose buttons are bare labels ([id: "label"]). *)
Record Layout := mkLayout {
  l_id : option string;
  l_text : string;
  l_buttons : list (string * string)
}.

(** [menu?: IMenu | ((id, values) => IMenu)] *)
Inductive MenuVal := MVObj (l : Layout) | MVFun (tok : nat).

(** The object [ButtonActionResult]; [None] is an absent property. *)
Record ActionResult := mkResult {
  ar_navigate : option NavVal;
  ar_hide : option PropVal;
  ar_text : option string;
  ar_full : option PropVal;
  ar_message : option string;
  ar_close : option bool;
  ar_closeWith : option string;
  ar_menu : option MenuVal;
  ar_update : option bool;
  ar_keepPreviousValue : option bool;
  ar_value : option Val;
  ar_extra : bool
}.

Definition empty_result : ActionResult :=
  mkResult None None None None None None None None None None None false.

(** The [onPress] of a button: a user function returning a result
    (or [undefined]), [navigateToInnerMenu] of [MenuBuilder.menu], or
    [navigate] of [MenuBuilder.navigation] (its closure [that], [value]). *)
Inductive Press :=
  | PressResult (r : option ActionResult)
  | PressNavInner (target : nat)
  | PressNav (that : nat) (value : NavVal).

(** [this[SYM_DYNAMIC_MENU_BUILDER]]: the source function given to
    [inlineMenu], or the [dynamicMenuBuilder] closure made by the dispatcher
    for a [menu] function result (its [button], [parent], the user function,
    [dynamicContext.id] and the [currentValues] array it captured). *)
Inductive Dyn :=
  | DynSource (tok : nat)
  | DynRebuild (button parent tok : nat) (id : string) (values : nat).

(* ------------------------------------------------------------------ *)
(** ** Heap objects *)

(** A [MenuBuilder].  [m_reg] is the reference to the tree's shared
    [_menuById], [_menuByIndex] and [_menuByPath]: the code always assigns the
    three together (constructor, [_attach], [_detach]), so one reference to
    a [registry] record stands for them.  [m_stack] is [this[SYM_VALUE_STACK]],
    [m_dyn] is [this[SYM_DYNAMIC_MENU_BUILDER]] (a builder token) and
    [m_firstDraw] is [this[SYM_FIRST_DYNAMIC_DRAW]] and [m_buttons] the
    reference to its [buttons] dictionary (shared after a dynamic rebuild,
    [this.buttons = builtMenu.buttons]). *)
Record menuRec := mkMenuRec {
  m_id : string;
  m_text : string;
  m_path : option string;
  m_parent : option nat;
  m_children : option (list nat);
  m_reg : option nat;
  m_root : option nat;
  m_index : Z;
  m_last : Z;
  m_flags : Z;
  m_menu : option nat;
  m_pure : bool;
  m_buttons : nat;
  m_stack : option nat;
  m_dyn : option Dyn;
  m_firstDraw : bool
}.

(** A [MenuItemBuilder]; [b_dyn] is its [_dynamicMenu]. *)
Record itemRec := mkItemRec {
  b_id : string;
  b_text : string;
  b_hidden : bool;
  b_full : bool;
  b_url : option string;
  b_fullFn : option nat;
  b_hideFn : option nat;
  b_built : option nat;
  b_dyn : option nat;
  b_onPress : option Press;
  b_pure : bool;
  b_parent : nat;
  b_flags : Z
}.

(** The registries shared by all nodes of one tree. *)
Record registry := mkRegistry {
  r_byId : gmap string nat;
  r_byIndex : list nat;
  r_byPath : gmap string nat
}.

(** A value stack: the array elements and the named properties that
    [pushValue(name, value)] sets on it ([None] is [undefined]). *)
Record stackRec := mkStack {
  s_elems : list (option Val);
  s_props : gmap string (option Val)
}.

(** A built [Menu] (src/src/menu.ts). *)
Record menuObj := mkMenuObj {
  mo_parent : option nat;
  mo_text : string;
  mo_id : string;
  mo_rows : list (list nat);
  mo_path : string;
  mo_pure : bool;
  mo_index : Z
}.

(** A built button: [{ url | callback_data, hide, text, full }]. *)
Record itemObj := mkItemObj {
  io_url : option string;
  io_callback : option string;
  io_hide : bool;
  io_text : string;
  io_full : bool
}.

(** Observable calls: transport calls of the Telegraf context, hooks of the
    dispatcher, and invocations of the dispatcher's own routines. *)
Inductive Call :=
  | CPress (b : nat)
  | CSetMenuActive (m : nat)
  | CUpdateMenuContent (m : nat)
  | CDeleteMessage
  | CEditMarkupEmpty
  | CEditText (s : string)
  | CEditMarkup (menu : nat)
  | CEditMenu (text : string) (menu : nat)
  | CHookUnhandled
  | CHookMenuDelete (id : string)
  | CHookMenuClose.

Record World := mkWorld {
  w_menus : list menuRec;
  w_items : list itemRec;
  w_regs : list registry;
  w_stacks : list stackRec;
  w_mobjs : list menuObj;
  w_iobjs : list itemObj;
  w_menuMap : option (gmap string nat);  (* _menuMap.get(_keeper) *)
  w_activeK : option nat;                (* _activeMenusOfKeepers.get(_keeper) *)
  w_active : option nat;                 (* _activeMenu *)
  w_log : list Call;
  w_dicts : list (list (string * nat))   (* [buttons] dictionaries *)
}.

Definition empty_world : World := mkWorld [] [] [] [] [] [] None None None [] [].

Inductive Err :=
  | ErrMsg (msg : string)     (* throw new Error(msg) *)
  | ErrType                   (* a TypeError of the runtime *)
  | ErrFuel.                  (* recursion bound of the embedding *)

(** The outcome of a computation with the heap it leaves: a thrown error
    does not undo the writes made before it. *)
Inductive Res (A : Type) := ROk (a : A) (w : World) | RErr (e : Err) (w : World).
Arguments ROk {A} a w.
Arguments RErr {A} e w.

Definition M (A : Type) := World -> Res A.

Definition ret {A} (a : A) : M A := fun w => ROk a w.
Definition bind {A B} (m : M A) (k : A -> M B) : M B :=
  fun w => match m w with ROk a w' => k a w' | RErr e w' => RErr e w' end.
Definition throw {A} (e : Err) : M A := fun w => RErr e w.
Definition get : M World := fun w => ROk w w.
Definition put (w : World) : M unit := fun _ => ROk tt w.
(** [try { m } catch (e) { h(e) }] *)
Definition catch {A} (m : M A) (h : Err -> M A) : M A :=
  fun w => match m w with ROk a w' => ROk a w' | RErr e w' => h e w' end.

Notation "'let!' x ':=' c 'in' k" := (bind c (fun x => k))
  (at level 200, x name, c at level 100, k at level 200).
Notation "c ';;!' k" := (bind c (fun _ => k)) (at level 100, right associativity).

(* ------------------------------------------------------------------ *)
(** ** Field updates *)

Section MenuFields.
Variable m : menuRec.
Definition set_m_text x := mkMenuRec (m_id m) x (m_path m) (m_parent m) (m_children m) (m_reg m) (m_root m) (m_index m) (m_last m) (m_flags m) (m_menu m) (m_pure m) (m_buttons m) (m_stack m) (m_dyn m) (m_firstDraw m).
Definition set_m_path x := mkMenuRec (m_id m) (m_text m) x (m_parent m) (m_children m) (m_reg m) (m_root m) (m_index m) (m_last m) (m_flags m) (m_menu m) (m_pure m) (m_buttons m) (m_stack m) (m_dyn m) (m_firstDraw m).
Definition set_m_parent x := mkMenuRec (m_id m) (m_text m) (m_path m) x (m_children m) (m_reg m) (m_root m) (m_index m) (m_last m) (m_flags m) (m_menu m) (m_pure m) (m_buttons m) (m_stack m) (m_dyn m) (m_firstDraw m).
Definition set_m_children x := mkMenuRec (m_id m) (m_text m) (m_path m) (m_parent m) x (m_reg m) (m_root m) (m_index m) (m_last m) (m_flags m) (m_menu m) (m_pure m) (m_buttons m) (m_stack m) (m_dyn m) (m_firstDraw m).
Definition set_m_reg x := mkMenuRec (m_id m) (m_text m) (m_path m) (m_parent m) (m_children m) x (m_root m) (m_index m) (m_last m) (m_flags m) (m_menu m) (m_pure m) (m_buttons m) (m_stack m) (m_dyn m) (m_firstDraw m).
Definition set_m_root x := mkMenuRec (m_id m) (m_text m) (m_path m) (m_parent m) (m_children m) (m_reg m) x (m_index m) (m_last m) (m_flags m) (m_menu m) (m_pure m) (m_buttons m) (m_stack m) (m_dyn m) (m_firstDraw m).
Definition set_m_index x := mkMenuRec (m_id m) (m_text m) (m_path m) (m_parent m) (m_children m) (m_reg m) (m_root m) x (m_last m) (m_flags m) (m_menu m) (m_pure m) (m_buttons m) (m_stack m) (m_dyn m) (m_firstDraw m).
Definition set_m_last x := mkMenuRec (m_id m) (m_text m) (m_path m) (m_parent m) (m_children m) (m_reg m) (m_root m) (m_index m) x (m_flags m) (m_menu m) (m_pure m) (m_buttons m) (m_stack m) (m_dyn m) (m_firstDraw m).
Definition set_m_flags x := mkMenuRec (m_id m) (m_text m) (m_path m) (m_parent m) (m_children m) (m_reg m) (m_root m) (m_index m) (m_last m) x (m_menu m) (m_pure m) (m_buttons m) (m_stack m) (m_dyn m) (m_firstDraw m).
Definition set_m_menu x := mkMenuRec (m_id m) (m_text m) (m_path m) (m_parent m) (m_children m) (m_reg m) (m_root m) (m_index m) (m_last m) (m_flags m) x (m_pure m) (m_buttons m) (m_stack m) (m_dyn m) (m_firstDraw m).
Definition set_m_pure x := mkMenuRec (m_id m) (m_text m) (m_path m) (m_parent m) (m_children m) (m_reg m) (m_root m) (m_index m) (m_last m) (m_flags m) (m_menu m) x (m_buttons m) (m_stack m) (m_dyn m) (m_firstDraw m).
Definition set_m_buttons x := mkMenuRec (m_id m) (m_text m) (m_path m) (m_parent m) (m_children m) (m_reg m) (m_root m) (m_index m) (m_last m) (m_flags m) (m_menu m) (m_pure m) x (m_stack m) (m_dyn m) (m_firstDraw m).
Definition set_m_stack x := mkMenuRec (m_id m) (m_text m) (m_path m) (m_parent m) (m_children m) (m_reg m) (m_root m) (m_index m) (m_last m) (m_flags m) (m_menu m) (m_pure m) (m_buttons m) x (m_dyn m) (m_firstDraw m).
Definition set_m_dyn x := mkMenuRec (m_id m) (m_text m) (m_path m) (m_parent m) (m_children m) (m_reg m) (m_root m) (m_index m) (m_last m) (m_flags m) (m_menu m) (m_pure m) (m_buttons m) (m_stack m) x (m_firstDraw m).
Definition set_m_firstDraw x := mkMenuRec (m_id m) (m_text m) (m_path m) (m_parent m) (m_children m) (m_reg m) (m_root m) (m_index m) (m_last m) (m_flags m) (m_menu m) (m_pure m) (m_buttons m) (m_stack m) (m_dyn m) x.
End MenuFields.

Section ItemFields.
Variable b : itemRec.
Definition set_b_text x := mkItemRec (b_id b) x (b_hidden b) (b_full b) (b_url b) (b_fullFn b) (b_hideFn b) (b_built b) (b_dyn b) (b_onPress b) (b_pure b) (b_parent b) (b_flags b).
Definition set_b_hidden x := mkItemRec (b_id b) (b_text b) x (b_full b) (b_url b) (b_fullFn b) (b_hideFn b) (b_built b) (b_dyn b) (b_onPress b) (b_pure b) (b_parent b) (b_flags b).
Definition set_b_full x := mkItemRec (b_id b) (b_text b) (b_hidden b) x (b_url b) (b_fullFn b) (b_hideFn b) (b_built b) (b_dyn b) (b_onPress b) (b_pure b) (b_parent b) (b_flags b).
Definition set_b_url x := mkItemRec (b_id b) (b_text b) (b_hidden b) (b_full b) x (b_fullFn b) (b_hideFn b) (b_built b) (b_dyn b) (b_onPress b) (b_pure b) (b_parent b) (b_flags b).
Definition set_b_fullFn x := mkItemRec (b_id b) (b_text b) (b_hidden b) (b_full b) (b_url b) x (b_hideFn b) (b_built b) (b_dyn b) (b_onPress b) (b_pure b) (b_parent b) (b_flags b).
Definition set_b_hideFn x := mkItemRec (b_id b) (b_text b) (b_hidden b) (b_full b) (b_url b) (b_fullFn b) x (b_built b) (b_dyn b) (b_onPress b) (b_pure b) (b_parent b) (b_flags b).
Definition set_b_built x := mkItemRec (b_id b) (b_text b) (b_hidden b) (b_full b) (b_url b) (b_fullFn b) (b_hideFn b) x (b_dyn b) (b_onPress b) (b_pure b) (b_parent b) (b_flags b).
Definition set_b_dyn x := mkItemRec (b_id b) (b_text b) (b_hidden b) (b_full b) (b_url b) (b_fullFn b) (b_hideFn b) (b_built b) x (b_onPress b) (b_pure b) (b_parent b) (b_flags b).
Definition set_b_onPress x := mkItemRec (b_id b) (b_text b) (b_hidden b) (b_full b) (b_url b) (b_fullFn b) (b_hideFn b) (b_built b) (b_dyn b) x (b_pure b) (b_parent b) (b_flags b).
Definition set_b_pure x := mkItemRec (b_id b) (b_text b) (b_hidden b) (b_full b) (b_url b) (b_fullFn b) (b_hideFn b) (b_built b) (b_dyn b) (b_onPress b) x (b_parent b) (b_flags b).
Definition set_b_flags x := mkItemRec (b_id b) (b_text b) (b_hidden b) (b_full b) (b_url b) (b_fullFn b) (b_hideFn b) (b_built b) (b_dyn b) (b_onPress b) (b_pure b) (b_parent b) x.
End ItemFields.

Section WorldFields.
Variable w : World.
Definition set_w_menus x := mkWorld x (w_items w) (w_regs w) (w_stacks w) (w_mobjs w) (w_iobjs w) (w_menuMap w) (w_activeK w) (w_active w) (w_log w) (w_dicts w).
Definition set_w_items x := mkWorld (w_menus w) x (w_regs w) (w_stacks w) (w_mobjs w) (w_iobjs w) (w_menuMap w) (w_activeK w) (w_active w) (w_log w) (w_dicts w).
Definition set_w_regs x := mkWorld (w_menus w) (w_items w) x (w_stacks w) (w_mobjs w) (w_iobjs w) (w_menuMap w) (w_activeK w) (w_active w) (w_log w) (w_dicts w).
Definition set_w_stacks x := mkWorld (w_menus w) (w_items w) (w_regs w) x (w_mobjs w) (w_iobjs w) (w_menuMap w) (w_activeK w) (w_active w) (w_log w) (w_dicts w).
Definition set_w_mobjs x := mkWorld (w_menus w) (w_items w) (w_regs w) (w_stacks w) x (w_iobjs w) (w_menuMap w) (w_activeK w) (w_active w) (w_log w) (w_dicts w).
Definition set_w_iobjs x := mkWorld (w_menus w) (w_items w) (w_regs w) (w_stacks w) (w_mobjs w) x (w_menuMap w) (w_activeK w) (w_active w) (w_log w) (w_dicts w).
Definition set_w_menuMap x := mkWorld (w_menus w) (w_items w) (w_regs w) (w_stacks w) (w_mobjs w) (w_iobjs w) x (w_activeK w) (w_active w) (w_log w) (w_dicts w).
Definition set_w_activeK x := mkWorld (w_menus w) (w_items w) (w_regs w) (w_stacks w) (w_mobjs w) (w_iobjs w) (w_menuMap w) x (w_active w) (w_log w) (w_dicts w).
Definition set_w_active x := mkWorld (w_menus w) (w_items w) (w_regs w) (w_stacks w) (w_mobjs w) (w_iobjs w) (w_menuMap w) (w_activeK w) x (w_log w) (w_dicts w).
Definition set_w_log x := mkWorld (w_menus w) (w_items w) (w_regs w) (w_stacks w) (w_mobjs w) (w_iobjs w) (w_menuMap w) (w_activeK w) (w_active w) x (w_dicts w).
Definition set_w_dicts x := mkWorld (w_menus w) (w_items w) (w_regs w) (w_stacks w) (w_mobjs w) (w_iobjs w) (w_menuMap w) (w_activeK w) (w_active w) (w_log w) x.
End WorldFields.

(* ------------------------------------------------------------------ *)
(** ** Heap access.  A handle out of range never arises from the program
    (JavaScript references are never dangling); the embedding fails there. *)

Definition get_menu (h : nat) : M menuRec := fun w =>
  match w_menus w !! h with Some m => ROk m w | None => RErr ErrType w end.
Definition put_menu (h : nat) (m : menuRec) : M unit := fun w =>
  if decide (h < length (w_menus w))%nat
  then ROk tt (set_w_menus w (<[h := m]> (w_menus w))) else RErr ErrType w.
Definition upd_menu (h : nat) (f : menuRec -> menuRec) : M unit :=
  let! m := get_menu h in put_menu h (f m).
Definition alloc_menu (m : menuRec) : M nat := fun w =>
  ROk (length (w_menus w)) (set_w_menus w (w_menus w ++ [m])).

Definition get_item (h : nat) : M itemRec := fun w =>
  match w_items w !! h with Some b => ROk b w | None => RErr ErrType w end.
Definition put_item (h : nat) (b : itemRec) : M unit := fun w =>
  if decide (h < length (w_items w))%nat
  then ROk tt (set_w_items w (<[h := b]> (w_items w))) else RErr ErrType w.
Definition upd_item (h : nat) (f : itemRec -> itemRec) : M unit :=
  let! b := get_item h in put_item h (f b).
Definition alloc_item (b : itemRec) : M nat := fun w =>
  ROk (length (w_items w)) (set_w_items w (w_items w ++ [b])).

Definition get_reg (r : nat) : M registry := fun w =>
  match w_regs w !! r with Some x => ROk x w | None => RErr ErrType w end.
Definition put_reg (r : nat) (x : registry) : M unit := fun w =>
  if decide (r < length (w_regs w))%nat
  then ROk tt (set_w_regs w (<[r := x]> (w_regs w))) else RErr ErrType w.
Definition alloc_reg : M nat := fun w =>
  ROk (length (w_regs w)) (set_w_regs w (w_regs w ++ [mkRegistry ∅ [] ∅])).

Definition get_stack (s : nat) : M stackRec := fun w =>
  match w_stacks w !! s with Some x => ROk x w | None => RErr ErrType w end.
Definition put_stack (s : nat) (x : stackRec) : M unit := fun w =>
  if decide (s < length (w_stacks w))%nat
  then ROk tt (set_w_stacks w (<[s := x]> (w_stacks w))) else RErr ErrType w.
Definition alloc_stack : M nat := fun w =>
  ROk (length (w_stacks w)) (set_w_stacks w (w_stacks w ++ [mkStack [] ∅])).

Definition alloc_mobj (o : menuObj) : M nat := fun w =>
  ROk (length (w_mobjs w)) (set_w_mobjs w (w_mobjs w ++ [o])).
Definition alloc_iobj (o : itemObj) : M nat := fun w =>
  ROk (length (w_iobjs w)) (set_w_iobjs w (w_iobjs w ++ [o])).
Definition get_iobj (h : nat) : M itemObj := fun w =>
  match w_iobjs w !! h with Some x => ROk x w | None => RErr ErrType w end.

Definition get_dict (d : nat) : M (list (string * nat)) := fun w =>
  match w_dicts w !! d with Some x => ROk x w | None => RErr ErrType w end.
Definition put_dict (d : nat) (x : list (string * nat)) : M unit := fun w =>
  if decide (d < length (w_dicts w))%nat
  then ROk tt (set_w_dicts w (<[d := x]> (w_dicts w))) else RErr ErrType w.
Definition alloc_dict : M nat := fun w =>
  ROk (length (w_dicts w)) (set_w_dicts w (w_dicts w ++ [[]])).

Definition emit (c : Call) : M unit := fun w => ROk tt (set_w_log w (w_log w ++ [c])).

(** An [undefined] reference dereferenced: a TypeError. *)
Definition deref {A} (o : option A) : M A :=
  match o with Some a => ret a | None => throw ErrType end.

(** Recursion along parent links is bounded by the number of menus: the
    parent chains the code builds are acyclic. *)
Definition fuel_of (w : World) : nat := length (w_menus w).

Definition dq : string := String (ascii_of_nat 34) EmptyString.

(* ------------------------------------------------------------------ *)
(** ** [MenuBuilder]: path, constructor, buttons and submenus *)

Module MenuBuilder.

(** [get path()]:
    [if (this._path) return this._path;
     return `${this._parent?.path ?? '/'}${this.id}/`] *)
Fixpoint path_f (ms : list menuRec) (fuel : nat) (h : nat) : option string :=
  match fuel with
  | O => None
  | S f =>
      match ms !! h with
      | None => None
      | Some m =>
          match m_path m with
          | Some p => if JS.truthy_s p then Some p else
              match m_parent m with
              | None => Some (JS.slash_s +:+ m_id m +:+ JS.slash_s)
              | Some q => match path_f ms f q with
                          | Some pp => Some (pp +:+ m_id m +:+ JS.slash_s)
                          | None => None end
              end
          | None =>
              match m_parent m with
              | None => Some (JS.slash_s +:+ m_id m +:+ JS.slash_s)
              | Some q => match path_f ms f q with
                          | Some pp => Some (pp +:+ m_id m +:+ JS.slash_s)
                          | None => None end
              end
          end
      end
  end.

Definition path_w (w : World) (h : nat) : option string :=
  path_f (w_menus w) (fuel_of w) h.

Definition path (h : nat) : M string := fun w =>
  match path_w w h with Some p => ROk p w | None => RErr ErrFuel w end.

Definition dup_id_message (id : string) : string :=
  "Menu with id " +:+ dq +:+ id +:+ dq +:+ " is previously defined".

(** [constructor(text, id, _parent)] (menu-builder.ts, lines 278-312).
    The class fields start as [index = 0], [lastMenuIndex = 0],
    [changeFlags = Change.Draw], [isPure = true], [buttons = {}]. *)
Definition constructor (text id : string) (parent : option nat) : M nat :=
  let! preg := match parent with
               | Some p => let! pm := get_menu p in ret (m_reg pm, m_root pm)
               | None => ret (None, None)
               end in
  let! reg := match fst preg with Some r => ret r | None => alloc_reg end in
  let! r := get_reg reg in
  if JS.js_in id (r_byId r) then throw (ErrMsg (dup_id_message id)) else
  let! w := get in
  let h := length (w_menus w) in
  let root := match snd preg with Some x => x | None => h end in
  let! bd := alloc_dict in
  let! h' := alloc_menu (mkMenuRec id text
                 (if String.eqb id JS.slash_s then Some JS.slash_s else None)
                 parent None (Some reg) (Some root) 0 0 Change.Draw None true bd None None false) in
  let! p := path h' in
  let! r := get_reg reg in
  put_reg reg (mkRegistry (<[id := h']> (r_byId r)) (r_byIndex r ++ [h'])
                          (<[p := h']> (r_byPath r))) ;;!
  ret h'.

(** [this.markChange(change)] of a menu: [this.changeFlags |= change]. *)
Definition markChange (h : nat) (c : Z) : M unit :=
  upd_menu h (fun m => set_m_flags m (Z.lor (m_flags m) c)).

(** [set text(to)] of a menu. *)
Definition set_text (h : nat) (to : string) : M unit :=
  let to := JS.trim to in
  if negb (JS.truthy_s to) then ret tt else
  let! m := get_menu h in
  if String.eqb (m_text m) to then ret tt else
  put_menu h (set_m_text m to) ;;!
  markChange h Change.Text.

(** The [do { ... } while (children)] loop of [getChildByPath]: the
    [for (const child of children)] scan, where the last child with the
    segment as id wins. *)
Fixpoint scan_children (cs : list nat) (seg : string)
    (acc : bool * option (list nat) * nat) : M (bool * option (list nat) * nat) :=
  match cs with
  | [] => ret acc
  | c :: rest =>
      let! cm := get_menu c in
      if String.eqb (m_id cm) seg then scan_children rest seg (true, m_children cm, c)
      else scan_children rest seg acc
  end.

Fixpoint walk (children : option (list nat)) (segments : list string) (current : nat)
    : M (option nat) :=
  match children with
  | None => ret None
  | Some cs =>
      match segments with
      | [] => ret (Some current)
      | seg :: rest =>
          if negb (JS.truthy_s seg) then ret (Some current) else
          let! res := scan_children cs seg (false, children, current) in
          let '(found, children', current') := res in
          if negb found then ret None else
          match children' with
          | None => ret (Some current')
          | Some _ => walk children' rest current'
          end
      end
  end.

(** [getChildByPath(path)] (menu-builder.ts, lines 212-258). *)
Fixpoint getChildByPath_f (fuel : nat) (this : nat) (p : string) : M (option nat) :=
  match fuel with
  | O => throw ErrFuel
  | S f =>
      let p := if JS.starts_with p JS.slash_s then p else JS.slash_s +:+ p in
      let p := if JS.ends_with p JS.slash_s then p else p +:+ JS.slash_s in
      let! m := get_menu this in
      let! reg := deref (m_reg m) in
      let! r := get_reg reg in
      if JS.js_in p (r_byPath r) then ret (r_byPath r !! p) else
      if String.eqb p JS.slash_s then ret (m_root m) else
      let! thisPath := path this in
      if Z.eqb (JS.index_of p thisPath) 0 then
        let rest := JS.slice_from p (String.length thisPath) in
        walk (m_children m) (JS.split_slash rest) this
      else
        match m_parent m with
        | Some q =>
            let! pp := path q in
            if (Z.geb (JS.index_of pp p) 0 || Z.geb (JS.index_of p pp) 0)%bool
            then getChildByPath_f f q p else ret None
        | None => ret None
        end
  end.

Definition getChildByPath (this : nat) (p : string) : M (option nat) :=
  fun w => getChildByPath_f (fuel_of w) this p w.

(** [getChildWithIndex(index, skipInstance)] *)
Fixpoint getChildWithIndex_f (fuel : nat) (this : nat) (index : Z) (skip : option nat)
    : M (option nat) :=
  match fuel with
  | O => throw ErrFuel
  | S f =>
      let! m := get_menu this in
      if Z.eqb (m_index m) index then ret (Some this) else
      match m_children m with
      | None => ret None
      | Some cs =>
          (fix loop (cs : list nat) : M (option nat) :=
             match cs with
             | [] => ret None
             | c :: rest =>
                 if bool_decide (Some c = skip) then loop rest else
                 let! r := getChildWithIndex_f f c index None in
                 match r with Some x => ret (Some x) | None => loop rest end
             end) cs
      end
  end.

Definition getChildWithIndex (this : nat) (index : Z) : M (option nat) :=
  fun w => getChildWithIndex_f (fuel_of w) this index None w.

(** [path.lastIndexOf('/')] *)
Fixpoint last_slash_from (s : string) (i : Z) (acc : Z) : Z :=
  match s with
  | EmptyString => acc
  | String c r => last_slash_from r (i + 1) (if Ascii.eqb c JS.slash then i else acc)
  end.

Definition last_index_of_slash (s : string) : Z := last_slash_from s 0 (-1).

(** Own properties of the [buttons] dictionary, in insertion order. *)
Definition dict_get (d : list (string * nat)) (k : string) : option nat :=
  match find (fun kv => String.eqb (fst kv) k) d with Some kv => Some (snd kv) | None => None end.

(** [d[k] = v] on a dictionary: an existing key keeps its position. *)
Fixpoint dict_set (d : list (string * nat)) (k : string) (v : nat) : list (string * nat) :=
  match d with
  | [] => [(k, v)]
  | (k', v') :: rest => if String.eqb k' k then (k, v) :: rest else (k', v') :: dict_set rest k v
  end.

(** [getMenuItemByPath(path)] *)
Definition getMenuItemByPath (this : nat) (p : string) : M (option nat) :=
  let sep := last_index_of_slash p in
  let menuPath := String.substring 0 (Z.to_nat (sep + 1)) p in
  let itemPath := JS.slice_from p (Z.to_nat (sep + 1)) in
  let! menu := getChildByPath this menuPath in
  match menu with
  | None => ret None
  | Some mh => let! mm := get_menu mh in
                let! d := get_dict (m_buttons mm) in ret (dict_get d itemPath)
  end.

End MenuBuilder.

(* ------------------------------------------------------------------ *)
(** ** [MenuItemBuilder] (src/src/menu-item-builder.ts) *)

Module MenuItemBuilder.

(** [constructor(parent, text, id)]: [_hidden = false], [_full = false],
    [isPure = true], [changeFlags = Change.None]. *)
Definition constructor (parent : nat) (text id : string) : M nat :=
  alloc_item (mkItemRec id text false false None None None None None None true parent Change.None_).

(** [private markChange(change)]:
    [this.changeFlags |= change; this.parent['markChange'](change)] *)
Definition markChange (h : nat) (c : Z) : M unit :=
  let! b := get_item h in
  put_item h (set_b_flags b (Z.lor (b_flags b) c)) ;;!
  MenuBuilder.markChange (b_parent b) c.

(** [set text(to)] *)
Definition set_text (h : nat) (to : string) : M unit :=
  let to := JS.trim to in
  if negb (JS.truthy_s to) then ret tt else
  let! b := get_item h in
  if String.eqb (b_text b) to then ret tt else
  put_item h (set_b_text b to) ;;!
  markChange h Change.Text.

(** [set hide(to)] *)
Definition set_hide (h : nat) (to : bool) : M unit :=
  let! b := get_item h in
  if Bool.eqb (b_hidden b) to then ret tt else
  put_item h (set_b_hidden b to) ;;!
  markChange h Change.Visibility.

(** [set full(to)] *)
Definition set_full (h : nat) (to : bool) : M unit :=
  let! b := get_item h in
  if Bool.eqb (b_full b) to then ret tt else
  put_item h (set_b_full b to) ;;!
  markChange h Change.Layout.

(** [setText(text)] *)
Definition setText (h : nat) (text : string) : M unit :=
  let text := JS.trim text in
  if negb (JS.truthy_s text) then ret tt else
  let! b := get_item h in
  if String.eqb (b_text b) text then ret tt else
  set_text h text ;;!
  markChange h Change.Text.

(** [setHide(toOrWhen)] (lines 193-216) *)
Definition setHide (h : nat) (toOrWhen : PropVal) : M unit :=
  match toOrWhen with
  | PConst to =>
      let! b := get_item h in
      if Bool.eqb (b_hidden b) to then ret tt else
      set_hide h to ;;!
      markChange h Change.Visibility
  | PFun f =>
      let! b := get_item h in
      put_item h (set_b_pure (set_b_hideFn b (Some f)) false) ;;!
      upd_menu (b_parent b) (fun m => set_m_pure m false) ;;!
      markChange h Change.Visibility
  end.

(** [setFull(toOrWhen)] (lines 248-271) *)
Definition setFull (h : nat) (toOrWhen : PropVal) : M unit :=
  match toOrWhen with
  | PConst to =>
      let! b := get_item h in
      if Bool.eqb (b_full b) to then ret tt else
      set_full h to ;;!
      markChange h Change.Layout
  | PFun f =>
      let! b := get_item h in
      put_item h (set_b_pure (set_b_fullFn b (Some f)) false) ;;!
      upd_menu (b_parent b) (fun m => set_m_pure m false) ;;!
      markChange h Change.Layout
  end.

(** [setOnPress(fun)] *)
Definition setOnPress (h : nat) (f : Press) : M unit :=
  upd_item h (fun b => set_b_onPress b (Some f)).

(** [setUrl(url)] *)
Definition setUrl (h : nat) (url : string) : M unit :=
  upd_item h (fun b => set_b_url b (Some url)).

(** [end()]: [parent.buttons[this.id] = this] *)
Definition end_ (h : nat) : M unit :=
  let! b := get_item h in
  let! pm := get_menu (b_parent b) in
  let! d := get_dict (m_buttons pm) in
  put_dict (m_buttons pm) (MenuBuilder.dict_set d (b_id b) h).

End MenuItemBuilder.

(* ------------------------------------------------------------------ *)
(** ** Number formatting and [path.resolve] used in error messages and
    relative navigation *)

Fixpoint digits_rev (fuel : nat) (n : N) : list ascii :=
  match fuel with
  | O => []
  | S f =>
      let d := ascii_of_N (48 + N.modulo n 10) in
      if N.ltb n 10 then [d] else d :: digits_rev f (N.div n 10)
  end.

(** [String(n)] for an integer [n]. *)
Definition z_to_string (z : Z) : string :=
  let s := string_of_list_ascii (rev (digits_rev 64 (Z.to_N (Z.abs z)))) in
  if Z.ltb z 0 then String "-" s else s.

(** [path.resolve(base, rel)] for an absolute [base] (POSIX): segments
    [""] and ["."] are dropped, [".."] removes the previous segment; the
    result has no trailing slash unless it is the root. *)
Definition posix_resolve (base rel : string) : string :=
  let segs := JS.split_slash base ++ JS.split_slash rel in
  let stack := fold_left (fun acc seg =>
      if String.eqb seg "" then acc
      else if String.eqb seg "." then acc
      else if String.eqb seg ".." then removelast acc
      else acc ++ [seg]) segs [] in
  JS.slash_s +:+ String.concat JS.slash_s stack.

(* ------------------------------------------------------------------ *)
(** ** [MenuBuilder]: submenus and navigation buttons *)

Module Build.
Import MenuBuilder.

(** [button(text, id)] *)
Definition button (this : nat) (text id : string) : M nat :=
  MenuItemBuilder.constructor this text id.

(** [!!x] for a [boolean | Func] argument. *)
Definition truthy_prop (p : PropVal) : bool :=
  match p with PConst b => b | PFun _ => true end.

(** The [while (target._parent)] loop copying [lastMenuIndex] upwards. *)
Fixpoint propagate_last (fuel : nat) (target : nat) : M unit :=
  match fuel with
  | O => throw ErrFuel
  | S f =>
      let! tm := get_menu target in
      match m_parent tm with
      | None => ret tt
      | Some p => upd_menu p (fun pm => set_m_last pm (m_last tm)) ;;! propagate_last f p
      end
  end.

Fixpoint set_last_all (cs : list nat) (v : Z) : M unit :=
  match cs with
  | [] => ret tt
  | c :: rest => upd_menu c (fun cm => set_m_last cm v) ;;! set_last_all rest v
  end.

Definition text_empty_msg : string := "The text of the menu was empty".
Definition button_text_empty_msg : string := "The text of the button text was empty".
Definition id_empty_msg : string := "The menu id was empty".
Definition button_id_empty_msg : string := "The button menu id was empty".

(** [menu(menuText, buttonText, menuId, buttonId, full, hide)] after the
    overloads have put the arguments in place (lines 450-505); the ids are
    given (the program draws absent ids from [nanoid]).  The [_layout]
    bookkeeping, used only to copy a tree, is left out. *)
Definition menu (this : nat) (menuText buttonText id buttonId : string)
    (full hide : PropVal) : M nat :=
  let text := JS.trim menuText in
  if negb (JS.truthy_s text) then throw (ErrMsg text_empty_msg) else
  let buttonText := JS.trim buttonText in
  (* the code tests [!text] here, not [!buttonText] *)
  if negb (JS.truthy_s text) then throw (ErrMsg button_text_empty_msg) else
  let id := JS.trim id in
  if negb (JS.truthy_s id) then throw (ErrMsg id_empty_msg) else
  let buttonId := JS.trim buttonId in
  if negb (JS.truthy_s buttonId) then throw (ErrMsg button_id_empty_msg) else
  let! builder := constructor text id (Some this) in
  let! tm := get_menu this in
  let newIndex := m_last tm + 1 in
  put_menu this (set_m_last tm newIndex) ;;!
  upd_menu builder (fun bm => set_m_index (set_m_root bm (m_root tm)) newIndex) ;;!
  let! tm := get_menu this in
  let children := match m_children tm with Some cs => cs | None => [] end ++ [builder] in
  put_menu this (set_m_children tm (Some children)) ;;!
  upd_menu builder (fun bm => set_m_last bm (m_index bm)) ;;!
  (fun w => propagate_last (fuel_of w) this w) ;;!
  set_last_all children newIndex ;;!
  let! b := button this buttonText buttonId in
  MenuItemBuilder.setOnPress b (PressNavInner builder) ;;!
  MenuItemBuilder.setFull b (PConst (truthy_prop full)) ;;!
  MenuItemBuilder.setHide b (PConst (truthy_prop hide)) ;;!
  MenuItemBuilder.end_ b ;;!
  ret builder.

(** [navigation(text, value, id)]: a button whose [onPress] is [navigate]. *)
Definition navigation (this : nat) (text : string) (value : NavVal) (id : string) : M nat :=
  let! b := button this text id in
  MenuItemBuilder.setOnPress b (PressNav this value) ;;!
  ret b.

Definition index_range_msg (value last : Z) : string :=
  "Given menu index was out of range: " +:+ z_to_string value +:+
  ", menu count: " +:+ z_to_string (last + 1).

(** The index computed by the numeric branch of [navigate] (lines 574-580). *)
Definition nav_index (last value : Z) : Z :=
  if (Z.ltb value 0 && Z.geb value (- last))%bool then
    let i := Z.rem value last in
    if Z.ltb i 0 then i + last else i
  else value.

(** [that._menuByIndex[index]] *)
Definition by_index (r : registry) (i : Z) : option nat :=
  if Z.ltb i 0 then None else r_byIndex r !! Z.to_nat i.

(** The numeric branch of [navigate] (lines 574-589): the menu to activate. *)
Definition navigate_number (that : nat) (value : Z) : M nat :=
  let! tm := get_menu that in
  let index := nav_index (m_last tm) value in
  let! reg := deref (m_reg tm) in
  let! r := get_reg reg in
  match by_index r index with
  | Some mh => ret mh
  | None => throw (ErrMsg (index_range_msg value (m_last tm)))
  end.

(** [CBHandler.getMenuById(id)], as its one caller uses it: [value[id]]
    for an id inherited from [Object.prototype] is not a menu, and the
    caller's [menu.getChildByPath(...)] on it throws a [TypeError]. *)
Definition getMenuById (id : string) : M (option nat) := fun w =>
  match w_menuMap w with
  | None => ROk None w
  | Some d =>
      match d !! id with
      | Some x => ROk (Some x) w
      | None => if JS.js_in id d then RErr ErrType w else ROk None w
      end
  end.

Definition self_nav_msg : string := "It is not possible to create navigation button for the same menu".

(** The string branch of [navigate] (lines 591-640): the menu to activate. *)
Definition navigate_string (that : nat) (value : string) : M nat :=
  let! tm := get_menu that in
  let! thatPath := path that in
  if (String.eqb value thatPath || String.eqb value (m_id tm))%bool
  then throw (ErrMsg self_nav_msg) else
  let value :=
    if Z.eqb (JS.index_of value ".") 0 then
      let full := posix_resolve thatPath value in
      if JS.ends_with full JS.slash_s then full else full +:+ JS.slash_s
    else value in
  if Z.geb (JS.index_of value JS.slash_s) 0 then
    let! found := getChildByPath that value in
    match found with
    | Some mh => ret mh
    | None =>
        if JS.ends_with value JS.slash_s
        then throw (ErrMsg ("Menu by path is not found: " +:+ dq +:+ value +:+ dq)) else
        let! other :=
          if JS.starts_with value JS.slash_s then
            let menuId := match String.index 1 JS.slash_s value with
                          | Some k => String.substring 1 (k - 1) value
                          | None => JS.slice_from value 1 end in
            let! mo := getMenuById menuId in
            match mo with
            | Some root => getChildByPath root value
            | None => ret None
            end
          else ret None in
        match other with
        | Some ch => ret ch
        | None => throw (ErrMsg ("Menu with path " +:+ value +:+ " is not found"))
        end
    end
  else
    let! reg := deref (m_reg tm) in
    let! r := get_reg reg in
    if JS.js_in value (r_byId r) then
      match r_byId r !! value with
      | Some mh => ret mh
      (* an inherited [Object.prototype] member: [setMenuActive] on it
         throws a TypeError at [menu.hasChange] *)
      | None => throw ErrType
      end
    else throw (ErrMsg ("Menu with id " +:+ dq +:+ value +:+ dq +:+ " is not found")).

(** [navigate] of [navigation] (lines 568-644).  Its first test,
    [that._navigationTarget instanceof MenuBuilder], never holds: no code
    assigns [_navigationTarget]. *)
Definition navigate (that : nat) (value : NavVal) : M nat :=
  match value with
  | NavNum z => navigate_number that z
  | NavStr s => navigate_string that s
  end.

(** [MenuBuilder.fromObject(source)] for a root layout whose buttons are
    bare labels (lines 934-1035): [new MenuBuilder(text, id ?? 'main')] and
    [builder.button(label, id).end()] per entry. *)
Definition fromObject (l : Layout) : M nat :=
  let id := match l_id l with Some i => i | None => "main"%string end in
  let! builder := constructor (l_text l) id None in
  (fix add (bs : list (string * string)) : M unit :=
     match bs with
     | [] => ret tt
     | (bid, label) :: rest =>
         let! b := button builder label bid in
         MenuItemBuilder.end_ b ;;! add rest
     end) (l_buttons l) ;;!
  ret builder.

(** [_getValueStack(previous = [])] (lines 889-920): the stack already
    attached, else [previous] ([None]: a fresh array), which is attached. *)
Definition getValueStack (this : nat) (previous : option nat) : M nat :=
  let! m := get_menu this in
  match m_stack m with
  | Some s => ret s
  | None =>
      let! s := match previous with Some s => ret s | None => alloc_stack end in
      upd_menu this (fun m => set_m_stack m (Some s)) ;;!
      ret s
  end.

(** [stack.pushValue(name, value)]: [this[name] = value; this.push(value)] *)
Definition pushValue (s : nat) (name : string) (v : option Val) : M unit :=
  let! st := get_stack s in
  put_stack s (mkStack (s_elems st ++ [v]) (<[name := v]> (s_props st))).

(** [stack.push(value)] *)
Definition push (s : nat) (v : option Val) : M unit :=
  let! st := get_stack s in
  put_stack s (mkStack (s_elems st ++ [v]) (s_props st)).

(** [arr.indexOf(x, fromIndex)] *)
Definition list_index_of (l : list nat) (x : nat) (from : Z) : Z :=
  let start := if Z.ltb from 0 then Z.max 0 (Z.of_nat (length l) + from) else from in
  let fix go (l : list nat) (i : Z) : Z :=
    match l with
    | [] => -1
    | y :: r => if (Z.geb i start && Nat.eqb x y)%bool then i else go r (i + 1)
    end in
  go l 0.

Fixpoint decrement_from (cs : list nat) (threshold : Z) : M unit :=
  match cs with
  | [] => ret tt
  | c :: rest =>
      let! cm := get_menu c in
      (if Z.ltb (m_index cm) threshold then ret tt
       else put_menu c (set_m_index cm (m_index cm - 1))) ;;!
      decrement_from rest threshold
  end.

(** [private _detach()] (lines 807-846). *)
Definition detach (this : nat) : M unit :=
  let! m := get_menu this in
  let! reg := deref (m_reg m) in
  let! r := get_reg reg in
  put_reg reg (mkRegistry (delete (m_id m) (r_byId r)) (r_byIndex r) (r_byPath r)) ;;!
  let! p := path this in
  let! r := get_reg reg in
  put_reg reg (mkRegistry (r_byId r) (r_byIndex r) (delete p (r_byPath r))) ;;!
  let! r := get_reg reg in
  let i := list_index_of (r_byIndex r) this (m_index m - 1) in
  (if Z.geb i 0 then
     put_reg reg (mkRegistry (r_byId r) (take (Z.to_nat i) (r_byIndex r) ++ drop (S (Z.to_nat i)) (r_byIndex r)) (r_byPath r))
   else ret tt) ;;!
  let! s := getValueStack this None in
  let! st := get_stack s in
  put_stack s (mkStack [] (s_props st)) ;;!
  upd_menu this (fun m => set_m_root (set_m_reg m None) None) ;;!
  match m_parent m with
  | None => ret tt
  | Some q =>
      let! qm := get_menu q in
      let! siblings := deref (m_children qm) in
      let i := list_index_of siblings this 0 in
      upd_menu this (fun m => set_m_parent m None) ;;!
      if Z.ltb i 0 then ret tt else
      let siblings' := take (Z.to_nat i) siblings ++ drop (S (Z.to_nat i)) siblings in
      upd_menu q (fun qm => set_m_children qm (Some siblings')) ;;!
      decrement_from (drop (Z.to_nat i) siblings') i
  end.

(** [private _attach(to)] (lines 859-887). *)
Definition attach (this to : nat) : M unit :=
  let! tm := get_menu to in
  upd_menu this (fun m => set_m_root (set_m_reg (set_m_path (set_m_parent m (Some to)) None) (m_reg tm)) (m_root tm)) ;;!
  let children := match m_children tm with Some cs => cs | None => [] end ++ [this] in
  put_menu to (set_m_children tm (Some children)) ;;!
  let! reg := deref (m_reg tm) in
  let! m := get_menu this in
  let! r := get_reg reg in
  put_reg reg (mkRegistry (<[m_id m := this]> (r_byId r)) (r_byIndex r) (r_byPath r)) ;;!
  let! p := path this in
  let! r := get_reg reg in
  put_reg reg (mkRegistry (r_byId r) (r_byIndex r) (<[p := this]> (r_byPath r))) ;;!
  let! r := get_reg reg in
  put_reg reg (mkRegistry (r_byId r) (r_byIndex r ++ [this]) (r_byPath r)) ;;!
  upd_menu this (fun m => set_m_index m (Z.of_nat (length (r_byIndex r)))).

End Build.

(* ------------------------------------------------------------------ *)
(** ** Rendering: [toMenuItem] and [toMenu] *)

Module Render.
Import MenuBuilder.

Section Render.

(** A user function [Func<boolean>] given to [setHide] / [setFull]: any
    effect on the heap and a result. *)
Variable run_fn : nat -> M bool.
(** [this[SYM_DYNAMIC_MENU_BUILDER]()]: any effect, and the [MenuBuilder]
    it yields (a layout result is turned into one by [fromObject]). *)
Variable run_builder : Dyn -> M nat.

(** [async toMenuItem()] (menu-item-builder.ts, lines 328-363). *)
Definition toMenuItem (h : nat) : M nat :=
  let! b := get_item h in
  match (if (b_pure b && Z.eqb (b_flags b) Change.None_)%bool then b_built b else None) with
  | Some o => ret o
  | None =>
      (match b_fullFn b with
       | Some f => let! v := run_fn f in MenuItemBuilder.set_full h v
       | None => ret tt end) ;;!
      (match b_hideFn b with
       | Some f => let! v := run_fn f in MenuItemBuilder.set_hide h v
       | None => ret tt end) ;;!
      let! b := get_item h in
      put_item h (set_b_flags b Change.None_) ;;!
      let! b := get_item h in
      let! o :=
        match b_url b with
        | Some u => if JS.truthy_s u
                    then ret (mkItemObj (Some u) None (b_hidden b) (b_text b) (b_full b))
                    else let! pp := path (b_parent b) in
                         ret (mkItemObj None (Some (pp +:+ b_id b)) (b_hidden b) (b_text b) (b_full b))
        | None => let! pp := path (b_parent b) in
                  ret (mkItemObj None (Some (pp +:+ b_id b)) (b_hidden b) (b_text b) (b_full b))
        end in
      let! oh := alloc_iobj o in
      upd_item h (fun b => set_b_built b (Some oh)) ;;!
      ret oh
  end.

(** The row layout loop of [toMenu]: a full-width button closes the
    current row and gets a row of its own. *)
Fixpoint layout_rows (bs : list (string * nat)) (items : list (list nat)) (row : list nat)
    : M (list (list nat) * list nat) :=
  match bs with
  | [] => ret (items, row)
  | (_, bh) :: rest =>
      let! oh := toMenuItem bh in
      let! o := get_iobj oh in
      if io_full o then
        let items := if Nat.eqb (length row) 0 then items else items ++ [row] in
        layout_rows rest (items ++ [[oh]]) []
      else layout_rows rest items (row ++ [oh])
  end.

(** [async toMenu(soft = false)] (menu-builder.ts, lines 671-748). *)
Fixpoint toMenu_f (fuel : nat) (this : nat) (soft : bool) : M nat :=
  match fuel with
  | O => throw ErrFuel
  | S f =>
      let! m := get_menu this in
      match (if Z.eqb (m_flags m) Change.None_ then m_menu m else None) with
      | Some cached => ret cached
      | None =>
          (if Z.eqb (m_flags m) Change.None_ then ret tt else
           match m_dyn m with
           | None => ret tt
           | Some tok =>
               if negb (m_firstDraw m) then
                 let! built := run_builder tok in
                 let! bm := get_menu built in
                 set_text this (m_text bm) ;;!
                 upd_menu this (fun m => set_m_buttons m (m_buttons bm))
               else upd_menu this (fun m => set_m_firstDraw m false)
           end) ;;!
          let! m := get_menu this in
          let text := m_text m in
          let id := m_id m in
          let! buttons := get_dict (m_buttons m) in
          let! res := layout_rows buttons [] [] in
          let items := if Nat.eqb (length (snd res)) 0 then fst res else fst res ++ [snd res] in
          let! parentMenu := match m_parent m with
                             | Some q => let! pm := toMenu_f f q false in ret (Some pm)
                             | None => ret None end in
          let! p := path this in
          let! m := get_menu this in
          let! menu := alloc_mobj (mkMenuObj parentMenu text id items p (m_pure m) (m_index m)) in
          (if soft then ret tt
           else upd_menu this (fun m => set_m_menu (set_m_flags m Change.None_) (Some menu))) ;;!
          ret menu
      end
  end.

Definition toMenu (this : nat) (soft : bool) : M nat :=
  fun w => toMenu_f (fuel_of w) this soft w.

End Render.
End Render.

(* ------------------------------------------------------------------ *)
(** ** The dispatcher: [CallbackQueryHandler] (src/src/callback-handler.ts) *)

Module Dispatch.
Import MenuBuilder.

(** [isButtonActionResultLike(value)] (src/src/helpers.ts); [None] is a
    non-object result ([undefined]). *)
Definition isButtonActionResultLike (v : option ActionResult) : bool :=
  match v with
  | None => false
  | Some r =>
      match ar_navigate r with Some _ => true | None =>
      match ar_hide r with Some (PConst _) => true | _ =>
      match ar_text r with Some _ => true | None =>
      match ar_full r with Some (PConst _) => true | _ =>
      match ar_message r with Some _ => true | None =>
      match ar_closeWith r with Some _ => true | None =>
      match ar_close r with Some _ => true | None =>
      match ar_value r with Some _ => true | None => false
      end end end end end end end end
  end.

(** The event: [ctx.callbackQuery.data] and whether the query carries a
    message (its [message_id]). *)
Record Event := mkEvent { ev_data : option string; ev_message : bool }.

(** [registerMenu(menuBuilder)] *)
Definition registerMenu (mb : nat) : M unit :=
  let! m := get_menu mb in
  fun w => let d := match w_menuMap w with Some d => d | None => ∅ end in
           ROk tt (set_w_menuMap w (Some (<[m_id m := mb]> d))).

(** [deleteMenu(menu)] *)
Definition deleteMenu (mb : nat) : M bool :=
  let! m := get_menu mb in
  let! w := get in
  match w_menuMap w with
  | None => ret false
  | Some d =>
      if negb (JS.js_in (m_id m) d) then ret false else
      put (set_w_menuMap w (Some (delete (m_id m) d))) ;;!
      emit (CHookMenuDelete (m_id m)) ;;!
      ret true
  end.

(** [set activeMenu(undefined)]: [_activeMenusOfKeepers.delete(_keeper)] *)
Definition clear_activeMenu : M unit := fun w => ROk tt (set_w_activeK w None).

(** [closeMenu(ctx, withText, justRemoveMarkup)] (lines 300-351). *)
Definition closeMenu (ev : Event) (withText : string) (justRemoveMarkup : bool) : M unit :=
  let! w := get in
  let! currentText := match w_activeK w with
                      | Some a => let! am := get_menu a in ret (Some (m_text am))
                      | None => ret None end in
  (if JS.truthy_s withText then
     if justRemoveMarkup then emit CEditMarkupEmpty else
     let t := JS.trim withText in
     if bool_decide (Some t = currentText) then emit CEditMarkupEmpty
     else emit (CEditText t)
   else if negb justRemoveMarkup then
     (if ev_message ev then emit CDeleteMessage else ret tt)
   else emit CEditMarkupEmpty) ;;!
  clear_activeMenu ;;!
  emit CHookMenuClose.


(** What [execButtonAction] returns. *)
Inductive ExecRet := ExecFail | ExecSuccess | ExecStack (s : nat) | ExecValue (v : Val).

(** The branch of [execButtonAction] taken for a result. *)
Inductive Branch :=
  | BNavigate | BClose | BMenuObject | BMenuFunction | BUpdate
  | BRenderParent | BRenderTarget | BPatchKeyboard | BNothing.

(** [if (navigate)]: truthiness of a [string | number]. *)
Definition truthy_nav (n : option NavVal) : bool :=
  match n with
  | Some (NavStr s) => JS.truthy_s s
  | Some (NavNum z) => negb (Z.eqb z 0)
  | None => false
  end.

(** [s.slice(a, b)] with a negative [b] counted from the end. *)
Definition js_slice (s : string) (a b : Z) : string :=
  let len := Z.of_nat (String.length s) in
  let b := if Z.ltb b 0 then Z.max 0 (len + b) else Z.min b len in
  if Z.leb b a then EmptyString else String.substring (Z.to_nat a) (Z.to_nat (b - a)) s.

(** [menuDict[k]] on a plain object: an own entry, or a key of
    [Object.prototype] (a function, on which the callers then fail with a
    TypeError), or [undefined]. *)
Definition dict_lookup (d : gmap string nat) (k : string) : M (option nat) :=
  match d !! k with
  | Some x => ret (Some x)
  | None => if JS.js_in k d then throw ErrType else ret None
  end.

(** [s.indexOf('/', 1)] *)
Definition index_of_slash_from1 (s : string) : Z :=
  match String.index 1 JS.slash_s s with Some k => Z.of_nat k | None => -1 end.

Section Dispatch.

(** The user functions given to [setHide] / [setFull]. *)
Variable run_fn : nat -> M bool.
(** The builder of a dynamic root menu ([inlineMenu] with a function). *)
Variable run_source : nat -> M nat.
(** A user [menu] function [(id, values) => IMenu], as a function of its
    token, the id and the elements of the value stack. *)
Variable layout_fn : nat -> string -> list (option Val) -> Layout.
(** The ids drawn from [nanoid()]. *)
Variable nanoid : string.

(** [set dynamicMenu(to)]: [this._dynamicMenu?._detach(); this._dynamicMenu = to] *)
Definition set_dynamicMenu (b : nat) (to : option nat) : M unit :=
  let! bi := get_item b in
  (match b_dyn bi with Some old => Build.detach old | None => ret tt end) ;;!
  upd_item b (fun bi => set_b_dyn bi to).

(** [dynamicMenuBuilder()] of the [menu]-function branch (lines 670-685):
    the layout function is called again with the same [currentValues]
    array, whatever it holds by then. *)
Definition dynamicMenuBuilder (button parent tok : nat) (id : string) (values : nat) : M nat :=
  let! st := get_stack values in
  let l := layout_fn tok id (s_elems st) in
  let! newMenu := Build.fromObject (mkLayout (Some id) (l_text l) (l_buttons l)) in
  upd_menu newMenu (fun m => set_m_flags m Change.Draw) ;;!
  upd_menu newMenu (fun m => set_m_dyn m (Some (DynRebuild button parent tok id values))) ;;!
  set_dynamicMenu button (Some newMenu) ;;!
  Build.attach newMenu parent ;;!
  ret newMenu.

(** [this[SYM_DYNAMIC_MENU_BUILDER]()] for either kind of builder. *)
Definition run_dyn (d : Dyn) : M nat :=
  match d with
  | DynSource tok => run_source tok
  | DynRebuild button parent tok id values => dynamicMenuBuilder button parent tok id values
  end.

Definition toMenu (this : nat) (soft : bool) : M nat := Render.toMenu run_fn run_dyn this soft.

(** [set activeMenu(to)] for a menu (lines 92-103). *)
Definition set_activeMenu (to : nat) : M unit :=
  (fun w => ROk tt (set_w_activeK w (Some to))) ;;!
  let! m := get_menu to in
  match m_dyn m with
  | None => ret tt
  | Some _ =>
      let! w := get in
      match w_menuMap w with
      | None => ret tt
      | Some d => if JS.js_in (m_id m) d
                  then put (set_w_menuMap w (Some (<[m_id m := to]> d))) else ret tt
      end
  end.

(** [updateMenuContent(ctx, menu)] (lines 552-555) *)
Definition updateMenuContent (mb : nat) : M unit :=
  emit (CUpdateMenuContent mb) ;;!
  let! o := toMenu mb false in
  emit (CEditMarkup o).

(** The [builtMenu.buttons.some(cols => cols.some(item => ...))] test of
    [setMenuActive] for one old button. *)
Definition item_differs (bt : itemRec) (oh : nat) : M bool :=
  let! item := get_iobj oh in
  let! cb := deref (io_callback item) in
  let idFromCallback := last (JS.split_slash cb) in
  if negb (bool_decide (Some (b_id bt) = idFromCallback)) then ret false else
  if negb (String.eqb (b_text bt) (io_text item)) then ret true else
  if negb (b_pure bt) then ret true else
  if negb (Bool.eqb (b_hidden bt) (io_hide item)) then ret true else
  ret false.

Fixpoint some_item (bt : itemRec) (cols : list nat) : M bool :=
  match cols with
  | [] => ret false
  | oh :: rest => let! r := item_differs bt oh in if r then ret true else some_item bt rest
  end.

Fixpoint some_row (bt : itemRec) (rows : list (list nat)) : M bool :=
  match rows with
  | [] => ret false
  | cols :: rest => let! r := some_item bt cols in if r then ret true else some_row bt rest
  end.

(** The [for (const key in oldButtons)] loop: [Some true] when a changed
    button is met (the keyboard is patched and the function returns). *)
Fixpoint any_changed (bs : list (string * nat)) (rows : list (list nat)) : M bool :=
  match bs with
  | [] => ret false
  | (_, bh) :: rest =>
      let! bt := get_item bh in
      let! r := some_row bt rows in
      if r then ret true else any_changed rest rows
  end.

(** [setMenuActive(ctx, menu)] (lines 505-550). *)
Definition setMenuActive (menu : nat) : M unit :=
  emit (CSetMenuActive menu) ;;!
  let! m := get_menu menu in
  let hasAny := (Z.eqb (Z.land (m_flags m) Change.Draw) Change.Draw
                 || Z.eqb (Z.land (m_flags m) Change.Text) Change.Text
                 || Z.eqb (Z.land (m_flags m) Change.Update) Change.Update)%bool in
  if (negb (Z.eqb (m_flags m) Change.None_) && negb hasAny)%bool then updateMenuContent menu else
  let isUpdating := Z.eqb (Z.land (m_flags m) Change.Update) Change.Update in
  let oldButtons := m_buttons m in
  let oldText := m_text m in
  let! builtMenu := toMenu menu false in
  let! w := get in
  let! bo := match w_mobjs w !! builtMenu with Some o => ret o | None => throw ErrType end in
  let! handled :=
    if (isUpdating && match w_active w with Some _ => true | None => false end
        && String.eqb oldText (mo_text bo))%bool then
      let! bs := get_dict oldButtons in
      let! changed := any_changed bs (mo_rows bo) in
      if changed then emit (CEditMarkup builtMenu) ;;! ret true else
      let! m := get_menu menu in
      match m_dyn m with
      | Some d =>
          let! dm := run_dyn d in
          let! dmo := toMenu dm true in
          emit (CEditMarkup dmo) ;;!
          set_activeMenu dm ;;!
          ret true
      | None => ret false
      end
    else ret false in
  if handled then ret tt else
  set_activeMenu menu ;;!
  emit (CEditMenu (mo_text bo) builtMenu).

(** The navigate branch of [execButtonAction] (lines 585-604). *)
Definition exec_navigate (navigate : NavVal) (targetMenu : nat) : M unit :=
  let! tm := get_menu targetMenu in
  let! target :=
    match navigate with
    | NavStr s =>
        let! root := deref (m_root tm) in
        let! rootPath := path root in
        if JS.starts_with s rootPath then getChildByPath root s
        else
          let! w := get in
          let! menuDict := deref (w_menuMap w) in
          if JS.starts_with s JS.slash_s then
            let firstPart := js_slice s 1 (index_of_slash_from1 s) in
            let! menu := dict_lookup menuDict firstPart in
            match menu with
            | Some mh => getChildByPath mh s
            | None => ret None
            end
          else dict_lookup menuDict s
    | NavNum z =>
        let! root := deref (m_root tm) in
        getChildWithIndex root z
    end in
  match target with
  | Some t => setMenuActive t
  | None => ret tt
  end.

(** The close branch (lines 605-623). *)
Definition exec_close (ev : Event) (close : bool) (closeWith : option string) (button : nat) : M unit :=
  let! b := get_item button in
  let closeMessage :=
    match closeWith with
    | Some c => if JS.truthy_s c then Some (JS.trim c) else if close then Some EmptyString else None
    | None => if close then Some EmptyString else None
    end in
  match closeMessage with
  | Some c =>
      if JS.truthy_s c then
        let! pm := get_menu (b_parent b) in
        let justMarkup := String.eqb (m_text pm) c in
        closeMenu ev c justMarkup ;;!
        deleteMenu (b_parent b) ;;! ret tt
      else closeMenu ev EmptyString false ;;! deleteMenu (b_parent b) ;;! ret tt
  | None => closeMenu ev EmptyString false ;;! deleteMenu (b_parent b) ;;! ret tt
  end.

(** The menu-object branch (lines 624-651); [true] when the value was
    pushed ([isValueAdded]). *)
Definition exec_menu_object (l : Layout) (keep : bool) (value : option Val) (button : nat) : M bool :=
  let! b := get_item button in
  let parent := b_parent b in
  (match b_dyn b with Some old => Build.detach old | None => ret tt end) ;;!
  let l := match l_id l with
           | Some i => if JS.truthy_s i then l else mkLayout (Some nanoid) (l_text l) (l_buttons l)
           | None => mkLayout (Some nanoid) (l_text l) (l_buttons l) end in
  let! builtMenu := Build.fromObject l in
  set_dynamicMenu button (Some builtMenu) ;;!
  Build.attach builtMenu parent ;;!
  let! added :=
    if keep then
      let! vs := Build.getValueStack parent None in
      Build.pushValue vs (b_id b) value ;;!
      Build.getValueStack builtMenu (Some vs) ;;!
      ret true
    else ret false in
  setMenuActive builtMenu ;;!
  ret added.

(** The menu-function branch (lines 652-700). *)
Definition exec_menu_function (tok : nat) (keep : bool) (value : option Val) (button : nat) : M bool :=
  let! b := get_item button in
  let parent := b_parent b in
  let! currentValues := Build.getValueStack parent None in
  let! ctxId := match b_dyn b with
                | Some d => let! dm := get_menu d in ret (m_id dm)
                | None => ret nanoid end in
  let! st := get_stack currentValues in
  let menuLayout := layout_fn tok ctxId (s_elems st) in
  (match b_dyn b with Some old => Build.detach old | None => ret tt end) ;;!
  let! builtMenu := Build.fromObject (mkLayout (Some ctxId) (l_text menuLayout) (l_buttons menuLayout)) in
  upd_menu builtMenu (fun m => set_m_dyn m (Some (DynRebuild button parent tok ctxId currentValues))) ;;!
  upd_menu builtMenu (fun m => set_m_flags m Change.Draw) ;;!
  set_dynamicMenu button (Some builtMenu) ;;!
  Build.attach builtMenu parent ;;!
  let! added :=
    if keep then
      let! vs := Build.getValueStack parent None in
      Build.push vs value ;;!
      Build.getValueStack builtMenu (Some vs) ;;!
      ret true
    else ret false in
  setMenuActive builtMenu ;;!
  ret added.

(** The fallback when no request applies (lines 706-721). *)
Definition exec_fallback (button targetMenu : nat) : M unit :=
  let! b := get_item button in
  let! pm := get_menu (b_parent b) in
  if Z.eqb (Z.land (m_flags pm) Change.Text) Change.Text then setMenuActive (b_parent b) else
  let! tm := get_menu targetMenu in
  if negb (Z.eqb (m_flags tm) 0) then setMenuActive targetMenu else
  if negb (Z.eqb (b_flags b) 0) then updateMenuContent (b_parent b) else
  ret tt.

(** [execButtonAction(action, ctx, button, targetMenu)] (lines 557-735). *)
Definition execButtonAction (action : option ActionResult) (ev : Event) (button targetMenu : nat)
    : M ExecRet :=
  if negb (isButtonActionResultLike action) then ret ExecFail else
  let r := match action with Some r => r | None => empty_result end in
  let! b := get_item button in
  let! tm := get_menu targetMenu in
  let hide := match ar_hide r with Some h => h | None => PConst (b_hidden b) end in
  let message := match ar_message r with Some m => m | None => m_text tm end in
  let text := match ar_text r with Some t => t | None => b_text b end in
  let full := match ar_full r with Some f => f | None => PConst (b_full b) end in
  let close := match ar_close r with Some c => c | None => false end in
  let update := match ar_update r with Some u => u | None => false end in
  let keep := match ar_keepPreviousValue r with Some k => k | None => true end in
  let value := ar_value r in
  MenuItemBuilder.setText button text ;;!
  MenuItemBuilder.setHide button hide ;;!
  MenuItemBuilder.setFull button full ;;!
  MenuBuilder.set_text (b_parent b) message ;;!
  let! isValueAdded :=
    if truthy_nav (ar_navigate r) then
      match ar_navigate r with
      | Some n => exec_navigate n targetMenu ;;! ret false
      | None => ret false
      end
    else if (close || match ar_closeWith r with Some _ => true | None => false end)%bool then
      exec_close ev close (ar_closeWith r) button ;;! ret false
    else match ar_menu r with
    | Some (MVObj l) => exec_menu_object l keep value button
    | Some (MVFun tok) => exec_menu_function tok keep value button
    | None =>
        if update then
          upd_menu targetMenu (fun m => set_m_flags m Change.Update) ;;!
          setMenuActive targetMenu ;;! ret false
        else exec_fallback button targetMenu ;;! ret false
    end in
  match value with
  | Some v =>
      (if (keep && negb isValueAdded)%bool then
         let! pm := get_menu (b_parent b) in
         let! vs := deref (m_stack pm) in
         Build.pushValue vs (b_id b) (Some v)
       else ret tt) ;;!
      let! pm := get_menu (b_parent b) in
      match m_stack pm with
      | Some s => ret (ExecStack s)
      | None => ret (ExecValue v)
      end
  | None => ret ExecSuccess
  end.

(** Calling the button's [onPress]: a user press function returns its
    result; the library's own [navigateToInnerMenu] and [navigate] return
    the promise of [setMenuActive], which resolves to [undefined]. *)
Definition press (p : Press) (button : nat) : M (option ActionResult) :=
  emit (CPress button) ;;!
  match p with
  | PressResult r => ret r
  | PressNavInner target => setMenuActive target ;;! ret None
  | PressNav that value => let! m := Build.navigate that value in setMenuActive m ;;! ret None
  end.

Definition set_activeMenu_ (v : option nat) : M unit := fun w => ROk tt (set_w_active w v).

(** The [callback_query] listener installed by [attach(telegraf)] (lines
    119-195), with no [onError], [onMethodMissing], query or generator
    handler set.  The result is that of the listener's promise. *)
Definition onCallbackQuery (ev : Event) : M (option ExecRet) :=
  match ev_data ev with
  | None => ret None
  | Some data =>
  if negb (JS.truthy_s data) then ret None else
  let! w := get in
  match w_menuMap w with
  | None => emit CHookUnhandled ;;! ret None
  | Some menuDict =>
  let menuId := match nth_error (JS.split_slash data) 1 with
                | Some x => x | None => "undefined"%string end in
  let! previousMenu := dict_lookup menuDict menuId in
  let! button := match previousMenu with
                 | Some pm => getMenuItemByPath pm data
                 | None => ret None end in
  match previousMenu, button with
  | Some pm, Some bh =>
      let! b := get_item bh in
      let targetMenu := b_parent b in
      set_activeMenu_ (Some targetMenu) ;;!
      catch
        (Build.getValueStack targetMenu None ;;!
         let! value := match b_onPress b with
                       | None => ret None
                       | Some p => toMenu targetMenu true ;;! press p bh
                       end in
         let! returnValue := execButtonAction value ev bh targetMenu in
         let! tm := get_menu targetMenu in
         let! pmr := get_menu pm in
         (if String.eqb menuId (m_id tm) then
            if negb (Nat.eqb (m_buttons pmr) (m_buttons tm)) then
              fun w => ROk tt (set_w_menuMap w (Some (<[menuId := targetMenu]>
                         (match w_menuMap w with Some d => d | None => ∅ end))))
            else ret tt
          else ret tt) ;;!
         set_activeMenu_ None ;;!
         ret (Some returnValue))
        (fun e => set_activeMenu_ None ;;! throw e)
  | _, _ => emit CHookUnhandled ;;! ret None
  end
  end
  end.

(** [showMenu(ctx, menuBuilder)] without the reply: build and register. *)
Definition showMenu (mb : nat) : M unit :=
  toMenu mb false ;;! registerMenu mb.

End Dispatch.
End Dispatch.

(* ------------------------------------------------------------------ *)
(** ** Concrete trees and events *)

Module Scenarios.

(** User functions for the scenarios: hide/full functions answering
    [false], no dynamic root menu, and a menu function always giving the
    layout [{ text: 'Dyn', buttons: { d1: 'D1' } }]. *)
Definition no_fn : nat -> M bool := fun _ => ret false.
Definition no_source : nat -> M nat := fun _ => throw ErrType.
Definition dyn_layout : nat -> string -> list (option Val) -> Layout :=
  fun _ _ _ => mkLayout None "Dyn" [("d1", "D1")].
Definition nano : string := "n".

Definition dispatch (ev : Dispatch.Event) : M (option Dispatch.ExecRet) :=
  Dispatch.onCallbackQuery no_fn no_source dyn_layout nano ev.

Definition event (data : string) : Dispatch.Event := Dispatch.mkEvent (Some data) true.

Definition result_close : ActionResult :=
  mkResult None None None None None (Some true) None None None None None false.
Definition result_update : ActionResult :=
  mkResult None None None None None None None None (Some true) None None false.
Definition result_value (v : Val) : ActionResult :=
  mkResult None None None None None None None None None None (Some v) false.
Definition result_menu_fn (text : string) : ActionResult :=
  mkResult None None (Some text) None None None None (Some (MVFun 0)) None None None false.

(** [new MenuBuilder('Root', 'root')] with three submenus made by
    [root.menu(...)]: a tree of four nodes, indexes 0 to 3; then the
    numeric branch of a navigation button of the root with target [-1]. *)
Definition nav_tree : M (nat * nat) :=
  let! root := MenuBuilder.constructor "Root" "root" None in
  let! a := Build.menu root "A" "A" "a" "a" (PConst false) (PConst false) in
  let! b := Build.menu root "B" "B" "b" "b" (PConst false) (PConst false) in
  let! c := Build.menu root "C" "C" "c" "c" (PConst false) (PConst false) in
  let! target := Build.navigate_number root (-1) in
  ret (root, target).

(** A root menu [main] with a submenu [sub] holding a button [x] whose
    action returns [{ close: true }]; [main] is shown, then the event
    ["/main/sub/x"] arrives twice. *)
Definition close_tree : M (option Dispatch.ExecRet * option Dispatch.ExecRet) :=
  let! main := MenuBuilder.constructor "Main" "main" None in
  let! sub := Build.menu main "Sub" "Go" "sub" "go" (PConst false) (PConst false) in
  let! x := Build.button sub "X" "x" in
  MenuItemBuilder.setOnPress x (PressResult (Some result_close)) ;;!
  MenuItemBuilder.end_ x ;;!
  Dispatch.showMenu no_fn no_source dyn_layout main ;;!
  let! r1 := dispatch (event "/main/sub/x") in
  let! r2 := dispatch (event "/main/sub/x") in
  ret (r1, r2).

(** A root menu [main] with a button [chooseSize] whose action returns
    [{ value: 'L' }] (pushed as [pushValue('chooseSize', 'L')]) and a
    button [next] whose action returns [{ text: 'Next', menu: fn }]: the
    events ["/main/chooseSize"] and ["/main/next"].  The result is the
    button [next]. *)
Definition dynamic_tree : M nat :=
  let! main := MenuBuilder.constructor "Main" "main" None in
  let! cs := Build.button main "Size" "chooseSize" in
  MenuItemBuilder.setOnPress cs (PressResult (Some (result_value "L"))) ;;!
  MenuItemBuilder.end_ cs ;;!
  let! nx := Build.button main "Next" "next" in
  MenuItemBuilder.setOnPress nx (PressResult (Some (result_menu_fn "Next"))) ;;!
  MenuItemBuilder.end_ nx ;;!
  Dispatch.showMenu no_fn no_source dyn_layout main ;;!
  dispatch (event "/main/chooseSize") ;;!
  dispatch (event "/main/next") ;;!
  ret nx.

(** [dynamic_tree] up to its first event, ["/main/chooseSize"]. *)
Definition dynamic_tree_pushed : M unit :=
  let! main := MenuBuilder.constructor "Main" "main" None in
  let! cs := Build.button main "Size" "chooseSize" in
  MenuItemBuilder.setOnPress cs (PressResult (Some (result_value "L"))) ;;!
  MenuItemBuilder.end_ cs ;;!
  let! nx := Build.button main "Next" "next" in
  MenuItemBuilder.setOnPress nx (PressResult (Some (result_menu_fn "Next"))) ;;!
  MenuItemBuilder.end_ nx ;;!
  Dispatch.showMenu no_fn no_source dyn_layout main ;;!
  dispatch (event "/main/chooseSize") ;;!
  ret tt.

(** A root [a] with a submenu of id ["b/c"] and a submenu [b] holding a
    submenu [c], all made by [menu(...)]: menus 0 to 3.  The result is
    the root. *)
Definition slash_tree : M nat :=
  let! a := MenuBuilder.constructor "A" "a" None in
  Build.menu a "BC" "BC" "b/c" "bc" (PConst false) (PConst false) ;;!
  let! b := Build.menu a "B" "B" "b" "b" (PConst false) (PConst false) in
  Build.menu b "C" "C" "c" "c" (PConst false) (PConst false) ;;!
  ret a.

End Scenarios.

(** Every node of the tree of registry [reg] is listed under its id. *)
Definition ids_registered (w : World) (reg : nat) : Prop :=
  forall n m, w_menus w !! n = Some m -> m_reg m = Some reg ->
    exists r, w_regs w !! reg = Some r /\ r_byId r !! m_id m = Some n.

(** The world after [Scenarios.nav_tree] has built its tree, before the
    navigation. *)
Definition nav_world : World :=
  Eval vm_compute in
  match (let! root := MenuBuilder.constructor "Root" "root" None in
         Build.menu root "A" "A" "a" "a" (PConst false) (PConst false) ;;!
         Build.menu root "B" "B" "b" "b" (PConst false) (PConst false) ;;!
         Build.menu root "C" "C" "c" "c" (PConst false) (PConst false)) empty_world
  with ROk _ w => w | RErr _ w => w end.

(** A root [main] with a submenu [sub] made by [main.menu] and a button
    [x] of [sub]: menus 0 and 1, buttons 0 ([go], of [main]) and 1 ([x]). *)
Definition impure_world : World :=
  Eval vm_compute in
  match (let! main := MenuBuilder.constructor "Main" "main" None in
         let! sub := Build.menu main "Sub" "Go" "sub" "go" (PConst false) (PConst false) in
         let! x := Build.button sub "X" "x" in
         MenuItemBuilder.end_ x) empty_world
  with ROk _ w => w | RErr _ w => w end.

(** [impure_world] after [x.setHide(fn)]. *)
Definition impure_world_hidden : World :=
  Eval vm_compute in
  match MenuItemBuilder.setHide 1 (PFun 0) impure_world with ROk _ w => w | RErr _ w => w end.

(** A dynamic-menu builder for trees without dynamic menus. *)
Definition no_builder : Dyn -> M nat := fun _ => throw ErrType.

(** [nav_world] after [root.toMenu()]: the root and its buttons carry a
    built render and clear change flags. *)
Definition rendered_world : World :=
  Eval vm_compute in
  match Render.toMenu Scenarios.no_fn no_builder 0%nat false nav_world with
  | ROk _ w => w | RErr _ w => w end.

(** Frames: what an operation leaves alone.  [mkeep h] says the menu
    [h] keeps its id, value stack, parent and path; [ikeep b] says the
    button [b] keeps its [dynamicMenu]; [frame X] asks this of every menu
    outside [X] and of every button, and that no menu disappears. *)
Definition same4 (m' m : menuRec) : Prop :=
  m_id m' = m_id m /\ m_stack m' = m_stack m /\ m_parent m' = m_parent m /\ m_path m' = m_path m.
Definition mkeep (h : nat) (w w' : World) : Prop :=
  forall m, w_menus w !! h = Some m -> exists m', w_menus w' !! h = Some m' /\ same4 m' m.
Definition ikeep (b : nat) (w w' : World) : Prop :=
  forall bi, w_items w !! b = Some bi ->
    exists bi', w_items w' !! b = Some bi' /\ b_dyn bi' = b_dyn bi.
Definition frame (X : nat -> Prop) (w w' : World) : Prop :=
  (forall h, ~ X h -> mkeep h w w') /\ (forall b, ikeep b w w') /\
  (length (w_menus w) <= length (w_menus w'))%nat.
Definition pres (X : nat -> Prop) {A} (c : M A) : Prop :=
  forall w a w', c w = ROk a w' -> frame X w w'.
Definition nothing : nat -> Prop := fun _ => False.


(** The world after [Scenarios.dynamic_tree]: [main] (menu 0), the first
    instance of the dynamic menu (menu 1, detached) and its replacement
    (menu 2), built by the first draw of menu 1. *)
Definition dynamic_world : World :=
  Eval vm_compute in
  match Scenarios.dynamic_tree empty_world with ROk _ w => w | RErr _ w => w end.

(** The world of [Scenarios.dynamic_tree] after its first event only. *)
Definition dynamic_pushed_world : World :=
  Eval vm_compute in
  match Scenarios.dynamic_tree_pushed empty_world with ROk _ w => w | RErr _ w => w end.

(** [dynamic_world] after one more rebuild of the dynamic menu of [next]. *)
Definition rebuilt_world : World :=
  Eval vm_compute in
  match Dispatch.dynamicMenuBuilder Scenarios.dyn_layout 1 0 0 "n" 0 dynamic_world with
  | ROk _ w => w | RErr _ w => w end.

(** A button mutation from [w] to [w'] marks the button [h] and its menu
    together: the button keeps its parent, and some bits [k] are OR-ed
    into both the button's flags and its parent menu's flags. *)
Definition marks_together (h : nat) (w w' : World) : Prop :=
  forall b pm, w_items w !! h = Some b -> w_menus w !! b_parent b = Some pm ->
    exists b' pm' k, w_items w' !! h = Some b' /\ b_parent b' = b_parent b /\
      w_menus w' !! b_parent b = Some pm' /\
      b_flags b' = Z.lor (b_flags b) k /\ m_flags pm' = Z.lor (m_flags pm) k.


(** [nav_world] after [a.text = 'Z'] on the button [a] (button 0). *)
Definition renamed_world : World :=
  Eval vm_compute in
  match MenuItemBuilder.set_text 0 "Z" nav_world with ROk _ w => w | RErr _ w => w end.

(** The world after [Scenarios.slash_tree]. *)
Definition slash_id_world : World :=
  Eval vm_compute in
  match Scenarios.slash_tree empty_world with ROk _ w => w | RErr _ w => w end.

(** [nav_world] after [new MenuBuilder('X', 'x', root)]: menu 4, listed
    in the registry of the root's tree. *)
Definition extended_world : World :=
  Eval vm_compute in
  match MenuBuilder.constructor "X" "x" (Some 0%nat) nav_world with
  | ROk _ w => w | RErr _ w => w end.

(** Stored paths: the [_path] field of a menu, when set to a non-empty
    string, starts and ends with a slash (the constructor sets it to
    ['/'] for the id ['/'] only, and [_attach] clears it). *)
Definition path_shaped_m (m : menuRec) : bool :=
  match m_path m with
  | Some p => negb (JS.truthy_s p) || (JS.starts_with p JS.slash_s && JS.ends_with p JS.slash_s)
  | None => true
  end.
Definition paths_shaped (w : World) : bool := forallb path_shaped_m (w_menus w).

(** ** [MenuBuilder] change queries (menu-builder.ts, lines 126-185).  The
    change flags and the changes asked for are [Change] values, small
    non-negative integers, on which the int32 [&] and [|] of JavaScript
    agree with [Z.land] and [Z.lor]. *)
Module Changes.

(** [get isChanged()]: [this.changeFlags !== Change.None] *)
Definition isChanged (m : menuRec) : bool := negb (Z.eqb (m_flags m) Change.None_).

(** [hasChange(change)]: [(this.changeFlags & change) === change] *)
Definition hasChange (m : menuRec) (change : Z) : bool :=
  Z.eqb (Z.land (m_flags m) change) change.

(** [hasAnyChange(...changes)]: the first change found held returns [true]. *)
Definition hasAnyChange (m : menuRec) (changes : list Z) : bool :=
  let changeFlags := m_flags m in
  (fix loop (cs : list Z) : bool :=
     match cs with
     | [] => false
     | change :: rest => if Z.eqb (Z.land changeFlags change) change then true else loop rest
     end) changes.

(** [hasChanges(...changes)]:
    [this.hasChange(changes.reduce((left, right) => left | right, 0))] *)
Definition hasChanges (m : menuRec) (changes : list Z) : bool :=
  hasChange m (fold_left (fun left right => Z.lor left right) changes 0).

End Changes.

(** The links of every menu (parent, registry, root, children) are the same
    in [w'] as in [w]. *)
Definition links_kept (w w' : World) : Prop :=
  forall h m, w_menus w !! h = Some m ->
    exists m', w_menus w' !! h = Some m' /\ m_parent m' = m_parent m /\
      m_reg m' = m_reg m /\ m_root m' = m_root m /\ m_children m' = m_children m.


(** Every [Error] message [c] throws satisfies [P]; the heap and fuel
    failures of the embedding carry no message. *)
Definition only_msgs (P : string -> Prop) {A} (c : M A) : Prop :=
  forall w s w', c w <> RErr (ErrMsg s) w' \/ P s.


(** [c] leaves [_activeMenu] as it found it, whether it returns or throws. *)
Definition keeps_active {A} (c : M A) : Prop :=
  forall w, match c w with ROk _ w' | RErr _ w' => w_active w' = w_active w end.

(** [c] ends, returning or throwing, with [_activeMenu] unset. *)
Definition clears_active {A} (c : M A) : Prop :=
  forall w, match c w with ROk _ w' | RErr _ w' => w_active w' = None end.

(** When [c] returns, [_activeMenu] is unset. *)
Definition returns_cleared {A} (c : M A) : Prop :=
  forall w a w', c w = ROk a w' -> w_active w' = None.

(** [x] is [a] or a descendant of [a] through the [_children] lists. *)
Inductive in_tree (w : World) : nat -> nat -> Prop :=
| in_tree_self a : in_tree w a a
| in_tree_child a m cs c x :
    w_menus w !! a = Some m -> m_children m = Some cs -> In c cs -> in_tree w c x -> in_tree w a x.

(* ================================================================== *)
(** * Properties *)

(** ** The state monad *)

Lemma bind_ROk {A B} (m : M A) (k : A -> M B) w a w' :
  bind m k w = ROk a w' -> exists x w1, m w = ROk x w1 /\ k x w1 = ROk a w'.
Proof. unfold bind. destruct (m w) eqn:E; [eauto | discriminate]. Qed.

Lemma bind_ROk_intro {A B} (m : M A) (k : A -> M B) w x w1 :
  m w = ROk x w1 -> bind m k w = k x w1.
Proof. unfold bind. intros ->. reflexivity. Qed.

(** ** Negative navigation indexes *)

Lemma nav_index_negative (last value : Z) :
  - last <= value < 0 -> Build.nav_index last value = (last + value) mod last.
Proof.
  intros [Hlo Hhi]. unfold Build.nav_index.
  assert (Hv : (value <? 0)%Z = true) by (apply Z.ltb_lt; lia).
  assert (Hg : (value >=? - last)%Z = true) by (apply Z.geb_le; lia).
  rewrite Hv, Hg. simpl.
  destruct (Z.eq_dec value (- last)) as [->|Hne].
  - rewrite Z.rem_opp_l by lia. rewrite Z.rem_same by lia. simpl.
    replace (last + - last) with 0 by lia. rewrite Z.mod_0_l by lia. reflexivity.
  - replace (Z.rem value last) with value.
    + rewrite Hv. rewrite Z.mod_small by lia. lia.
    + replace value with (- (- value)) at 2 by lia.
      rewrite Z.rem_opp_l by lia. rewrite Z.rem_small by lia. lia.
Qed.

(** C2 (amended).  The numeric branch of a navigation button of the menu
    [that], with [L = that.lastMenuIndex] and a target [value] in
    [-L <= value < 0], resolves to the node at creation index
    [(L + value) mod L] of the tree's index registry, and raises
    ["Given menu index was out of range: <value>, menu count: <L + 1>"]
    when that slot is empty.  The modulus is the navigating menu's
    [lastMenuIndex], not the number of nodes of the tree. *)
Theorem navigate_number_negative (that : nat) (tm : menuRec) (reg : nat) (r : registry)
    (value : Z) (w : World) :
  w_menus w !! that = Some tm -> m_reg tm = Some reg -> w_regs w !! reg = Some r ->
  - m_last tm <= value < 0 ->
  Build.navigate_number that value w =
    match Build.by_index r ((m_last tm + value) mod m_last tm) with
    | Some mh => ROk mh w
    | None => RErr (ErrMsg (Build.index_range_msg value (m_last tm))) w
    end.
Proof.
  intros Hm Hreg Hr Hrange.
  cbv [Build.navigate_number get_menu get_reg bind deref ret throw].
  rewrite Hm, Hreg, Hr. rewrite nav_index_negative by exact Hrange.
  destruct (Build.by_index r _); reflexivity.
Qed.

Lemma navigate_number_negative_witness :
  exists tm r, w_menus nav_world !! 0%nat = Some tm /\ m_reg tm = Some 0%nat /\
    w_regs nav_world !! 0%nat = Some r /\ - m_last tm <= -1 < 0 /\
    Build.navigate_number 0 (-1) nav_world = ROk 2%nat nav_world.
Proof.
  do 2 eexists. split; [reflexivity|]. split; [reflexivity|]. split; [reflexivity|].
  split; [cbn; lia|].
  rewrite (navigate_number_negative 0 _ 0 _ (-1) nav_world eq_refl eq_refl eq_refl) by (cbn; lia).
  reflexivity.
Defined.

(** C2 counterexample.  In the four-node tree of [Scenarios.nav_tree]
    (a root and three submenus made by [root.menu]), the target [-1] of a
    navigation button of the root resolves to the node at index 2, not to
    the node at index [(4 + -1) mod 4 = 3]. *)
Lemma nav_tree_minus_one_is_index_2 :
  match Scenarios.nav_tree empty_world with
  | ROk (_, t) w =>
      (length <$> (r_byIndex <$> w_regs w !! 0%nat)) = Some 4%nat /\
      (r_byIndex <$> w_regs w !! 0%nat) ≫= (fun l => l !! 2%nat) = Some t /\
      (r_byIndex <$> w_regs w !! 0%nat) ≫= (fun l => l !! Z.to_nat ((4 + -1) mod 4)) <> Some t
  | RErr _ _ => False
  end.
Proof. vm_compute. split; [reflexivity|]. split; [reflexivity|]. discriminate. Qed.

(** ** No-op property writes *)

Lemma truthy_false_empty (s : string) : JS.truthy_s s = false -> s = EmptyString.
Proof. destruct s; [reflexivity | discriminate]. Qed.

(** C4 (amended).  Assigning to a menu's or a button's text a string that
    trims to the empty string, or whose trimmed form equals the current
    text, and assigning to [hide] / [full] (setter or [setHide] /
    [setFull] with a constant) the current value, leave the world
    unchanged: neither the property nor any change bitset is written. *)
Theorem noop_writes :
  (forall h to w, JS.trim to = EmptyString -> MenuBuilder.set_text h to w = ROk tt w) /\
  (forall h to w m, w_menus w !! h = Some m -> m_text m = JS.trim to ->
     MenuBuilder.set_text h to w = ROk tt w) /\
  (forall h to w, JS.trim to = EmptyString -> MenuItemBuilder.set_text h to w = ROk tt w) /\
  (forall h to w b, w_items w !! h = Some b -> b_text b = JS.trim to ->
     MenuItemBuilder.set_text h to w = ROk tt w) /\
  (forall h to w, JS.trim to = EmptyString -> MenuItemBuilder.setText h to w = ROk tt w) /\
  (forall h to w b, w_items w !! h = Some b -> b_text b = JS.trim to ->
     MenuItemBuilder.setText h to w = ROk tt w) /\
  (forall h v w b, w_items w !! h = Some b -> b_hidden b = v ->
     MenuItemBuilder.set_hide h v w = ROk tt w /\
     MenuItemBuilder.setHide h (PConst v) w = ROk tt w) /\
  (forall h v w b, w_items w !! h = Some b -> b_full b = v ->
     MenuItemBuilder.set_full h v w = ROk tt w /\
     MenuItemBuilder.setFull h (PConst v) w = ROk tt w).
Proof.
  repeat split; intros;
    cbv [MenuBuilder.set_text MenuItemBuilder.set_text MenuItemBuilder.setText
         MenuItemBuilder.set_hide MenuItemBuilder.set_full
         MenuItemBuilder.setHide MenuItemBuilder.setFull get_menu get_item bind ret];
    repeat match goal with H : JS.trim _ = EmptyString |- _ => rewrite H end;
    try reflexivity;
    try (match goal with |- context [JS.truthy_s (JS.trim ?t)] =>
           destruct (JS.truthy_s (JS.trim t)) end); cbn [negb];
    repeat match goal with H : _ !! _ = Some _ |- _ => rewrite H end;
    repeat match goal with H : _ = JS.trim _ |- _ => rewrite <- H end;
    repeat match goal with H : b_hidden _ = _ |- _ => rewrite H end;
    repeat match goal with H : b_full _ = _ |- _ => rewrite H end;
    rewrite ?String.eqb_refl, ?Bool.eqb_reflx; reflexivity.
Qed.

Lemma noop_writes_witness :
  exists m, w_menus nav_world !! 0%nat = Some m /\ m_text m = JS.trim " Root " /\
    MenuBuilder.set_text 0 " Root " nav_world = ROk tt nav_world.
Proof.
  eexists. split; [reflexivity|]. split; [reflexivity|].
  exact (proj1 (proj2 noop_writes) 0%nat " Root " nav_world _ eq_refl eq_refl).
Defined.

(** C4 counterexample.  The constructor stores the text as given: a root
    [new MenuBuilder(' a ', 'r')] whose text is assigned its own current
    value [' a '] gets the text ['a'] and the [Change.Text] bit. *)
Lemma same_text_write_marks_change :
  match (let! r := MenuBuilder.constructor " a " "r" None in
         let! m0 := get_menu r in
         MenuBuilder.set_text r (m_text m0) ;;!
         let! m1 := get_menu r in ret (m0, m1)) empty_world with
  | ROk (m0, m1) _ =>
      m_text m0 = " a "%string /\ m_text m1 = "a"%string /\
      Z.land (m_flags m0) Change.Text = 0 /\ Z.land (m_flags m1) Change.Text = Change.Text
  | RErr _ _ => False
  end.
Proof. vm_compute. repeat split. Qed.

(** ** Dropped action results *)

(** C5 (code bug).  A result object that requests only a forced rebuild,
    [{ update: true }], or only a new menu, [{ menu }], is not recognised
    by [isButtonActionResultLike]: [execButtonAction] returns
    [SYM_EXEC_FAIL] without changing anything, so the requested branch is
    never reached. *)
Theorem update_or_menu_only_result_dropped :
  forall run_fn run_source layout_fn nanoid ev button targetMenu w,
    Dispatch.execButtonAction run_fn run_source layout_fn nanoid
      (Some Scenarios.result_update) ev button targetMenu w = ROk Dispatch.ExecFail w /\
    forall mv,
      Dispatch.execButtonAction run_fn run_source layout_fn nanoid
        (Some (mkResult None None None None None None None (Some mv) None None None false))
        ev button targetMenu w = ROk Dispatch.ExecFail w.
Proof. intros. split; [reflexivity | intros; reflexivity]. Qed.

(** ** Closing a submenu *)

(** C8 (code bug).  For the button [x] of the submenu [sub] of the shown
    root [main], with the action [{ close: true }]: the first event
    ["/main/sub/x"] deletes the message and closes the menu, but
    [deleteMenu(button.parent)] looks up the key ["sub"] in a dictionary
    keyed by root ids and removes nothing, so the second identical event
    runs the action again instead of reaching the unhandled-query hook. *)
Theorem submenu_close_event_reexecuted :
  match Scenarios.close_tree empty_world with
  | ROk (r1, r2) w =>
      r1 = Some Dispatch.ExecSuccess /\ r2 = Some Dispatch.ExecSuccess /\
      w_log w = [CPress 1; CDeleteMessage; CHookMenuClose;
                 CPress 1; CDeleteMessage; CHookMenuClose] /\
      ~ In CHookUnhandled (w_log w) /\
      (w_menuMap w ≫= (fun d => d !! "main"%string)) = Some 0%nat
  | RErr _ _ => False
  end.
Proof.
  vm_compute. split; [reflexivity|]. split; [reflexivity|]. split; [reflexivity|].
  split; [|reflexivity]. intros H. repeat destruct H as [H|H]; try discriminate; exact H.
Qed.

(** ** Heap operations *)

Lemma get_menu_inv h w m w' : get_menu h w = ROk m w' -> w' = w /\ w_menus w !! h = Some m.
Proof. unfold get_menu. destruct (w_menus w !! h) eqn:E; intros H; inversion H; subst; auto. Qed.

Lemma put_menu_inv h m w u w' :
  put_menu h m w = ROk u w' -> (h < length (w_menus w))%nat /\ w' = set_w_menus w (<[h := m]> (w_menus w)).
Proof. unfold put_menu. destruct (decide _); intros H; inversion H; subst; auto. Qed.

Lemma upd_menu_inv h f w u w' :
  upd_menu h f w = ROk u w' ->
  exists m, w_menus w !! h = Some m /\ w' = set_w_menus w (<[h := f m]> (w_menus w)).
Proof.
  unfold upd_menu. intros H. apply bind_ROk in H as (m & w1 & H1 & H2).
  apply get_menu_inv in H1 as [-> Hm]. apply put_menu_inv in H2 as [_ ->]. eauto.
Qed.

Lemma get_item_inv h w b w' : get_item h w = ROk b w' -> w' = w /\ w_items w !! h = Some b.
Proof. unfold get_item. destruct (w_items w !! h) eqn:E; intros H; inversion H; subst; auto. Qed.

Lemma put_item_inv h b w u w' :
  put_item h b w = ROk u w' -> (h < length (w_items w))%nat /\ w' = set_w_items w (<[h := b]> (w_items w)).
Proof. unfold put_item. destruct (decide _); intros H; inversion H; subst; auto. Qed.

Lemma upd_item_inv h f w u w' :
  upd_item h f w = ROk u w' ->
  exists b, w_items w !! h = Some b /\ w' = set_w_items w (<[h := f b]> (w_items w)).
Proof.
  unfold upd_item. intros H. apply bind_ROk in H as (b & w1 & H1 & H2).
  apply get_item_inv in H1 as [-> Hb]. apply put_item_inv in H2 as [_ ->]. eauto.
Qed.

Lemma get_reg_inv r w x w' : get_reg r w = ROk x w' -> w' = w /\ w_regs w !! r = Some x.
Proof. unfold get_reg. destruct (w_regs w !! r) eqn:E; intros H; inversion H; subst; auto. Qed.

Lemma put_reg_inv r x w u w' :
  put_reg r x w = ROk u w' -> (r < length (w_regs w))%nat /\ w' = set_w_regs w (<[r := x]> (w_regs w)).
Proof. unfold put_reg. destruct (decide _); intros H; inversion H; subst; auto. Qed.

Lemma get_stack_inv s w x w' : get_stack s w = ROk x w' -> w' = w /\ w_stacks w !! s = Some x.
Proof. unfold get_stack. destruct (w_stacks w !! s) eqn:E; intros H; inversion H; subst; auto. Qed.

Lemma put_stack_inv s x w u w' :
  put_stack s x w = ROk u w' -> (s < length (w_stacks w))%nat /\ w' = set_w_stacks w (<[s := x]> (w_stacks w)).
Proof. unfold put_stack. destruct (decide _); intros H; inversion H; subst; auto. Qed.

Lemma get_dict_inv d w x w' : get_dict d w = ROk x w' -> w' = w /\ w_dicts w !! d = Some x.
Proof. unfold get_dict. destruct (w_dicts w !! d) eqn:E; intros H; inversion H; subst; auto. Qed.

Lemma put_dict_inv d x w u w' :
  put_dict d x w = ROk u w' -> (d < length (w_dicts w))%nat /\ w' = set_w_dicts w (<[d := x]> (w_dicts w)).
Proof. unfold put_dict. destruct (decide _); intros H; inversion H; subst; auto. Qed.

Lemma ret_inv {A} (a : A) w a' w' : ret a w = ROk a' w' -> a' = a /\ w' = w.
Proof. unfold ret. intros H. inversion H. auto. Qed.

Lemma get_inv w a w' : get w = ROk a w' -> a = w /\ w' = w.
Proof. unfold get. intros H. inversion H. auto. Qed.

Lemma throw_inv {A} e w (a : A) w' : throw e w = ROk a w' -> False.
Proof. discriminate. Qed.

Lemma deref_inv {A} (o : option A) w a w' : deref o w = ROk a w' -> o = Some a /\ w' = w.
Proof. destruct o; simpl; unfold ret, throw; intros H; inversion H; auto. Qed.

(** Splits a successful run into the runs of its steps. *)
Ltac peel :=
  repeat match goal with
  | H : bind _ _ _ = ROk _ _ |- _ =>
      let x := fresh "x" in let w := fresh "w" in let H1 := fresh "H" in
      apply bind_ROk in H; destruct H as (x & w & H1 & H)
  | H : get_menu _ _ = ROk _ _ |- _ =>
      let E := fresh "E" in apply get_menu_inv in H; destruct H as [? E]; subst
  | H : get_item _ _ = ROk _ _ |- _ =>
      let E := fresh "E" in apply get_item_inv in H; destruct H as [? E]; subst
  | H : get_reg _ _ = ROk _ _ |- _ =>
      let E := fresh "E" in apply get_reg_inv in H; destruct H as [? E]; subst
  | H : get_stack _ _ = ROk _ _ |- _ =>
      let E := fresh "E" in apply get_stack_inv in H; destruct H as [? E]; subst
  | H : get_dict _ _ = ROk _ _ |- _ =>
      let E := fresh "E" in apply get_dict_inv in H; destruct H as [? E]; subst
  | H : put_menu _ _ _ = ROk _ _ |- _ =>
      let L := fresh "L" in apply put_menu_inv in H; destruct H as [L ?]; subst
  | H : put_item _ _ _ = ROk _ _ |- _ =>
      let L := fresh "L" in apply put_item_inv in H; destruct H as [L ?]; subst
  | H : put_reg _ _ _ = ROk _ _ |- _ =>
      let L := fresh "L" in apply put_reg_inv in H; destruct H as [L ?]; subst
  | H : put_stack _ _ _ = ROk _ _ |- _ =>
      let L := fresh "L" in apply put_stack_inv in H; destruct H as [L ?]; subst
  | H : put_dict _ _ _ = ROk _ _ |- _ =>
      let L := fresh "L" in apply put_dict_inv in H; destruct H as [L ?]; subst
  | H : upd_menu _ _ _ = ROk _ _ |- _ =>
      let m := fresh "m" in let E := fresh "E" in
      apply upd_menu_inv in H; destruct H as (m & E & ?); subst
  | H : upd_item _ _ _ = ROk _ _ |- _ =>
      let b := fresh "b" in let E := fresh "E" in
      apply upd_item_inv in H; destruct H as (b & E & ?); subst
  | H : ret _ _ = ROk _ _ |- _ => apply ret_inv in H; destruct H as [? ?]; subst
  | H : get _ = ROk _ _ |- _ => apply get_inv in H; destruct H as [? ?]; subst
  | H : throw _ _ = ROk _ _ |- _ => destruct (throw_inv _ _ _ _ H)
  | H : deref _ _ = ROk _ _ |- _ =>
      let E := fresh "E" in apply deref_inv in H; destruct H as [E ?]; subst
  end.

(** ** Impure buttons *)

Lemma lookup_insert_list_cases {A} (l : list A) i j x :
  <[i := x]> l !! j = if decide (i = j) then (if decide (j < length l)%nat then Some x else None) else l !! j.
Proof.
  destruct (decide (i = j)) as [->|Hne].
  - destruct (decide (j < length l)%nat).
    + apply list_lookup_insert_eq; lia.
    + rewrite lookup_ge_None_2; [reflexivity|]. rewrite length_insert. lia.
  - apply list_lookup_insert_ne; exact Hne.
Qed.

(** C7 (amended).  Assigning a function to a button's [hide] or [full]
    marks the button ([isPure = false], the function stored) and its
    direct parent menu as impure; the [isPure] of every other menu, the
    grandparent and the root included, is left as it was. *)
Theorem function_prop_marks_button_and_parent :
  (forall h tok b w u w',
     w_items w !! h = Some b -> MenuItemBuilder.setHide h (PFun tok) w = ROk u w' ->
     (exists b', w_items w' !! h = Some b' /\ b_pure b' = false /\ b_hideFn b' = Some tok) /\
     (exists pm, w_menus w' !! b_parent b = Some pm /\ m_pure pm = false) /\
     (forall q, q <> b_parent b -> m_pure <$> w_menus w' !! q = m_pure <$> w_menus w !! q)) /\
  (forall h tok b w u w',
     w_items w !! h = Some b -> MenuItemBuilder.setFull h (PFun tok) w = ROk u w' ->
     (exists b', w_items w' !! h = Some b' /\ b_pure b' = false /\ b_fullFn b' = Some tok) /\
     (exists pm, w_menus w' !! b_parent b = Some pm /\ m_pure pm = false) /\
     (forall q, q <> b_parent b -> m_pure <$> w_menus w' !! q = m_pure <$> w_menus w !! q)).
Proof.
  split; intros h tok b w u w' Hb Hrun;
    cbv [MenuItemBuilder.setHide MenuItemBuilder.setFull MenuItemBuilder.markChange
         MenuBuilder.markChange] in Hrun; peel;
    cbn [w_items w_menus set_w_items set_w_menus] in *;
    match goal with H : w_items w !! h = Some _ |- _ => rewrite Hb in H; injection H as <- end;
    match goal with H : <[h := _]> _ !! h = Some _ |- _ =>
      rewrite list_lookup_insert_eq in H by lia; injection H as <- end;
    cbn in *;
    match goal with H : w_menus w !! b_parent b = Some _ |- _ =>
      pose proof (lookup_lt_Some _ _ _ H) end;
    match goal with H : <[b_parent b := _]> _ !! b_parent b = Some _ |- _ =>
      rewrite list_lookup_insert_eq in H by lia; injection H as <- end;
    cbn; refine (conj _ (conj _ _)).
  all: try (intros q Hq; rewrite !list_lookup_insert_ne by congruence; reflexivity).
  all: eexists; rewrite list_lookup_insert_eq by (rewrite length_insert; lia);
       split; [reflexivity|]; try split; reflexivity.
Qed.

Lemma function_prop_marks_button_and_parent_witness :
  exists b, w_items impure_world !! 1%nat = Some b /\
    MenuItemBuilder.setHide 1 (PFun 0) impure_world = ROk tt impure_world_hidden /\
    (m_pure <$> w_menus impure_world_hidden !! 0%nat) = (m_pure <$> w_menus impure_world !! 0%nat).
Proof.
  eexists. split; [reflexivity|]. split; [vm_compute; reflexivity|].
  refine (proj2 (proj2 (proj1 function_prop_marks_button_and_parent 1%nat 0%nat _
            impure_world tt impure_world_hidden eq_refl _)) 0%nat _).
  - vm_compute. reflexivity.
  - vm_compute. discriminate.
Defined.

(** C7 counterexample.  In [impure_world], [x.setHide(fn)] on the button
    [x] of the submenu [sub] leaves the root [main] pure. *)
Lemma function_prop_leaves_root_pure :
  MenuItemBuilder.setHide 1 (PFun 0) impure_world = ROk tt impure_world_hidden /\
  (b_parent <$> w_items impure_world !! 1%nat) = Some 1%nat /\
  (m_parent <$> w_menus impure_world !! 1%nat) = Some (Some 0%nat) /\
  (m_pure <$> w_menus impure_world_hidden !! 0%nat) = Some true.
Proof. vm_compute. repeat split. Qed.

Lemma alloc_menu_inv m w h w' :
  alloc_menu m w = ROk h w' -> h = length (w_menus w) /\ w' = set_w_menus w (w_menus w ++ [m]).
Proof. unfold alloc_menu. intros H. inversion H. auto. Qed.

Lemma alloc_item_inv b w h w' :
  alloc_item b w = ROk h w' -> h = length (w_items w) /\ w' = set_w_items w (w_items w ++ [b]).
Proof. unfold alloc_item. intros H. inversion H. auto. Qed.

Lemma alloc_dict_inv w h w' :
  alloc_dict w = ROk h w' -> h = length (w_dicts w) /\ w' = set_w_dicts w (w_dicts w ++ [[]]).
Proof. unfold alloc_dict. intros H. inversion H. auto. Qed.

Lemma alloc_reg_inv w h w' :
  alloc_reg w = ROk h w' ->
  h = length (w_regs w) /\ w' = set_w_regs w (w_regs w ++ [mkRegistry ∅ [] ∅]).
Proof. unfold alloc_reg. intros H. inversion H. auto. Qed.

Lemma alloc_stack_inv w h w' :
  alloc_stack w = ROk h w' ->
  h = length (w_stacks w) /\ w' = set_w_stacks w (w_stacks w ++ [mkStack [] ∅]).
Proof. unfold alloc_stack. intros H. inversion H. auto. Qed.

Lemma path_inv h w p w' : MenuBuilder.path h w = ROk p w' -> w' = w /\ MenuBuilder.path_w w h = Some p.
Proof. unfold MenuBuilder.path. destruct (MenuBuilder.path_w w h); intros H; inversion H; auto. Qed.

Lemma emit_inv c w u w' : emit c w = ROk u w' -> w' = set_w_log w (w_log w ++ [c]).
Proof. unfold emit. intros H. inversion H. auto. Qed.

Ltac peel2 :=
  repeat (first [progress peel | match goal with
  | H : alloc_menu _ _ = ROk _ _ |- _ => apply alloc_menu_inv in H; destruct H as [? ?]; subst
  | H : alloc_item _ _ = ROk _ _ |- _ => apply alloc_item_inv in H; destruct H as [? ?]; subst
  | H : alloc_dict _ = ROk _ _ |- _ => apply alloc_dict_inv in H; destruct H as [? ?]; subst
  | H : alloc_reg _ = ROk _ _ |- _ => apply alloc_reg_inv in H; destruct H as [? ?]; subst
  | H : alloc_stack _ = ROk _ _ |- _ => apply alloc_stack_inv in H; destruct H as [? ?]; subst
  | H : MenuBuilder.path _ _ = ROk _ _ |- _ =>
      let E := fresh "P" in apply path_inv in H; destruct H as [? E]; subst
  | H : emit _ _ = ROk _ _ |- _ => apply emit_inv in H; subst
  | H : context [fst (?a, ?b)] |- _ => change (fst (a, b)) with a in H
  | H : context [snd (?a, ?b)] |- _ => change (snd (a, b)) with b in H
  | H1 : ?X = Some ?a, H2 : ?X = Some ?b |- _ =>
      rewrite H1 in H2; injection H2 as H2; subst b
  | H1 : ?X = Some ?a, H2 : context [?X] |- _ => rewrite H1 in H2
  | H : (if ?c then _ else _) _ = ROk _ _ |- _ =>
      let C := fresh "C" in destruct c eqn:C
  | H : (match ?o with Some _ => _ | None => _ end) _ = ROk _ _ |- _ =>
      let C := fresh "C" in destruct o eqn:C
  end]).

(** ** Unique menu ids *)

Lemma js_in_false_lookup {V} (k : string) (d : gmap string V) :
  JS.js_in k d = false -> d !! k = None.
Proof. unfold JS.js_in. destruct (d !! k); [discriminate | reflexivity]. Qed.

Lemma ids_registered_unique w reg n1 n2 m1 m2 :
  ids_registered w reg ->
  w_menus w !! n1 = Some m1 -> w_menus w !! n2 = Some m2 ->
  m_reg m1 = Some reg -> m_reg m2 = Some reg -> m_id m1 = m_id m2 -> n1 = n2.
Proof.
  intros J H1 H2 R1 R2 Hid.
  destruct (J _ _ H1 R1) as (r & Hr & Hn1). destruct (J _ _ H2 R2) as (r' & Hr' & Hn2).
  rewrite Hr in Hr'. injection Hr' as <-. rewrite Hid in Hn1. congruence.
Qed.

Lemma constructor_preserves_ids text id p pm reg w h w' :
  w_menus w !! p = Some pm -> m_reg pm = Some reg -> ids_registered w reg ->
  MenuBuilder.constructor text id (Some p) w = ROk h w' -> ids_registered w' reg.
Proof.
  intros Hp Hreg J Hrun.
  cbv [MenuBuilder.constructor] in Hrun. peel2.
  all: cbn [w_regs w_menus w_dicts set_w_menus set_w_dicts set_w_regs] in *.
  all: peel2.
  all: try (apply throw_inv in Hrun; contradiction).
  apply js_in_false_lookup in C.
  unfold ids_registered; cbn [w_regs w_menus w_dicts set_w_menus set_w_dicts set_w_regs].
  intros n m Hn Hm.
  rewrite (list_lookup_insert_eq (w_regs w) reg) by exact L.
  eexists; split; [reflexivity|]. cbn [r_byId].
  destruct (decide (n < length (w_menus w))%nat) as [Hlt|Hge].
  - rewrite lookup_app_l in Hn by exact Hlt.
    destruct (J _ _ Hn Hm) as (r & Hr & Hid). rewrite E0 in Hr. injection Hr as <-.
    rewrite lookup_insert_ne; [exact Hid|]. intros ->. congruence.
  - rewrite lookup_app_r in Hn by lia.
    destruct (n - length (w_menus w))%nat eqn:Hk; [|cbn in Hn; discriminate].
    cbn in Hn. injection Hn as <-. cbn. rewrite lookup_insert_eq. f_equal. lia.
Qed.

(** C9.  Constructing a menu under a parent whose tree registry already
    has the id fails with the error [Menu with id "<id>" is previously
    defined], leaving the world as it was (nothing is registered); and a
    successful construction keeps every node of the tree listed under its
    id, so two nodes of the tree with the same id are the same node. *)
Theorem constructor_duplicate_id text id p pm reg w :
  w_menus w !! p = Some pm -> m_reg pm = Some reg ->
  (forall r, w_regs w !! reg = Some r -> JS.js_in id (r_byId r) = true ->
     MenuBuilder.constructor text id (Some p) w =
       RErr (ErrMsg (MenuBuilder.dup_id_message id)) w) /\
  (ids_registered w reg -> forall h w',
     MenuBuilder.constructor text id (Some p) w = ROk h w' ->
     ids_registered w' reg /\
     forall n1 n2 m1 m2, w_menus w' !! n1 = Some m1 -> w_menus w' !! n2 = Some m2 ->
       m_reg m1 = Some reg -> m_reg m2 = Some reg -> m_id m1 = m_id m2 -> n1 = n2).
Proof.
  intros Hp Hreg. split.
  - intros r Hr Hin.
    cbv [MenuBuilder.constructor bind get_menu get_reg ret throw].
    rewrite Hp. cbn [fst snd]. rewrite Hreg, Hr, Hin. reflexivity.
  - intros J h w' Hrun.
    assert (J' : ids_registered w' reg) by exact (constructor_preserves_ids _ _ _ _ _ _ _ _ Hp Hreg J Hrun).
    split; [exact J'|].
    intros n1 n2 m1 m2 H1 H2 R1 R2 Hid. exact (ids_registered_unique _ _ _ _ _ _ J' H1 H2 R1 R2 Hid).
Qed.

(** A use of [constructor_duplicate_id] on [nav_world]: the root [root]
    is registered, so a second [root] under it is refused. *)
Lemma constructor_duplicate_id_witness :
  MenuBuilder.constructor "Again" "root" (Some 0%nat) nav_world =
    RErr (ErrMsg (MenuBuilder.dup_id_message "root")) nav_world.
Proof.
  refine (proj1 (constructor_duplicate_id "Again" "root" 0 _ 0 nav_world eq_refl eq_refl) _ eq_refl eq_refl).
Defined.

(** C3.  [toMenu] of a menu whose change flags are [Change.None] and which
    holds a cached render returns that cached object (the same handle) and
    leaves the world untouched; every completed [toMenu(false)] leaves the
    menu with flags [Change.None] and the returned object as its cache;
    [toMenuItem] of a pure button with clear flags and a built item
    returns that item and leaves the world untouched. *)
Theorem toMenu_cache run_fn run_builder :
  (forall this soft m c w, w_menus w !! this = Some m ->
     m_flags m = Change.None_ -> m_menu m = Some c ->
     Render.toMenu run_fn run_builder this soft w = ROk c w) /\
  (forall this w menu w', Render.toMenu run_fn run_builder this false w = ROk menu w' ->
     exists m, w_menus w' !! this = Some m /\ m_flags m = Change.None_ /\ m_menu m = Some menu) /\
  (forall h b o w, w_items w !! h = Some b -> b_pure b = true ->
     b_flags b = Change.None_ -> b_built b = Some o ->
     Render.toMenuItem run_fn h w = ROk o w).
Proof.
  refine (conj _ (conj _ _)).
  - intros this soft m c w Hm Hf Hc.
    unfold Render.toMenu. destruct (fuel_of w) as [|f] eqn:Ef.
    + apply lookup_lt_Some in Hm. unfold fuel_of in Ef. lia.
    + cbn [Render.toMenu_f]. unfold bind at 1, get_menu at 1. rewrite Hm.
      rewrite Hf. cbn [Z.eqb]. rewrite Hc. reflexivity.
  - intros this w menu w' H.
    unfold Render.toMenu in H. destruct (fuel_of w) as [|f]; [discriminate|].
    cbn [Render.toMenu_f] in H.
    apply bind_ROk in H as (m & w1 & H1 & H). apply get_menu_inv in H1 as [-> Hm].
    destruct (Z.eqb (m_flags m) Change.None_) eqn:Hf; [destruct (m_menu m) eqn:Hc|].
    1: apply ret_inv in H; destruct H as [-> ->]; exists m; repeat split; auto;
       apply Z.eqb_eq; exact Hf.
    all: repeat (apply bind_ROk in H; destruct H as (?x & ?w & ?Hs & H)).
    all: apply ret_inv in H; destruct H as [<- ->].
    all: match goal with U : upd_menu _ _ _ = ROk _ _ |- _ =>
           apply upd_menu_inv in U as (m' & Hm' & ->) end.
    all: eexists; split; [cbn [w_menus set_w_menus]; apply list_lookup_insert_eq;
                          eapply lookup_lt_Some; eassumption | split; reflexivity].
  - intros h b o w Hb Hp Hf Ho.
    unfold Render.toMenuItem, bind at 1, get_item at 1. rewrite Hb, Hp, Hf, Ho.
    reflexivity.
Qed.

(** A use of [toMenu_cache] on [rendered_world]: a second [root.toMenu()]
    returns the cached render (menu object 0) without any effect, and
    [toMenuItem] of button 0 returns its built item (item object 0). *)
Lemma toMenu_cache_witness :
  Render.toMenu Scenarios.no_fn no_builder 0%nat false rendered_world = ROk 0%nat rendered_world /\
  Render.toMenuItem Scenarios.no_fn 0%nat rendered_world = ROk 0%nat rendered_world.
Proof.
  split.
  - eapply (proj1 (toMenu_cache Scenarios.no_fn no_builder) 0%nat false);
      [vm_compute; reflexivity | vm_compute; reflexivity | vm_compute; reflexivity].
  - eapply (proj2 (proj2 (toMenu_cache Scenarios.no_fn no_builder)) 0%nat);
      [vm_compute; reflexivity | vm_compute; reflexivity | vm_compute; reflexivity
      | vm_compute; reflexivity].
Defined.

(** ** Frames of the builder operations *)

Lemma same4_refl m : same4 m m.
Proof. repeat split. Qed.

Lemma same4_trans m1 m2 m3 : same4 m2 m1 -> same4 m3 m2 -> same4 m3 m1.
Proof. unfold same4. intuition congruence. Qed.

Lemma frame_refl X w : frame X w w.
Proof. refine (conj _ (conj _ _)); [intros h _ m H; exists m; exact (conj H (same4_refl _))|intros b bi H; exists bi; exact (conj H eq_refl)|]; auto. Qed.

Lemma frame_trans X w1 w2 w3 : frame X w1 w2 -> frame X w2 w3 -> frame X w1 w3.
Proof.
  intros (M1 & I1 & L1) (M2 & I2 & L2). repeat split.
  - intros h Hx m Hm. destruct (M1 h Hx m Hm) as (m1 & Hm1 & A1).
    destruct (M2 h Hx m1 Hm1) as (m2 & Hm2 & A2). exists m2. split; [exact Hm2|].
    exact (same4_trans _ _ _ A1 A2).
  - intros b bi Hb. destruct (I1 b bi Hb) as (b1 & Hb1 & A1).
    destruct (I2 b b1 Hb1) as (b2 & Hb2 & A2). exists b2. split; congruence.
  - lia.
Qed.

Lemma frame_same X w w' : w_menus w' = w_menus w -> w_items w' = w_items w -> frame X w w'.
Proof. intros E1 E2. refine (conj _ (conj _ _)); [intros h _ m H; exists m; rewrite E1; exact (conj H (same4_refl _))|intros b bi H; exists bi; rewrite E2; auto|rewrite E1; auto]. Qed.

Lemma frame_nothing X w w' : frame nothing w w' -> frame X w w'.
Proof. intros (M & I & L). refine (conj _ (conj I L)). intros h _. apply M. intros []. Qed.

Lemma pres_nothing X {A} (c : M A) : pres nothing c -> pres X c.
Proof. intros P w a w' H. apply frame_nothing. exact (P w a w' H). Qed.

Lemma pres_bind X {A B} (c : M A) (k : A -> M B) :
  pres X c -> (forall a, pres X (k a)) -> pres X (bind c k).
Proof.
  intros Pc Pk w b w' H. apply bind_ROk in H as (a & w1 & H1 & H2).
  exact (frame_trans _ _ _ _ (Pc _ _ _ H1) (Pk a _ _ _ H2)).
Qed.

Lemma pres_ret X {A} (a : A) : pres X (ret a).
Proof. intros w b w' H. apply ret_inv in H as [_ ->]. apply frame_refl. Qed.
Lemma pres_throw X {A} e : pres X (throw (A := A) e).
Proof. intros w b w' H. apply throw_inv in H. contradiction. Qed.
Lemma pres_get X : pres X get.
Proof. intros w b w' H. apply get_inv in H as [_ ->]. apply frame_refl. Qed.
Lemma pres_deref X {A} (o : option A) : pres X (deref o).
Proof. intros w b w' H. apply deref_inv in H as [_ ->]. apply frame_refl. Qed.
Lemma pres_get_menu X h : pres X (get_menu h).
Proof. intros w b w' H. apply get_menu_inv in H as [-> _]. apply frame_refl. Qed.
Lemma pres_get_item X h : pres X (get_item h).
Proof. intros w b w' H. apply get_item_inv in H as [-> _]. apply frame_refl. Qed.
Lemma pres_get_reg X h : pres X (get_reg h).
Proof. intros w b w' H. apply get_reg_inv in H as [-> _]. apply frame_refl. Qed.
Lemma pres_get_stack X h : pres X (get_stack h).
Proof. intros w b w' H. apply get_stack_inv in H as [-> _]. apply frame_refl. Qed.
Lemma pres_get_dict X h : pres X (get_dict h).
Proof. intros w b w' H. apply get_dict_inv in H as [-> _]. apply frame_refl. Qed.
Lemma pres_put_reg X h x : pres X (put_reg h x).
Proof. intros w b w' H. apply put_reg_inv in H as [_ ->]. apply frame_same; reflexivity. Qed.
Lemma pres_put_stack X h x : pres X (put_stack h x).
Proof. intros w b w' H. apply put_stack_inv in H as [_ ->]. apply frame_same; reflexivity. Qed.
Lemma pres_put_dict X h x : pres X (put_dict h x).
Proof. intros w b w' H. apply put_dict_inv in H as [_ ->]. apply frame_same; reflexivity. Qed.
Lemma pres_alloc_reg X : pres X alloc_reg.
Proof. intros w b w' H. apply alloc_reg_inv in H as [_ ->]. apply frame_same; reflexivity. Qed.
Lemma pres_alloc_stack X : pres X alloc_stack.
Proof. intros w b w' H. apply alloc_stack_inv in H as [_ ->]. apply frame_same; reflexivity. Qed.
Lemma pres_alloc_dict X : pres X alloc_dict.
Proof. intros w b w' H. apply alloc_dict_inv in H as [_ ->]. apply frame_same; reflexivity. Qed.
Lemma pres_path X h : pres X (MenuBuilder.path h).
Proof. intros w b w' H. apply path_inv in H as [-> _]. apply frame_refl. Qed.
Lemma pres_emit X c : pres X (emit c).
Proof. intros w b w' H. apply emit_inv in H as ->. apply frame_same; reflexivity. Qed.

Ltac wsimpl := cbn [w_menus w_items w_regs w_stacks w_dicts w_log w_mobjs w_iobjs
  set_w_menus set_w_items set_w_regs set_w_stacks set_w_dicts set_w_log set_w_mobjs set_w_iobjs] in *.

Lemma pres_alloc_menu X m : pres X (alloc_menu m).
Proof.
  intros w b w' H. apply alloc_menu_inv in H as [_ ->]. refine (conj _ (conj _ _)).
  - intros h _ m0 Hm. exists m0. wsimpl. refine (conj _ (same4_refl _)).
    rewrite lookup_app_l by (eapply lookup_lt_Some; eauto). exact Hm.
  - intros b0 bi Hb. exists bi. wsimpl. exact (conj Hb eq_refl).
  - wsimpl. rewrite length_app. cbn. lia.
Qed.

Lemma pres_alloc_item X b : pres X (alloc_item b).
Proof.
  intros w h w' H. apply alloc_item_inv in H as [_ ->]. refine (conj _ (conj _ _)).
  - intros h0 _ m0 Hm. exists m0. wsimpl. exact (conj Hm (same4_refl _)).
  - intros b0 bi Hb. exists bi. wsimpl. refine (conj _ eq_refl).
    rewrite lookup_app_l by (eapply lookup_lt_Some; eauto). exact Hb.
  - wsimpl. lia.
Qed.

Lemma pres_upd_menu X h f :
  (forall m, same4 (f m) m) -> pres X (upd_menu h f).
Proof.
  intros F w u w' H. apply upd_menu_inv in H as (m & Hm & ->). refine (conj _ (conj _ _)).
  - intros h' _ m0 Hm0. wsimpl. rewrite lookup_insert_list_cases.
    destruct (decide (h = h')) as [<-|Hne].
    + rewrite decide_True by (eapply lookup_lt_Some; eauto). exists (f m).
      rewrite Hm in Hm0. injection Hm0 as <-. exact (conj eq_refl (F m)).
    + exists m0. exact (conj Hm0 (same4_refl _)).
  - intros b0 bi Hb. exists bi. wsimpl. exact (conj Hb eq_refl).
  - wsimpl. rewrite length_insert. lia.
Qed.

Lemma pres_upd_menu_ex (X : nat -> Prop) h f : X h -> pres X (upd_menu h f).
Proof.
  intros Xh w u w' H. apply upd_menu_inv in H as (m & Hm & ->). refine (conj _ (conj _ _)).
  - intros h' Hx m0 Hm0. wsimpl. rewrite list_lookup_insert_ne by (intros ->; contradiction).
    exists m0. exact (conj Hm0 (same4_refl _)).
  - intros b0 bi Hb. exists bi. wsimpl. exact (conj Hb eq_refl).
  - wsimpl. rewrite length_insert. lia.
Qed.

Lemma pres_upd_item X h f : (forall b, b_dyn (f b) = b_dyn b) -> pres X (upd_item h f).
Proof.
  intros F w u w' H. apply upd_item_inv in H as (b & Hb & ->). refine (conj _ (conj _ _)).
  - intros h' _ m0 Hm0. exists m0. wsimpl. exact (conj Hm0 (same4_refl _)).
  - intros b0 bi Hb0. wsimpl. rewrite lookup_insert_list_cases.
    destruct (decide (h = b0)) as [<-|Hne].
    + rewrite decide_True by (eapply lookup_lt_Some; eauto). exists (f b).
      rewrite Hb in Hb0. injection Hb0 as <-. exact (conj eq_refl (F b)).
    + exists bi. exact (conj Hb0 eq_refl).
  - wsimpl. lia.
Qed.

Ltac pres_t :=
  repeat (first
    [ progress cbv zeta
    | match goal with
      | |- pres _ (bind _ _) => apply pres_bind; [|intros ?]
      | |- pres _ (ret _) => apply pres_ret
      | |- pres _ (throw _) => apply pres_throw
      | |- pres _ get => apply pres_get
      | |- pres _ (deref _) => apply pres_deref
      | |- pres _ (get_menu _) => apply pres_get_menu
      | |- pres _ (get_item _) => apply pres_get_item
      | |- pres _ (get_reg _) => apply pres_get_reg
      | |- pres _ (get_stack _) => apply pres_get_stack
      | |- pres _ (get_dict _) => apply pres_get_dict
      | |- pres _ (put_reg _ _) => apply pres_put_reg
      | |- pres _ (put_stack _ _) => apply pres_put_stack
      | |- pres _ (put_dict _ _) => apply pres_put_dict
      | |- pres _ alloc_reg => apply pres_alloc_reg
      | |- pres _ alloc_stack => apply pres_alloc_stack
      | |- pres _ alloc_dict => apply pres_alloc_dict
      | |- pres _ (alloc_menu _) => apply pres_alloc_menu
      | |- pres _ (alloc_item _) => apply pres_alloc_item
      | |- pres _ (MenuBuilder.path _) => apply pres_path
      | |- pres _ (emit _) => apply pres_emit
      | |- pres _ (upd_menu _ _) => apply pres_upd_menu; solve [intros; unfold same4; cbn; repeat split]
      | |- pres _ (upd_menu _ _) => apply pres_upd_menu_ex; reflexivity
      | |- pres _ (upd_item _ _) => apply pres_upd_item; intros; reflexivity
      | |- pres _ (match ?x with _ => _ end) => destruct x
      | |- pres _ (if ?x then _ else _) => destruct x
      end ]).

Lemma pres_constructor text id parent : pres nothing (MenuBuilder.constructor text id parent).
Proof. unfold MenuBuilder.constructor. pres_t. Qed.

Lemma pres_button this text id : pres nothing (Build.button this text id).
Proof. unfold Build.button, MenuItemBuilder.constructor. pres_t. Qed.

Lemma pres_end h : pres nothing (MenuItemBuilder.end_ h).
Proof. unfold MenuItemBuilder.end_. pres_t. Qed.

Lemma pres_fromObject l : pres nothing (Build.fromObject l).
Proof.
  unfold Build.fromObject. pres_t.
  - apply pres_constructor.
  - induction (l_buttons l) as [|[bid label] rest IH]; pres_t.
    + apply pres_button.
    + apply pres_end.
    + exact IH.
Qed.

Lemma frame_put_menu_same X h m' w :
  (h < length (w_menus w))%nat ->
  (forall m, w_menus w !! h = Some m -> same4 m' m) ->
  frame X w (set_w_menus w (<[h := m']> (w_menus w))).
Proof.
  intros L F. refine (conj _ (conj _ _)).
  - intros h' _ m0 Hm0. wsimpl. rewrite lookup_insert_list_cases.
    destruct (decide (h = h')) as [<-|Hne].
    + rewrite decide_True by exact L. exists m'. exact (conj eq_refl (F m0 Hm0)).
    + exists m0. exact (conj Hm0 (same4_refl _)).
  - intros b0 bi Hb. exists bi. wsimpl. exact (conj Hb eq_refl).
  - wsimpl. rewrite length_insert. lia.
Qed.

Lemma pres_decrement_from cs t : pres nothing (Build.decrement_from cs t).
Proof.
  induction cs as [|c rest IH]; cbn [Build.decrement_from]; [apply pres_ret|].
  intros w u w' H. apply bind_ROk in H as (cm & w1 & H1 & H).
  apply get_menu_inv in H1 as [-> Hc].
  apply bind_ROk in H as (v & w2 & H2 & H).
  apply (frame_trans _ _ w2); [|exact (IH _ _ _ H)].
  destruct (Z.ltb (m_index cm) t).
  - apply ret_inv in H2 as [_ ->]. apply frame_refl.
  - apply put_menu_inv in H2 as [L ->]. apply frame_put_menu_same; [exact L|].
    intros m Hm. rewrite Hc in Hm. injection Hm as <-. unfold same4; cbn; repeat split.
Qed.

Lemma pres_getValueStack this prev : pres (eq this) (Build.getValueStack this prev).
Proof.
  unfold Build.getValueStack. pres_t.
Qed.

Lemma pres_detach this : pres (eq this) (Build.detach this).
Proof.
  unfold Build.detach. pres_t.
  - apply pres_getValueStack.
  - apply pres_nothing, pres_decrement_from.
Qed.

Lemma attach_frame this to w u w' :
  this <> to -> Build.attach this to w = ROk u w' ->
  frame (eq this) w w' /\
  forall m, w_menus w !! this = Some m ->
    exists m', w_menus w' !! this = Some m' /\ m_id m' = m_id m /\
      m_stack m' = m_stack m /\ m_parent m' = Some to /\ m_path m' = None.
Proof.
  intros Hne H. unfold Build.attach in H.
  apply bind_ROk in H as (tm & w1 & H1 & H). apply get_menu_inv in H1 as [-> Htm].
  apply bind_ROk in H as (u1 & w2 & H2 & H). apply upd_menu_inv in H2 as (m & Hm & ->).
  apply bind_ROk in H as (u2 & w3 & H3 & H). apply put_menu_inv in H3 as [L3 ->].
  match type of H with ?c _ = ROk _ _ => assert (P : pres nothing c) by pres_t end.
  apply P in H. clear P.
  assert (Lt : (this < length (w_menus w))%nat) by (eapply lookup_lt_Some; eauto).
  assert (F : frame (eq this) w
     (set_w_menus
        (set_w_menus w
           (<[this:=set_m_root (set_m_reg (set_m_path (set_m_parent m (Some to)) None) (m_reg tm)) (m_root tm)]>
              (w_menus w)))
        (<[to:=set_m_children tm (Some (match m_children tm with Some cs => cs | None => [] end ++ [this]))]>
           (w_menus
              (set_w_menus w
                 (<[this:=set_m_root (set_m_reg (set_m_path (set_m_parent m (Some to)) None) (m_reg tm)) (m_root tm)]>
                    (w_menus w))))))).
  { refine (conj _ (conj _ _)).
    - intros h Hx m0 Hm0. wsimpl. rewrite lookup_insert_list_cases.
      destruct (decide (to = h)) as [<-|Hne2].
      + rewrite decide_True by exact L3. eexists; split; [reflexivity|].
        rewrite Htm in Hm0. injection Hm0 as <-. unfold same4; cbn; repeat split.
      + rewrite list_lookup_insert_ne by exact Hx. exists m0. exact (conj Hm0 (same4_refl _)).
    - intros b0 bi Hb. exists bi. wsimpl. exact (conj Hb eq_refl).
    - wsimpl. rewrite !length_insert. lia. }
  split.
  - apply (frame_trans _ _ _ _ F). apply frame_nothing. exact H.
  - intros m0 Hm0. rewrite Hm in Hm0. injection Hm0 as <-.
    destruct H as (Mk & _ & _).
    destruct (Mk this (fun x => x)
      (set_m_root (set_m_reg (set_m_path (set_m_parent m (Some to)) None) (m_reg tm)) (m_root tm)))
      as (m' & Hm' & S).
    { wsimpl. rewrite list_lookup_insert_ne by exact (not_eq_sym Hne).
      apply list_lookup_insert_eq. exact Lt. }
    destruct S as (A & B & C & D). exists m'. cbn in A, B, C, D. auto.
Qed.

Lemma constructor_alloc text id parent w h w' :
  MenuBuilder.constructor text id parent w = ROk h w' ->
  h = length (w_menus w) /\
  exists m, w_menus w' !! h = Some m /\ m_id m = id /\ m_stack m = None /\ m_parent m = parent.
Proof.
  intros H. cbv [MenuBuilder.constructor] in H. peel2.
  all: wsimpl.
  all: peel2.
  all: try (apply throw_inv in H; contradiction).
  all: wsimpl.
  all: split; [reflexivity|].
  all: eexists; split; [rewrite lookup_app_r, Nat.sub_diag by lia; reflexivity|].
  all: cbn; auto.
Qed.

Lemma fromObject_alloc l id w h w' :
  l_id l = Some id -> Build.fromObject l w = ROk h w' ->
  h = length (w_menus w) /\
  exists m, w_menus w' !! h = Some m /\ m_id m = id /\ m_stack m = None.
Proof.
  intros Hid H. unfold Build.fromObject in H. rewrite Hid in H.
  apply bind_ROk in H as (h0 & w1 & H1 & H).
  apply constructor_alloc in H1 as (-> & m & Hm & A & B & _).
  apply bind_ROk in H as (u & w2 & H2 & H). apply ret_inv in H as [-> ->].
  split; [reflexivity|].
  match type of H2 with ?f _ _ = ROk _ _ => assert (P : forall bs, pres nothing (f bs)) end.
  { intros bs. induction bs as [|[bid label] rest IH]; pres_t.
    - apply pres_button.
    - apply pres_end.
    - exact IH. }
  destruct (proj1 (P _ _ _ _ H2) _ (fun x => x) m Hm) as (m' & Hm' & S).
  exists m'. destruct S as (S1 & S2 & _). rewrite S1, S2. auto.
Qed.

(** A rebuild by [dynamicMenuBuilder] creates a new menu node (a fresh
    handle) with the given id, makes it the button's [dynamicMenu] and
    attaches it under the given parent, with its path left to be
    recomputed from that parent and id.  The new node has no value stack
    of its own ([SYM_VALUE_STACK] unset), whatever the previous instance
    had. *)
Theorem dynamic_rebuild_replacement layout_fn button parent tok id values w nm w' bi :
  w_items w !! button = Some bi ->
  (forall old, b_dyn bi = Some old -> (old < length (w_menus w))%nat) ->
  (parent < length (w_menus w))%nat ->
  Dispatch.dynamicMenuBuilder layout_fn button parent tok id values w = ROk nm w' ->
  nm = length (w_menus w) /\
  (exists m, w_menus w' !! nm = Some m /\ m_id m = id /\ m_parent m = Some parent /\
     m_path m = None /\ m_stack m = None) /\
  (exists bi', w_items w' !! button = Some bi' /\ b_dyn bi' = Some nm).
Proof.
  intros Hb Hold Hp H. unfold Dispatch.dynamicMenuBuilder in H.
  apply bind_ROk in H as (st & w0 & H0 & H). apply get_stack_inv in H0 as [-> _].
  apply bind_ROk in H as (h & w1 & H1 & H).
  pose proof (pres_fromObject _ _ _ _ H1) as F1.
  apply (fromObject_alloc _ id) in H1 as (-> & m1 & Hm1 & Id1 & St1); [|reflexivity].
  apply bind_ROk in H as (u2 & w2 & H2 & H).
  assert (F2 : frame nothing w1 w2)
    by (eapply (pres_upd_menu nothing); [|exact H2]; intros; unfold same4; cbn; repeat split).
  apply bind_ROk in H as (u3 & w3 & H3 & H).
  assert (F3 : frame nothing w2 w3)
    by (eapply (pres_upd_menu nothing); [|exact H3]; intros; unfold same4; cbn; repeat split).
  pose proof (frame_trans _ _ _ _ F2 F3) as F23.
  apply bind_ROk in H as (u4 & w4 & H4 & H).
  apply bind_ROk in H as (u5 & w5 & H5 & H). apply ret_inv in H as [-> ->].
  unfold Dispatch.set_dynamicMenu in H4.
  apply bind_ROk in H4 as (bi3 & w3' & G1 & H4). apply get_item_inv in G1 as [-> Hb3].
  apply bind_ROk in H4 as (u6 & w6 & G2 & G3).
  destruct (proj1 (proj2 (frame_trans _ _ _ _ F1 F23)) button bi Hb) as (bi3' & Hb3' & Dyn3).
  rewrite Hb3 in Hb3'. injection Hb3' as <-.
  destruct (proj1 F23 (length (w_menus w)) (fun x => x) m1 Hm1) as (m3 & Hm3 & S3).
  assert (K6 : mkeep (length (w_menus w)) w3 w6).
  { destruct (b_dyn bi3) as [old|] eqn:Eo.
    - assert (Lo : (old < length (w_menus w))%nat) by (apply Hold; congruence).
      apply (proj1 (pres_detach _ _ _ _ G2)). lia.
    - apply ret_inv in G2 as [_ ->]. intros m Hm. exists m. exact (conj Hm (same4_refl _)). }
  destruct (K6 m3 Hm3) as (m6 & Hm6 & S6).
  apply upd_item_inv in G3 as (bi6 & Hb6 & ->).
  assert (Hne : length (w_menus w) <> parent) by lia.
  destruct (attach_frame _ _ _ _ _ Hne H5) as (Fa & Ma).
  destruct (Ma m6 Hm6) as (m' & Hm' & A & B & C & D).
  split; [reflexivity|]. split.
  - exists m'. destruct S3 as (S3a & S3b & _). destruct S6 as (S6a & S6b & _).
    refine (conj Hm' (conj _ (conj C (conj D _)))); congruence.
  - destruct (proj1 (proj2 Fa) button (set_b_dyn bi6 (Some (length (w_menus w)))))
      as (bi' & Hbi' & Dyn').
    + wsimpl. apply list_lookup_insert_eq. eapply lookup_lt_Some; eauto.
    + exists bi'. exact (conj Hbi' Dyn').
Qed.

(** A use of [dynamic_rebuild_replacement] on [dynamic_world]: rebuilding
    the dynamic menu of [next] gives menu 3, with id [n], parent [main]
    and no value stack. *)
Lemma dynamic_rebuild_replacement_witness :
  Dispatch.dynamicMenuBuilder Scenarios.dyn_layout 1 0 0 "n" 0 dynamic_world = ROk 3%nat rebuilt_world /\
  (3 = length (w_menus dynamic_world) /\
   (exists m, w_menus rebuilt_world !! 3%nat = Some m /\ m_id m = "n" /\ m_parent m = Some 0%nat /\
      m_path m = None /\ m_stack m = None) /\
   (exists bi', w_items rebuilt_world !! 1%nat = Some bi' /\ b_dyn bi' = Some 3%nat))%nat.
Proof.
  split; [vm_compute; reflexivity|].
  eapply (dynamic_rebuild_replacement Scenarios.dyn_layout 1 0 0 "n" 0 dynamic_world 3 rebuilt_world).
  - vm_compute. reflexivity.
  - intros old Ho. vm_compute in Ho. injection Ho as <-. vm_compute. lia.
  - vm_compute. lia.
  - vm_compute. reflexivity.
Defined.

(** C6 (code bug).  In [Scenarios.dynamic_tree] the value ['L'] of
    [chooseSize] is pushed on the value stack of [main] (stack 0).  The
    first instance of the dynamic menu (menu 1), made by the first-build
    path of the menu-function branch, shares that stack.  Its replacement,
    menu 2, made by the [dynamicMenuBuilder] closure on the first draw, has
    the same id [n], the parent [main] and the path [/main/n/], and is the
    button's [dynamicMenu]; but the closure never hands it a value stack,
    so its [_getValueStack()] is a fresh empty array without [chooseSize].
    Stack 0 held ['L'] after the first event; detaching menu 1 emptied its
    elements, and it is the [currentValues] array the closure keeps for
    later rebuilds; only its [chooseSize] property remains. *)
Lemma dynamic_rebuild_loses_values :
  (exists m0 m1 m2,
     w_menus dynamic_world !! 0%nat = Some m0 /\ w_menus dynamic_world !! 1%nat = Some m1 /\
     w_menus dynamic_world !! 2%nat = Some m2 /\
     m_stack m0 = Some 0%nat /\ m_stack m1 = Some 0%nat /\
     m_id m1 = "n" /\ m_id m2 = "n" /\ m_parent m2 = Some 0%nat /\ m_stack m2 = None /\
     m_dyn m2 = Some (DynRebuild 1 0 0 "n" 0)) /\
  (exists bi, w_items dynamic_world !! 1%nat = Some bi /\ b_id bi = "next" /\ b_dyn bi = Some 2%nat) /\
  MenuBuilder.path_w dynamic_world 2 = Some "/main/n/" /\
  (exists st, w_stacks dynamic_pushed_world !! 0%nat = Some st /\ s_elems st = [Some "L"]) /\
  (exists st, w_stacks dynamic_world !! 0%nat = Some st /\ s_elems st = [] /\
     s_props st !! "chooseSize" = Some (Some "L")) /\
  (exists s w', Build.getValueStack 2 None dynamic_world = ROk s w' /\
     w_stacks w' !! s = Some (mkStack [] ∅)).
Proof.
  refine (conj _ (conj _ (conj _ (conj _ (conj _ _))))).
  - do 3 eexists. vm_compute. repeat split.
  - eexists. vm_compute. repeat split.
  - vm_compute. reflexivity.
  - eexists. vm_compute. repeat split.
  - eexists. vm_compute. repeat split.
  - do 2 eexists. split; [vm_compute; reflexivity|]. vm_compute. reflexivity.
Qed.

(** ** Change flags of buttons and their menus *)

Lemma marks_refl h w : marks_together h w w.
Proof.
  intros b pm Hb Hpm. exists b, pm, 0. rewrite !Z.lor_0_r. auto.
Qed.

Lemma marks_trans h w1 w2 w3 :
  marks_together h w1 w2 -> marks_together h w2 w3 -> marks_together h w1 w3.
Proof.
  intros M1 M2 b pm Hb Hpm.
  destruct (M1 b pm Hb Hpm) as (b2 & pm2 & k1 & Hb2 & P2 & Hpm2 & F2 & G2).
  rewrite <- P2 in Hpm2.
  destruct (M2 b2 pm2 Hb2 Hpm2) as (b3 & pm3 & k2 & Hb3 & P3 & Hpm3 & F3 & G3).
  exists b3, pm3, (Z.lor k1 k2). rewrite P2 in Hpm3, P3.
  refine (conj Hb3 (conj P3 (conj Hpm3 _))).
  rewrite F3, G3, F2, G2, !Z.lor_assoc. auto.
Qed.

Lemma marks_put_item h b' w :
  (forall b, w_items w !! h = Some b -> b_flags b' = b_flags b /\ b_parent b' = b_parent b) ->
  (h < length (w_items w))%nat ->
  marks_together h w (set_w_items w (<[h := b']> (w_items w))).
Proof.
  intros F L b pm Hb Hpm. destruct (F b Hb) as [F1 F2]. exists b', pm, 0.
  wsimpl. rewrite list_lookup_insert_eq by exact L. rewrite !Z.lor_0_r. auto.
Qed.

Lemma marks_upd_menu h q f w u w' :
  (forall m, m_flags (f m) = m_flags m) -> upd_menu q f w = ROk u w' -> marks_together h w w'.
Proof.
  intros F H. apply upd_menu_inv in H as (m & Hm & ->). intros b pm Hb Hpm.
  exists b. wsimpl. rewrite lookup_insert_list_cases.
  destruct (decide (q = b_parent b)) as [Eq|Hne].
  - rewrite <- Eq in Hpm |- *.
    rewrite decide_True by (eapply lookup_lt_Some; eauto). exists (f m), 0.
    rewrite Hm in Hpm. injection Hpm as <-. rewrite F, !Z.lor_0_r. auto.
  - exists pm, 0. rewrite !Z.lor_0_r. auto.
Qed.

Lemma marks_markChange h c w u w' :
  MenuItemBuilder.markChange h c w = ROk u w' -> marks_together h w w'.
Proof.
  intros H b pm Hb Hpm. cbv [MenuItemBuilder.markChange MenuBuilder.markChange] in H. peel2.
  wsimpl. simplify_eq.
  eexists _, _, c. rewrite !list_lookup_insert_eq by (eapply lookup_lt_Some; eauto).
  cbn. auto.
Qed.

Lemma marks_set_text h t w u w' :
  MenuItemBuilder.set_text h t w = ROk u w' -> marks_together h w w'.
Proof.
  unfold MenuItemBuilder.set_text. intros H.
  destruct (negb (JS.truthy_s (JS.trim t))); [apply ret_inv in H as [_ ->]; apply marks_refl|].
  apply bind_ROk in H as (b & w1 & H1 & H). apply get_item_inv in H1 as [-> Hb].
  destruct (String.eqb (b_text b) (JS.trim t)); [apply ret_inv in H as [_ ->]; apply marks_refl|].
  apply bind_ROk in H as (u1 & w2 & H2 & H). apply put_item_inv in H2 as [L ->].
  eapply marks_trans; [|exact (marks_markChange _ _ _ _ _ H)].
  apply marks_put_item; [|exact L]. intros b0 Hb0. rewrite Hb in Hb0. injection Hb0 as <-. auto.
Qed.

Lemma marks_set_hide h x w u w' :
  MenuItemBuilder.set_hide h x w = ROk u w' -> marks_together h w w'.
Proof.
  unfold MenuItemBuilder.set_hide. intros H.
  apply bind_ROk in H as (b & w1 & H1 & H). apply get_item_inv in H1 as [-> Hb].
  destruct (Bool.eqb (b_hidden b) x); [apply ret_inv in H as [_ ->]; apply marks_refl|].
  apply bind_ROk in H as (u1 & w2 & H2 & H). apply put_item_inv in H2 as [L ->].
  eapply marks_trans; [|exact (marks_markChange _ _ _ _ _ H)].
  apply marks_put_item; [|exact L]. intros b0 Hb0. rewrite Hb in Hb0. injection Hb0 as <-. auto.
Qed.

Lemma marks_set_full h x w u w' :
  MenuItemBuilder.set_full h x w = ROk u w' -> marks_together h w w'.
Proof.
  unfold MenuItemBuilder.set_full. intros H.
  apply bind_ROk in H as (b & w1 & H1 & H). apply get_item_inv in H1 as [-> Hb].
  destruct (Bool.eqb (b_full b) x); [apply ret_inv in H as [_ ->]; apply marks_refl|].
  apply bind_ROk in H as (u1 & w2 & H2 & H). apply put_item_inv in H2 as [L ->].
  eapply marks_trans; [|exact (marks_markChange _ _ _ _ _ H)].
  apply marks_put_item; [|exact L]. intros b0 Hb0. rewrite Hb in Hb0. injection Hb0 as <-. auto.
Qed.

Lemma marks_setText h t w u w' :
  MenuItemBuilder.setText h t w = ROk u w' -> marks_together h w w'.
Proof.
  unfold MenuItemBuilder.setText. intros H.
  destruct (negb (JS.truthy_s (JS.trim t))); [apply ret_inv in H as [_ ->]; apply marks_refl|].
  apply bind_ROk in H as (b & w1 & H1 & H). apply get_item_inv in H1 as [-> Hb].
  destruct (String.eqb (b_text b) (JS.trim t)); [apply ret_inv in H as [_ ->]; apply marks_refl|].
  apply bind_ROk in H as (u1 & w2 & H2 & H).
  exact (marks_trans _ _ _ _ (marks_set_text _ _ _ _ _ H2) (marks_markChange _ _ _ _ _ H)).
Qed.

Lemma marks_setHide h p w u w' :
  MenuItemBuilder.setHide h p w = ROk u w' -> marks_together h w w'.
Proof.
  unfold MenuItemBuilder.setHide. intros H. destruct p as [x|f].
  - apply bind_ROk in H as (b & w1 & H1 & H). apply get_item_inv in H1 as [-> Hb].
    destruct (Bool.eqb (b_hidden b) x); [apply ret_inv in H as [_ ->]; apply marks_refl|].
    apply bind_ROk in H as (u1 & w2 & H2 & H).
    exact (marks_trans _ _ _ _ (marks_set_hide _ _ _ _ _ H2) (marks_markChange _ _ _ _ _ H)).
  - apply bind_ROk in H as (b & w1 & H1 & H). apply get_item_inv in H1 as [-> Hb].
    apply bind_ROk in H as (u1 & w2 & H2 & H). apply put_item_inv in H2 as [L ->].
    apply bind_ROk in H as (u3 & w3 & H3 & H).
    eapply marks_trans; [|eapply marks_trans; [exact (marks_upd_menu h _ _ _ _ _ (fun m => eq_refl : m_flags (set_m_pure m false) = m_flags m) H3)
                                             |exact (marks_markChange _ _ _ _ _ H)]].
    apply marks_put_item; [|exact L]. intros b0 Hb0. rewrite Hb in Hb0. injection Hb0 as <-. auto.
Qed.

Lemma marks_setFull h p w u w' :
  MenuItemBuilder.setFull h p w = ROk u w' -> marks_together h w w'.
Proof.
  unfold MenuItemBuilder.setFull. intros H. destruct p as [x|f].
  - apply bind_ROk in H as (b & w1 & H1 & H). apply get_item_inv in H1 as [-> Hb].
    destruct (Bool.eqb (b_full b) x); [apply ret_inv in H as [_ ->]; apply marks_refl|].
    apply bind_ROk in H as (u1 & w2 & H2 & H).
    exact (marks_trans _ _ _ _ (marks_set_full _ _ _ _ _ H2) (marks_markChange _ _ _ _ _ H)).
  - apply bind_ROk in H as (b & w1 & H1 & H). apply get_item_inv in H1 as [-> Hb].
    apply bind_ROk in H as (u1 & w2 & H2 & H). apply put_item_inv in H2 as [L ->].
    apply bind_ROk in H as (u3 & w3 & H3 & H).
    eapply marks_trans; [|eapply marks_trans; [exact (marks_upd_menu h _ _ _ _ _ (fun m => eq_refl : m_flags (set_m_pure m false) = m_flags m) H3)
                                             |exact (marks_markChange _ _ _ _ _ H)]].
    apply marks_put_item; [|exact L]. intros b0 Hb0. rewrite Hb in Hb0. injection Hb0 as <-. auto.
Qed.

(** C10 (amended).  Every mutation of a button ([text], [hide], [full],
    [setText], [setHide], [setFull]) that succeeds OR-es the same bits
    into the button's change flags and into the change flags of its
    parent menu ([b_parent]), and leaves the button's parent as it was. *)
Theorem button_change_marks_parent h w u w' :
  (forall t, MenuItemBuilder.set_text h t w = ROk u w' -> marks_together h w w') /\
  (forall x, MenuItemBuilder.set_hide h x w = ROk u w' -> marks_together h w w') /\
  (forall x, MenuItemBuilder.set_full h x w = ROk u w' -> marks_together h w w') /\
  (forall t, MenuItemBuilder.setText h t w = ROk u w' -> marks_together h w w') /\
  (forall p, MenuItemBuilder.setHide h p w = ROk u w' -> marks_together h w w') /\
  (forall p, MenuItemBuilder.setFull h p w = ROk u w' -> marks_together h w w').
Proof.
  refine (conj _ (conj _ (conj _ (conj _ (conj _ _))))); intros ?.
  - apply marks_set_text.
  - apply marks_set_hide.
  - apply marks_set_full.
  - apply marks_setText.
  - apply marks_setHide.
  - apply marks_setFull.
Qed.

(** A use of [button_change_marks_parent] on [nav_world]: renaming the
    button [a] of the root marks the button and the root together. *)
Lemma button_change_marks_parent_witness :
  marks_together 0 nav_world renamed_world.
Proof.
  apply (proj1 (button_change_marks_parent 0 nav_world tt renamed_world) "Z").
  vm_compute. reflexivity.
Defined.

(** C10 counterexample.  In [dynamic_world] the active menu is the first
    instance of the dynamic menu (menu 1): its first draw replaced its
    [buttons] by the dictionary of its replacement (menu 2), whose button
    [d1] (button 3) has menu 2 as parent.  Renaming [d1] sets the [Text]
    bit on the button and on menu 2, but menu 1, which lists the button,
    keeps the change flags [None] and its cached render, and its
    [toMenu()] returns that stale render. *)
Lemma shared_buttons_change_unmarked :
  exists w', MenuItemBuilder.set_text 3 "D2" dynamic_world = ROk tt w' /\
    w_activeK w' = Some 1%nat /\
    (exists m1, w_menus w' !! 1%nat = Some m1 /\ m_flags m1 = Change.None_ /\
       m_menu m1 = Some 1%nat /\ w_dicts w' !! m_buttons m1 = Some [("d1", 3%nat)]) /\
    (exists b, w_items w' !! 3%nat = Some b /\ b_flags b = Change.Text /\ b_parent b = 2%nat) /\
    Render.toMenu Scenarios.no_fn no_builder 1 false w' = ROk 1%nat w'.
Proof.
  eexists. split; [vm_compute; reflexivity|].
  vm_compute. refine (conj eq_refl (conj _ (conj _ eq_refl))); eexists; repeat split.
Qed.
Lemma append_cons (c : ascii) (a b : string) : String c a +:+ b = String c (a +:+ b).
Proof. reflexivity. Qed.

Lemma list_ascii_of_string_app (a b : string) :
  list_ascii_of_string (a +:+ b) = list_ascii_of_string a ++ list_ascii_of_string b.
Proof. induction a as [|c a IH]; [reflexivity|]. rewrite append_cons. cbn. rewrite IH. reflexivity. Qed.

Lemma string_of_list_ascii_app (l1 l2 : list ascii) :
  string_of_list_ascii (l1 ++ l2) = string_of_list_ascii l1 +:+ string_of_list_ascii l2.
Proof. induction l1 as [|c l IH]; [reflexivity|]. cbn. rewrite IH. reflexivity. Qed.

Lemma rev_string_app (a b : string) :
  JS.rev_string (a +:+ b) = JS.rev_string b +:+ JS.rev_string a.
Proof.
  unfold JS.rev_string. rewrite list_ascii_of_string_app, rev_app_distr.
  apply string_of_list_ascii_app.
Qed.

Lemma string_app_assoc (a b c : string) : (a +:+ b) +:+ c = a +:+ (b +:+ c).
Proof. induction a as [|x a IH]; [reflexivity|]. rewrite !append_cons, IH. reflexivity. Qed.

Lemma prefix_empty (s : string) : String.prefix EmptyString s = true.
Proof. destruct s; reflexivity. Qed.

Lemma prefix_slash_app (x y : string) :
  x <> EmptyString -> String.prefix JS.slash_s (x +:+ y) = String.prefix JS.slash_s x.
Proof.
  destruct x as [|c x]; [congruence|]. intros _. rewrite append_cons.
  unfold JS.slash_s. cbn -[ascii_dec]. destruct (ascii_dec JS.slash c); [|reflexivity].
  rewrite !prefix_empty. reflexivity.
Qed.

Lemma prefix_slash_cons (t : string) : String.prefix JS.slash_s (String JS.slash t) = true.
Proof. cbn. apply prefix_empty. Qed.

Lemma starts_with_slash_app (x : string) : JS.starts_with (JS.slash_s +:+ x) JS.slash_s = true.
Proof. apply prefix_slash_cons. Qed.

Lemma ends_with_app_slash (x : string) : JS.ends_with (x +:+ JS.slash_s) JS.slash_s = true.
Proof. unfold JS.ends_with. rewrite rev_string_app. apply prefix_slash_cons. Qed.

Lemma rev_string_nonempty (s : string) : s <> EmptyString -> JS.rev_string s <> EmptyString.
Proof.
  destruct s as [|c s]; [congruence|]. intros _.
  change (String c s) with (String c EmptyString +:+ s). rewrite rev_string_app.
  destruct (JS.rev_string s); discriminate.
Qed.

Lemma ends_with_slash_prepend (s : string) :
  s <> EmptyString -> JS.ends_with (JS.slash_s +:+ s) JS.slash_s = JS.ends_with s JS.slash_s.
Proof.
  intros Hs. unfold JS.ends_with. rewrite rev_string_app.
  apply prefix_slash_app, rev_string_nonempty, Hs.
Qed.

Lemma starts_with_slash_append (s : string) :
  s <> EmptyString -> JS.starts_with (s +:+ JS.slash_s) JS.slash_s = JS.starts_with s JS.slash_s.
Proof. intros Hs. apply prefix_slash_app, Hs. Qed.

Lemma starts_with_slash_inv (p : string) :
  JS.starts_with p JS.slash_s = true -> exists t, p = String JS.slash t.
Proof.
  destruct p as [|c t]; [discriminate|]. unfold JS.starts_with, JS.slash_s.
  cbn -[ascii_dec]. destruct (ascii_dec JS.slash c) as [E|]; [subst c; eauto|intros H; discriminate H].
Qed.

Lemma path_f_shaped ms fuel h p :
  forallb path_shaped_m ms = true -> MenuBuilder.path_f ms fuel h = Some p ->
  JS.starts_with p JS.slash_s = true /\ JS.ends_with p JS.slash_s = true.
Proof.
  intros Hs. revert h p. induction fuel as [|f IH]; intros h p H; [discriminate|].
  cbn in H. destruct (ms !! h) as [m|] eqn:Hm; [|discriminate].
  assert (Hm' : path_shaped_m m = true).
  { rewrite forallb_forall in Hs. apply Hs. apply list_elem_of_In. eapply list_elem_of_lookup_2. exact Hm. }
  assert (Hpar : match m_parent m with
            | None => Some (JS.slash_s +:+ m_id m +:+ JS.slash_s)
            | Some q => match MenuBuilder.path_f ms f q with
                        | Some pp => Some (pp +:+ m_id m +:+ JS.slash_s) | None => None end
            end = Some p ->
          JS.starts_with p JS.slash_s = true /\ JS.ends_with p JS.slash_s = true).
  { destruct (m_parent m) as [q|].
    - destruct (MenuBuilder.path_f ms f q) as [pp|] eqn:Hq; [|discriminate].
      intros [= <-]. destruct (IH q pp Hq) as [Sp _].
      destruct (starts_with_slash_inv _ Sp) as [t ->].
      rewrite <- string_app_assoc. split; [apply prefix_slash_cons|apply ends_with_app_slash].
    - intros [= <-]. rewrite <- string_app_assoc.
      split; [apply prefix_slash_cons|apply ends_with_app_slash]. }
  unfold path_shaped_m in Hm'.
  destruct (m_path m) as [p0|]; [|exact (Hpar H)].
  destruct (JS.truthy_s p0) eqn:T; [|exact (Hpar H)].
  injection H as <-. cbn in Hm'. apply andb_prop in Hm'. exact Hm'.
Qed.

Lemma getChildByPath_hit w this m reg r p n :
  w_menus w !! this = Some m -> m_reg m = Some reg -> w_regs w !! reg = Some r ->
  r_byPath r !! p = Some n ->
  JS.starts_with p JS.slash_s = true -> JS.ends_with p JS.slash_s = true ->
  MenuBuilder.getChildByPath this p w = ROk (Some n) w.
Proof.
  intros Hm Hreg Hr Hp S E. unfold MenuBuilder.getChildByPath.
  destruct (fuel_of w) eqn:F.
  { unfold fuel_of in F. apply lookup_lt_Some in Hm. lia. }
  cbn [MenuBuilder.getChildByPath_f]. rewrite S, E.
  unfold bind, get_menu. rewrite Hm. rewrite Hreg. cbn [deref ret].
  unfold get_reg. rewrite Hr. cbn beta iota. unfold JS.js_in. rewrite Hp. reflexivity.
Qed.

Lemma truthy_nonempty (s : string) : JS.truthy_s s = true -> s <> EmptyString.
Proof. destruct s; [discriminate|]. intros _. discriminate. Qed.

Lemma getChildByPath_normalize w this s :
  JS.truthy_s s = true -> JS.starts_with s JS.slash_s = false -> JS.ends_with s JS.slash_s = false ->
  let p := JS.slash_s +:+ s +:+ JS.slash_s in
  MenuBuilder.getChildByPath this s w = MenuBuilder.getChildByPath this p w /\
  MenuBuilder.getChildByPath this (JS.slash_s +:+ s) w = MenuBuilder.getChildByPath this p w /\
  MenuBuilder.getChildByPath this (s +:+ JS.slash_s) w = MenuBuilder.getChildByPath this p w.
Proof.
  intros T S E p. apply truthy_nonempty in T. subst p.
  unfold MenuBuilder.getChildByPath. destruct (fuel_of w) as [|f]; [auto|].
  cbn [MenuBuilder.getChildByPath_f].
  assert (P1 : JS.starts_with (JS.slash_s +:+ s +:+ JS.slash_s) JS.slash_s = true) by apply starts_with_slash_app.
  assert (P2 : JS.ends_with (JS.slash_s +:+ s +:+ JS.slash_s) JS.slash_s = true)
    by (rewrite <- string_app_assoc; apply ends_with_app_slash).
  rewrite P1, P2, S, starts_with_slash_app, (ends_with_slash_prepend _ T), E,
    (starts_with_slash_append _ T), S, string_app_assoc.
  assert (P3 : JS.ends_with (JS.slash_s +:+ s +:+ JS.slash_s) JS.slash_s = true) by exact P2.
  rewrite P3. auto.
Qed.

Lemma constructor_registers_path text id parent w h w' :
  paths_shaped w = true -> MenuBuilder.constructor text id parent w = ROk h w' ->
  exists m reg r p, w_menus w' !! h = Some m /\ m_reg m = Some reg /\ w_regs w' !! reg = Some r /\
    MenuBuilder.path_w w' h = Some p /\ r_byPath r !! p = Some h /\
    JS.starts_with p JS.slash_s = true /\ JS.ends_with p JS.slash_s = true.
Proof.
  intros Hs Hrun.
  cbv [MenuBuilder.constructor] in Hrun. peel2.
  all: wsimpl.
  all: peel2.
  all: try (apply throw_inv in Hrun; contradiction).
  all: wsimpl.
  all: unfold MenuBuilder.path_w, fuel_of in *; wsimpl.
  all: match goal with P : MenuBuilder.path_f ?ms _ _ = Some ?x |- _ =>
         assert (Sh : forallb path_shaped_m ms = true);
         [rewrite forallb_app, andb_true_iff; split; [exact Hs|];
          cbn; destruct (String.eqb id JS.slash_s); reflexivity|];
         destruct (path_f_shaped _ _ _ _ Sh P) as [S1 S2];
         eexists _, _, _, x end.
  all: refine (conj _ (conj _ (conj _ (conj _ (conj _ (conj S1 S2)))))).
  all: try (rewrite lookup_app_r, Nat.sub_diag by lia; reflexivity).
  all: try reflexivity.
  all: try exact P.
  all: try (rewrite list_lookup_insert_eq by (first [assumption | rewrite length_app; cbn; lia]); reflexivity).
  all: try exact (lookup_insert_eq _ _ _).
  all: congruence.
Qed.


(** C1 (amended).  Resolution by [getChildByPath] from any node of a
    tree: a path string that starts and ends with a slash and is a key of
    the tree's [_menuByPath] resolves to the node stored under it; a path
    missing its leading slash, its trailing slash or both resolves as the
    path with both slashes; and right after a node is constructed, its own
    path ([path] getter) is such a key, stored with the node itself, so it
    resolves to the node from every node of its tree. *)
Theorem getChildByPath_own_path :
  (forall w this m reg r p n,
     w_menus w !! this = Some m -> m_reg m = Some reg -> w_regs w !! reg = Some r ->
     r_byPath r !! p = Some n ->
     JS.starts_with p JS.slash_s = true -> JS.ends_with p JS.slash_s = true ->
     MenuBuilder.getChildByPath this p w = ROk (Some n) w) /\
  (forall w this s,
     JS.truthy_s s = true -> JS.starts_with s JS.slash_s = false ->
     JS.ends_with s JS.slash_s = false ->
     let p := JS.slash_s +:+ s +:+ JS.slash_s in
     MenuBuilder.getChildByPath this s w = MenuBuilder.getChildByPath this p w /\
     MenuBuilder.getChildByPath this (JS.slash_s +:+ s) w = MenuBuilder.getChildByPath this p w /\
     MenuBuilder.getChildByPath this (s +:+ JS.slash_s) w = MenuBuilder.getChildByPath this p w) /\
  (forall text id parent w h w',
     paths_shaped w = true -> MenuBuilder.constructor text id parent w = ROk h w' ->
     exists m reg p, w_menus w' !! h = Some m /\ m_reg m = Some reg /\
       MenuBuilder.path_w w' h = Some p /\
       forall this tm, w_menus w' !! this = Some tm -> m_reg tm = Some reg ->
         MenuBuilder.getChildByPath this p w' = ROk (Some h) w').
Proof.
  refine (conj getChildByPath_hit (conj getChildByPath_normalize _)).
  intros text id parent w h w' Hs Hrun.
  destruct (constructor_registers_path _ _ _ _ _ _ Hs Hrun)
    as (m & reg & r & p & Hm & Hreg & Hr & Hp & Hin & S & E).
  exists m, reg, p. refine (conj Hm (conj Hreg (conj Hp _))).
  intros this tm Htm Htreg. exact (getChildByPath_hit _ _ _ _ _ _ _ Htm Htreg Hr Hin S E).
Qed.

(** A use of [getChildByPath_own_path] on [nav_world] and
    [extended_world]: from the root, ["/root/a/"] resolves to [a] (menu 1),
    ["root/a"] resolves in the same way, and the path of the new menu 4
    resolves to it. *)
Lemma getChildByPath_own_path_witness :
  MenuBuilder.getChildByPath 0 "/root/a/" nav_world = ROk (Some 1%nat) nav_world /\
  MenuBuilder.getChildByPath 0 "root/a" nav_world =
    MenuBuilder.getChildByPath 0 "/root/a/" nav_world /\
  (exists m reg p, w_menus extended_world !! 4%nat = Some m /\ m_reg m = Some reg /\
     MenuBuilder.path_w extended_world 4 = Some p /\
     forall this tm, w_menus extended_world !! this = Some tm -> m_reg tm = Some reg ->
       MenuBuilder.getChildByPath this p extended_world = ROk (Some 4%nat) extended_world).
Proof.
  destruct getChildByPath_own_path as (A & B & C).
  refine (conj _ (conj _ _)).
  - eapply A; vm_compute; reflexivity.
  - exact (proj1 (B nav_world 0%nat "root/a" eq_refl eq_refl eq_refl)).
  - apply (C "X" "x" (Some 0%nat) nav_world); vm_compute; reflexivity.
Defined.

(** C1 counterexample.  In [slash_id_world] the menu of id ["b/c"]
    (menu 1) and the menu [c] under [b] (menu 3) have the same path
    ["/a/b/c/"]; the later registration wins in [_menuByPath], so
    resolving the path of menu 1, from the root or from menu 1 itself,
    gives menu 3. *)
Lemma slash_id_path_resolves_elsewhere :
  (exists a, Scenarios.slash_tree empty_world = ROk a slash_id_world) /\
  map m_id (w_menus slash_id_world) = ["a"; "b/c"; "b"; "c"] /\
  MenuBuilder.path_w slash_id_world 1 = Some "/a/b/c/" /\
  MenuBuilder.path_w slash_id_world 3 = Some "/a/b/c/" /\
  MenuBuilder.getChildByPath 0 "/a/b/c/" slash_id_world = ROk (Some 3%nat) slash_id_world /\
  MenuBuilder.getChildByPath 1 "/a/b/c/" slash_id_world = ROk (Some 3%nat) slash_id_world.
Proof.
  split; [eexists; vm_compute; reflexivity|].
  refine (conj _ (conj _ (conj _ (conj _ _)))); vm_compute; reflexivity.
Qed.

(* ================================================================== *)
(** * Further properties of the code *)

Lemma land_sub_iff (f x : Z) :
  Z.land f x = x <-> (forall i, 0 <= i -> Z.testbit x i = true -> Z.testbit f i = true).
Proof.
  split.
  - intros E i Hi T. rewrite <- E in T. rewrite Z.land_spec in T. apply andb_prop in T. apply T.
  - intros H. apply Z.bits_inj'. intros i Hi. rewrite Z.land_spec.
    destruct (Z.testbit x i) eqn:T; [rewrite (H i Hi T)|]; apply andb_true_r || apply andb_false_r.
Qed.

Lemma hasChange_lor m a b :
  Changes.hasChange m (Z.lor a b) = (Changes.hasChange m a && Changes.hasChange m b)%bool.
Proof.
  unfold Changes.hasChange.
  apply eq_true_iff_eq. rewrite andb_true_iff, !Z.eqb_eq, !land_sub_iff.
  split.
  - intros H. split; intros i Hi T; apply H; [exact Hi| |exact Hi|];
      rewrite Z.lor_spec, T; [reflexivity|apply orb_true_r].
  - intros [A B] i Hi T. rewrite Z.lor_spec in T. apply orb_true_iff in T as [T|T]; auto.
Qed.

Lemma hasChange_fold m cs acc :
  Changes.hasChange m (fold_left (fun left right => Z.lor left right) cs acc) =
  (Changes.hasChange m acc && forallb (Changes.hasChange m) cs)%bool.
Proof.
  revert acc. induction cs as [|c cs IH]; intros acc; cbn.
  - rewrite andb_true_r. reflexivity.
  - rewrite IH, hasChange_lor, andb_assoc. reflexivity.
Qed.

Lemma hasChange_none m : Changes.hasChange m Change.None_ = true.
Proof. unfold Changes.hasChange, Change.None_. rewrite Z.land_0_r. reflexivity. Qed.

(** [hasChanges(c1, ..., cn)] holds exactly when every [hasChange(ci)] holds. *)
Theorem hasChanges_all m cs :
  Changes.hasChanges m cs = forallb (Changes.hasChange m) cs.
Proof. unfold Changes.hasChanges. rewrite hasChange_fold, hasChange_none. reflexivity. Qed.

(** [hasChange(Change.None)] holds for every menu, with or without
    change: so [hasChanges()] with no argument holds, and [hasAnyChange]
    holds as soon as [Change.None] is among its arguments, even on a
    menu with [isChanged] false. *)
Theorem hasChange_None_always m cs :
  Changes.hasChange m Change.None_ = true /\ Changes.hasChanges m [] = true /\
  (In Change.None_ cs -> Changes.hasAnyChange m cs = true).
Proof.
  refine (conj (hasChange_none m) (conj (hasChange_none m) _)).
  induction cs as [|c cs IH]; [intros []|]. intros [Ec|H].
  - subst c. unfold Changes.hasAnyChange. pose proof (hasChange_none m) as E.
    unfold Changes.hasChange in E. rewrite E. reflexivity.
  - unfold Changes.hasAnyChange. destruct (Z.land (m_flags m) c =? c); [reflexivity|]. apply IH, H.
Qed.

Lemma hasChange_None_always_witness :
  exists m, w_menus nav_world !! 1%nat = Some m /\
    Changes.hasAnyChange m [Change.Text; Change.None_] = true.
Proof.
  eexists. split; [reflexivity|].
  apply (proj2 (proj2 (hasChange_None_always _ [Change.Text; Change.None_]))).
  right. left. reflexivity.
Defined.


(** [markChange(change)] of a menu: afterwards the menu has [change]
    and every change it had before, and it is changed when [change] is
    not [Change.None]. *)
Theorem markChange_adds h c w u w' :
  MenuBuilder.markChange h c w = ROk u w' ->
  exists m m', w_menus w !! h = Some m /\ w_menus w' !! h = Some m' /\
    Changes.hasChange m' c = true /\
    (forall c', Changes.hasChange m c' = true -> Changes.hasChange m' c' = true) /\
    (c <> Change.None_ -> Changes.isChanged m' = true).
Proof.
  intros H. cbv [MenuBuilder.markChange] in H. peel2. wsimpl. simplify_eq.
  eexists _, _. split; [eassumption|]. split.
  { rewrite list_lookup_insert_eq by (eapply lookup_lt_Some; eauto). reflexivity. }
  unfold Changes.hasChange, Changes.isChanged, set_m_flags. cbn [m_flags].
  refine (conj _ (conj _ _)).
  - apply Z.eqb_eq. apply land_sub_iff. intros i _ T. rewrite Z.lor_spec, T. apply orb_true_r.
  - intros c' Hc. apply Z.eqb_eq in Hc. apply Z.eqb_eq, land_sub_iff.
    intros i Hi T. rewrite Z.lor_spec. rewrite (proj1 (land_sub_iff _ _) Hc i Hi T). reflexivity.
  - intros Hc. apply negb_true_iff, Z.eqb_neq. intros E0. apply Z.lor_eq_0_iff in E0. unfold Change.None_ in Hc. lia.
Qed.

Lemma markChange_adds_witness :
  exists w', MenuBuilder.markChange 1 Change.Text nav_world = ROk tt w' /\
    exists m m', w_menus nav_world !! 1%nat = Some m /\ w_menus w' !! 1%nat = Some m' /\
      Changes.hasChange m' Change.Text = true /\
      (forall c', Changes.hasChange m c' = true -> Changes.hasChange m' c' = true) /\
      (Change.Text <> Change.None_ -> Changes.isChanged m' = true).
Proof.
  eexists. split; [vm_compute; reflexivity|].
  apply (markChange_adds 1 Change.Text nav_world tt). vm_compute. reflexivity.
Defined.

Lemma getChildWithIndex_f_sound fuel this index skip w r w' :
  MenuBuilder.getChildWithIndex_f fuel this index skip w = ROk r w' ->
  w' = w /\ (forall x, r = Some x ->
    in_tree w this x /\ exists m, w_menus w !! x = Some m /\ m_index m = index).
Proof.
  revert this skip r w'. induction fuel as [|f IH]; intros this skip r w' H; [discriminate|].
  cbn [MenuBuilder.getChildWithIndex_f] in H.
  apply bind_ROk in H as (m & w1 & H1 & H). apply get_menu_inv in H1 as [-> Hm].
  destruct (Z.eqb (m_index m) index) eqn:Ei.
  { apply ret_inv in H as [-> ->]. split; [reflexivity|]. intros x [= <-].
    split; [constructor|]. exists m. split; [exact Hm|]. apply Z.eqb_eq, Ei. }
  destruct (m_children m) as [cs0|] eqn:Ec.
  2: { apply ret_inv in H as [-> ->]. split; [reflexivity|]. discriminate. }
  assert (Sub : forall c, In c cs0 -> In c cs0) by auto.
  revert Sub r w' H. generalize cs0 at 1 3. intros cs. induction cs as [|c cs IHc]; intros Sub r w' H.
  { apply ret_inv in H as [-> ->]. split; [reflexivity|]. discriminate. }
  destruct (bool_decide (Some c = skip));
    [exact (IHc (fun c' Hc' => Sub c' (or_intror Hc')) _ _ H)|].
  apply bind_ROk in H as (r1 & w2 & H2 & H). apply IH in H2 as [-> S].
  destruct r1 as [x|].
  - apply ret_inv in H as [-> ->]. split; [reflexivity|]. intros y [= <-].
    destruct (S x eq_refl) as [T Ix]. split; [|exact Ix].
    exact (in_tree_child _ this m cs0 c x Hm Ec (Sub c (or_introl eq_refl)) T).
  - exact (IHc (fun c' Hc' => Sub c' (or_intror Hc')) _ _ H).
Qed.

(** [getChildWithIndex(index)] only reads the heap, and a node it returns
    is [this] or one of its descendants and has the index asked for. *)
Theorem getChildWithIndex_sound this index w r w' :
  MenuBuilder.getChildWithIndex this index w = ROk r w' ->
  w' = w /\ (forall x, r = Some x ->
    in_tree w this x /\ exists m, w_menus w !! x = Some m /\ m_index m = index).
Proof. apply getChildWithIndex_f_sound. Qed.

Lemma getChildWithIndex_sound_witness :
  MenuBuilder.getChildWithIndex 0 2 nav_world = ROk (Some 2%nat) nav_world /\
  in_tree nav_world 0 2 /\ exists m, w_menus nav_world !! 2%nat = Some m /\ m_index m = 2.
Proof.
  split; [vm_compute; reflexivity|].
  apply (proj2 (getChildWithIndex_sound 0 2 nav_world (Some 2%nat) nav_world
                  ltac:(vm_compute; reflexivity)) 2%nat eq_refl).
Defined.

Lemma string_length_app (a b : string) : String.length (a +:+ b) = (String.length a + String.length b)%nat.
Proof. induction a as [|c a IH]; [reflexivity|]. rewrite append_cons. cbn. rewrite IH. reflexivity. Qed.

Lemma substring_prefix (a b : string) : String.substring 0 (String.length a) (a +:+ b) = a.
Proof. induction a as [|c a IH]; [destruct b; reflexivity|]. rewrite append_cons. cbn. rewrite IH. reflexivity. Qed.

Lemma substring_full (b : string) : String.substring 0 (String.length b) b = b.
Proof. induction b as [|c b IH]; [reflexivity|]. cbn. rewrite IH. reflexivity. Qed.

Lemma substring_skip (a b : string) n :
  String.substring (String.length a) n (a +:+ b) = String.substring 0 n b.
Proof. induction a as [|c a IH]; [reflexivity|]. rewrite append_cons. cbn. exact IH. Qed.

Lemma slice_from_app (a b : string) : JS.slice_from (a +:+ b) (String.length a) = b.
Proof.
  unfold JS.slice_from. rewrite string_length_app, substring_skip.
  replace (String.length a + String.length b - String.length a)%nat with (String.length b) by lia.
  apply substring_full.
Qed.

Lemma last_slash_from_app (a b : string) i acc :
  MenuBuilder.last_slash_from (a +:+ b) i acc =
  MenuBuilder.last_slash_from b (i + Z.of_nat (String.length a)) (MenuBuilder.last_slash_from a i acc).
Proof.
  revert i acc. induction a as [|c a IH]; intros i acc.
  - cbn. rewrite Z.add_0_r. reflexivity.
  - rewrite append_cons. cbn [MenuBuilder.last_slash_from String.length]. rewrite IH.
    f_equal. lia.
Qed.

Lemma last_slash_from_none (b : string) i acc :
  (forall c, In c (list_ascii_of_string b) -> c <> JS.slash) ->
  MenuBuilder.last_slash_from b i acc = acc.
Proof.
  revert i acc. induction b as [|c b IH]; intros i acc Hb; [reflexivity|].
  cbn [MenuBuilder.last_slash_from]. rewrite IH by (intros d Hd; apply Hb; right; exact Hd).
  destruct (Ascii.eqb c JS.slash) eqn:E; [|reflexivity].
  apply Ascii.eqb_eq in E. exfalso. exact (Hb c (or_introl eq_refl) E).
Qed.

Lemma rev_string_involutive (s : string) : JS.rev_string (JS.rev_string s) = s.
Proof.
  unfold JS.rev_string. rewrite list_ascii_of_string_of_list_ascii, rev_involutive.
  apply string_of_list_ascii_of_string.
Qed.

Lemma ends_with_slash_inv (p : string) :
  JS.ends_with p JS.slash_s = true -> exists x, p = x +:+ JS.slash_s.
Proof.
  unfold JS.ends_with. intros H. apply starts_with_slash_inv in H as [t Ht].
  exists (JS.rev_string t).
  rewrite <- (rev_string_involutive p), Ht.
  change (String JS.slash t) with (JS.slash_s +:+ t). rewrite rev_string_app. reflexivity.
Qed.

(** [getMenuItemByPath(path + id)] for a key [path] of the tree's
    [_menuByPath] (a path starting and ending with a slash) and a button
    id with no slash: the button registered under that id in the
    [buttons] of the menu stored under [path], or [undefined] (for an id
    that is not a property name of [Object.prototype], where [buttons[id]]
    would find an inherited member). *)
Theorem getMenuItemByPath_path_id w this m reg r p h mh d k :
  w_menus w !! this = Some m -> m_reg m = Some reg -> w_regs w !! reg = Some r ->
  r_byPath r !! p = Some h ->
  JS.starts_with p JS.slash_s = true -> JS.ends_with p JS.slash_s = true ->
  w_menus w !! h = Some mh -> w_dicts w !! m_buttons mh = Some d ->
  (forall c, In c (list_ascii_of_string k) -> c <> JS.slash) -> k ∉ JS.object_proto_keys ->
  MenuBuilder.getMenuItemByPath this (p +:+ k) w = ROk (MenuBuilder.dict_get d k) w.
Proof.
  intros Hm Hreg Hr Hp S E Hmh Hd Hk _.
  destruct (ends_with_slash_inv _ E) as [x ->].
  assert (L : Z.to_nat (MenuBuilder.last_index_of_slash ((x +:+ JS.slash_s) +:+ k) + 1) =
              String.length (x +:+ JS.slash_s)).
  { unfold MenuBuilder.last_index_of_slash.
    rewrite last_slash_from_app, (last_slash_from_none k), last_slash_from_app by exact Hk.
    change (MenuBuilder.last_slash_from JS.slash_s ?i ?a) with i.
    rewrite string_length_app. cbn [String.length JS.slash_s]. lia. }
  unfold MenuBuilder.getMenuItemByPath. rewrite L, substring_prefix, slice_from_app.
  unfold bind. rewrite (getChildByPath_hit _ _ _ _ _ _ _ Hm Hreg Hr Hp S E).
  unfold get_menu. rewrite Hmh. unfold get_dict. rewrite Hd. reflexivity.
Qed.

Lemma getMenuItemByPath_path_id_witness :
  MenuBuilder.getMenuItemByPath 0 ("/root/" +:+ "a") nav_world = ROk (Some 0%nat) nav_world.
Proof.
  eapply eq_trans; [eapply (getMenuItemByPath_path_id nav_world 0 _ 0 _ "/root/" 0 _ _ "a")|];
    try (vm_compute; reflexivity).
  - intros c Hc. cbn in Hc. destruct Hc as [<-|[]]. discriminate.
  - intros Hin%list_elem_of_In; cbn in Hin; intuition discriminate.
Defined.

(** [registerMenu(menu)] followed by [getMenuById] and [deleteMenu], for
    a menu whose id is not a property name of [Object.prototype]: the menu
    is found under its id; deleting it returns [true], calls the delete
    hook with the id and leaves the id unregistered; a second delete
    returns [false] and changes nothing. *)
Theorem register_then_delete mb m w w1 :
  w_menus w !! mb = Some m -> m_id m ∉ JS.object_proto_keys ->
  Dispatch.registerMenu mb w = ROk tt w1 ->
  Build.getMenuById (m_id m) w1 = ROk (Some mb) w1 /\
  exists w2, Dispatch.deleteMenu mb w1 = ROk true w2 /\
    Build.getMenuById (m_id m) w2 = ROk None w2 /\
    w_log w2 = w_log w1 ++ [CHookMenuDelete (m_id m)] /\
    Dispatch.deleteMenu mb w2 = ROk false w2.
Proof.
  intros Hm Hk H. unfold Dispatch.registerMenu, bind, get_menu in H. rewrite Hm in H.
  injection H as <-.
  set (d := match w_menuMap w with Some d => d | None => ∅ end).
  unfold Build.getMenuById. cbn [w_menuMap set_w_menuMap]. rewrite lookup_insert_eq.
  split; [reflexivity|].
  set (w1 := set_w_menuMap w (Some (<[m_id m:=mb]> d))).
  exists (set_w_log (set_w_menuMap w1 (Some (delete (m_id m) (<[m_id m:=mb]> d))))
                    (w_log w1 ++ [CHookMenuDelete (m_id m)])).
  assert (H1 : w_menus w1 !! mb = Some m) by exact Hm.
  assert (H2 : w_menuMap w1 = Some (<[m_id m:=mb]> d)) by reflexivity.
  unfold Dispatch.deleteMenu, bind, get_menu, get, put, emit, ret.
  rewrite H1, H2. unfold JS.js_in. rewrite lookup_insert_eq. cbn [negb].
  split; [reflexivity|].
  cbn [w_menuMap set_w_log set_w_menuMap w_menus w_log].
  rewrite delete_insert_eq. split.
  - unfold Build.getMenuById. cbn [w_menuMap set_w_log set_w_menuMap].
    rewrite lookup_delete_eq.
    rewrite bool_decide_eq_false_2 by exact Hk. reflexivity.
  - split; [reflexivity|]. cbn [w_menus set_w_log set_w_menuMap]. rewrite H1.
    cbn [w_menuMap set_w_log set_w_menuMap]. rewrite lookup_delete_eq.
    rewrite bool_decide_eq_false_2 by exact Hk. reflexivity.
Qed.

Lemma register_then_delete_witness :
  exists w1, Dispatch.registerMenu 1 nav_world = ROk tt w1 /\
    Build.getMenuById "a" w1 = ROk (Some 1%nat) w1 /\
    exists w2, Dispatch.deleteMenu 1 w1 = ROk true w2 /\
      Build.getMenuById "a" w2 = ROk None w2 /\
      w_log w2 = w_log w1 ++ [CHookMenuDelete "a"] /\
      Dispatch.deleteMenu 1 w2 = ROk false w2.
Proof.
  eexists. split; [vm_compute; reflexivity|].
  refine (register_then_delete 1 _ nav_world _ eq_refl _ _); [|vm_compute; reflexivity].
  intros Hin%list_elem_of_In; cbn in Hin; intuition discriminate.
Defined.

(** [closeMenu(ctx, withText, justRemoveMarkup)] always ends by clearing
    the keeper's active menu and calling the close hook; before that it
    makes at most one transport call, and it makes none exactly when
    [withText] is empty, [justRemoveMarkup] is false and the update has no
    message. Nothing else in the state changes. *)
Ltac close_run :=
  unfold bind, emit, ret, Dispatch.clear_activeMenu;
  cbn [w_log set_w_log set_w_activeK]; rewrite ?app_nil_r, <- ?app_assoc; reflexivity.

Theorem closeMenu_effects ev t j w :
  (forall a, w_activeK w = Some a -> is_Some (w_menus w !! a)) ->
  exists c, Dispatch.closeMenu ev t j w =
              ROk tt (set_w_activeK (set_w_log w (w_log w ++ c ++ [CHookMenuClose])) None) /\
            (length c <= 1)%nat /\
            (c = [] <-> JS.truthy_s t = false /\ j = false /\ Dispatch.ev_message ev = false).
Proof.
  intros Ha.
  assert (Ht : exists ct, (match w_activeK w with
                | Some a => let! am := get_menu a in ret (Some (m_text am))
                | None => ret None end) w = ROk ct w).
  { destruct (w_activeK w) as [a|] eqn:E; [|eexists; reflexivity].
    destruct (Ha a eq_refl) as [am Hm]. exists (Some (m_text am)).
    unfold bind, get_menu, ret. rewrite Hm. reflexivity. }
  destruct Ht as [ct Ht].
  unfold Dispatch.closeMenu. rewrite (bind_ROk_intro get _ w w w) by reflexivity.
  cbv beta. rewrite (bind_ROk_intro _ _ w ct w Ht).
  destruct (JS.truthy_s t) eqn:Et; [destruct j|].
  - exists [CEditMarkupEmpty]. split; [close_run|]. split; [cbn; lia|].
    split; [discriminate|intros (?&?&?); discriminate].
  - destruct (bool_decide (Some (JS.trim t) = ct)).
    + exists [CEditMarkupEmpty]. split; [close_run|]. split; [cbn; lia|].
      split; [discriminate|intros (?&?&?); discriminate].
    + exists [CEditText (JS.trim t)]. split; [close_run|]. split; [cbn; lia|].
      split; [discriminate|intros (?&?&?); discriminate].
  - destruct j; cbn [negb].
    + exists [CEditMarkupEmpty]. split; [close_run|]. split; [cbn; lia|].
      split; [discriminate|intros (?&?&?); discriminate].
    + destruct (Dispatch.ev_message ev) eqn:Em.
      * exists [CDeleteMessage]. split; [close_run|]. split; [cbn; lia|].
        split; [discriminate|intros (?&?&?); discriminate].
      * exists []. split; [close_run|]. split; [cbn; lia|]. tauto.
Qed.

Lemma closeMenu_effects_witness :
  exists c, Dispatch.closeMenu (Dispatch.mkEvent None true) "" false nav_world =
      ROk tt (set_w_activeK (set_w_log nav_world (w_log nav_world ++ c ++ [CHookMenuClose])) None) /\
    (length c <= 1)%nat /\
    (c = [] <-> JS.truthy_s "" = false /\ false = false /\ true = false).
Proof.
  apply closeMenu_effects. intros a Ha. discriminate.
Defined.

(** [closeMenu(ctx, withText)] with a [withText] made only of white
    space: the string is truthy, so it is trimmed to [""] and, unless the
    active menu's text is [""], sent as the new message text. *)
Theorem closeMenu_blank_text ev t w :
  JS.truthy_s t = true -> JS.trim t = "" ->
  (forall a, w_activeK w = Some a -> exists am, w_menus w !! a = Some am /\ m_text am <> "") ->
  Dispatch.closeMenu ev t false w =
    ROk tt (set_w_activeK (set_w_log w (w_log w ++ [CEditText ""; CHookMenuClose])) None).
Proof.
  intros Et Etr Ha.
  unfold Dispatch.closeMenu. rewrite (bind_ROk_intro get _ w w w) by reflexivity.
  cbv beta. destruct (w_activeK w) as [a|] eqn:E.
  - destruct (Ha a eq_refl) as (am & Hm & Hne).
    rewrite (bind_ROk_intro _ _ w (Some (m_text am)) w)
      by (unfold bind, get_menu, ret; rewrite Hm; reflexivity).
    rewrite Et, Etr, bool_decide_eq_false_2 by congruence. close_run.
  - rewrite (bind_ROk_intro _ _ w None w) by reflexivity.
    rewrite Et, Etr, bool_decide_eq_false_2 by congruence. close_run.
Qed.

Lemma closeMenu_blank_text_witness :
  Dispatch.closeMenu (Dispatch.mkEvent None true) " " false nav_world =
    ROk tt (set_w_activeK (set_w_log nav_world (w_log nav_world ++ [CEditText ""; CHookMenuClose])) None).
Proof.
  apply closeMenu_blank_text; [reflexivity|reflexivity|intros a Ha; discriminate].
Defined.


(** [_getValueStack(previous)]: once a call has returned a stack, the
    stack is attached to the menu, and every later call returns that same
    stack, whatever [previous] it is given, without changing anything. *)
Theorem getValueStack_memo this p p' w s w1 :
  Build.getValueStack this p w = ROk s w1 ->
  Build.getValueStack this p' w1 = ROk s w1.
Proof.
  unfold Build.getValueStack. intros H. peel.
  destruct (m_stack x) as [s0|] eqn:Es.
  - apply ret_inv in H as [-> ->]. unfold bind at 1, get_menu. rewrite E, Es. reflexivity.
  - apply bind_ROk in H as (s1 & w2 & Hs & H).
    apply bind_ROk in H as (u & w3 & Hu & H). apply ret_inv in H as [-> ->].
    apply upd_menu_inv in Hu as (m' & Hm' & ->).
    unfold bind at 1, get_menu. cbn [w_menus set_w_menus].
    rewrite list_lookup_insert_eq by (eapply lookup_lt_Some; exact Hm').
    reflexivity.
Qed.

Lemma getValueStack_memo_witness :
  exists s w1, Build.getValueStack 1 None nav_world = ROk s w1 /\
    Build.getValueStack 1 (Some 7%nat) w1 = ROk s w1.
Proof.
  do 2 eexists. split; [vm_compute; reflexivity|].
  apply (getValueStack_memo 1 None (Some 7%nat) nav_world). vm_compute. reflexivity.
Defined.


(** The row loop of [toMenu]: with any user functions, the rows it
    produces (the last one pushed when not empty) are never empty, and
    they hold one entry per button of the menu: hidden buttons are laid
    out too, none is dropped. *)
Lemma layout_rows_inv run_fn bs items row w res w' :
  Render.layout_rows run_fn bs items row w = ROk res w' ->
  Forall (fun r => r <> []) items ->
  Forall (fun r => r <> []) (fst res) /\
  (length (concat (fst res)) + length (snd res) =
   length (concat items) + length row + length bs)%nat.
Proof.
  revert items row w. induction bs as [|[k bh] rest IH]; intros items row w H Hi; cbn [Render.layout_rows] in H.
  - apply ret_inv in H as [-> ->]. cbn [fst snd length]. split; [exact Hi | lia].
  - apply bind_ROk in H as (oh & w1 & _ & H).
    apply bind_ROk in H as (o & w2 & _ & H).
    destruct (io_full o).
    + apply IH in H as [H1 H2].
      * split; [exact H1|]. rewrite H2.
        destruct (Nat.eqb_spec (length row) 0) as [E|E].
        -- rewrite concat_app, length_app. cbn. rewrite E. lia.
        -- rewrite !concat_app, !length_app. cbn. rewrite !app_nil_r. lia.
      * apply Forall_app; split; [|repeat constructor; discriminate].
        destruct (Nat.eqb (length row) 0) eqn:E; [exact Hi|].
        apply Forall_app; split; [exact Hi|]. constructor; [|constructor].
        intros ->. discriminate.
    + apply IH in H as [H1 H2]; [|exact Hi]. split; [exact H1|].
      rewrite H2, length_app. cbn. lia.
Qed.

Theorem toMenu_rows_nonempty_complete run_fn bs w res w' :
  Render.layout_rows run_fn bs [] [] w = ROk res w' ->
  let items := if Nat.eqb (length (snd res)) 0 then fst res else fst res ++ [snd res] in
  Forall (fun r => r <> []) items /\ length (concat items) = length bs.
Proof.
  intros H. apply layout_rows_inv in H as [H1 H2]; [|constructor].
  cbn in H2. cbv zeta. destruct (Nat.eqb_spec (length (snd res)) 0) as [E|E].
  - split; [exact H1|]. lia.
  - split.
    + apply Forall_app; split; [exact H1|]. constructor; [|constructor].
      intros E'. rewrite E' in E. apply E. reflexivity.
    + rewrite concat_app, length_app. cbn. rewrite app_nil_r. lia.
Qed.

Lemma toMenu_rows_nonempty_complete_witness :
  exists res w', Render.layout_rows Scenarios.no_fn [("a", 0%nat); ("b", 1%nat); ("c", 2%nat)]
                   [] [] nav_world = ROk res w' /\
    let items := if Nat.eqb (length (snd res)) 0 then fst res else fst res ++ [snd res] in
    Forall (fun r => r <> []) items /\ length (concat items) = 3%nat.
Proof.
  destruct (Render.layout_rows Scenarios.no_fn [("a", 0%nat); ("b", 1%nat); ("c", 2%nat)]
              [] [] nav_world) as [res w'|e w'] eqn:L; [|vm_compute in L; discriminate L].
  exists res, w'. split; [reflexivity|].
  exact (toMenu_rows_nonempty_complete Scenarios.no_fn _ nav_world _ _ L).
Defined.

(** ** Detaching a menu *)

Lemma links_kept_refl w : links_kept w w.
Proof. intros h m H. exists m. auto. Qed.

Lemma links_kept_trans w1 w2 w3 : links_kept w1 w2 -> links_kept w2 w3 -> links_kept w1 w3.
Proof.
  intros A B h m H. destruct (A h m H) as (m2 & H2 & P1 & R1 & T1 & C1).
  destruct (B h m2 H2) as (m3 & H3 & P2 & R2 & T2 & C2).
  exists m3. split; [exact H3|]. repeat split; congruence.
Qed.

Lemma links_kept_upd_menu h f w u w' :
  (forall m, m_parent (f m) = m_parent m /\ m_reg (f m) = m_reg m /\
             m_root (f m) = m_root m /\ m_children (f m) = m_children m) ->
  upd_menu h f w = ROk u w' -> w_regs w' = w_regs w /\ links_kept w w'.
Proof.
  intros F H. apply upd_menu_inv in H as (m0 & Hm0 & ->). split; [reflexivity|].
  intros h' m Hm. cbn [w_menus set_w_menus]. rewrite lookup_insert_list_cases.
  destruct (decide (h = h')) as [<-|]; [|exists m; auto].
  rewrite decide_True by (eapply lookup_lt_Some; exact Hm0).
  rewrite Hm0 in Hm. injection Hm as <-. exists (f m0). split; [reflexivity|]. apply F.
Qed.

Lemma links_kept_set_w_stacks w x : links_kept w (set_w_stacks w x).
Proof. intros h m H. exists m. auto. Qed.

Lemma getValueStack_links this p w s w' :
  Build.getValueStack this p w = ROk s w' -> w_regs w' = w_regs w /\ links_kept w w'.
Proof.
  unfold Build.getValueStack. intros H. peel.
  destruct (m_stack x).
  - apply ret_inv in H as [_ ->]. split; [reflexivity|apply links_kept_refl].
  - apply bind_ROk in H as (s1 & w2 & Hs & H).
    apply bind_ROk in H as (u & w3 & Hu & H). apply ret_inv in H as [_ ->].
    assert (A : w_regs w2 = w_regs w /\ links_kept w w2).
    { destruct p; [apply ret_inv in Hs as [_ ->]; split; [reflexivity|apply links_kept_refl]|].
      apply alloc_stack_inv in Hs as [_ ->]. split; [reflexivity|apply links_kept_set_w_stacks]. }
    destruct A as [A1 A2].
    apply links_kept_upd_menu in Hu as [B1 B2]; [|intros m; cbn; auto].
    split; [congruence|exact (links_kept_trans _ _ _ A2 B2)].
Qed.

Lemma decrement_from_links cs t w u w' :
  Build.decrement_from cs t w = ROk u w' -> w_regs w' = w_regs w /\ links_kept w w'.
Proof.
  revert w. induction cs as [|c rest IH]; intros w H; cbn [Build.decrement_from] in H.
  - apply ret_inv in H as [_ ->]. split; [reflexivity|apply links_kept_refl].
  - peel. rename w1 into w2, H1 into H2.
    apply IH in H as [B1 B2].
    assert (A : w_regs w2 = w_regs w /\ links_kept w w2).
    { destruct (Z.ltb (m_index x) t).
      - apply ret_inv in H2 as [_ ->]. split; [reflexivity|apply links_kept_refl].
      - apply put_menu_inv in H2 as [L ->]. split; [reflexivity|].
        intros h' m Hm. cbn [w_menus set_w_menus]. rewrite lookup_insert_list_cases.
        destruct (decide (c = h')) as [<-|]; [|exists m; auto].
        rewrite decide_True by exact L. rewrite E in Hm. injection Hm as <-.
        eexists. split; [reflexivity|]. cbn. auto. }
    destruct A as [A1 A2]. split; [congruence|exact (links_kept_trans _ _ _ A2 B2)].
Qed.

(** [indexOf(x)] on a list: [-1] when [x] is absent, else an index of [x]. *)
Lemma list_index_of_0 l x :
  (Build.list_index_of l x 0 < 0 /\ x ∉ l) \/
  (0 <= Build.list_index_of l x 0 /\ l !! Z.to_nat (Build.list_index_of l x 0) = Some x).
Proof.
  unfold Build.list_index_of. cbn [Z.ltb Z.compare].
  match goal with |- context [?F l 0] => set (g := F) end.
  assert (G : forall l' k, 0 <= k -> (g l' k < 0 /\ x ∉ l') \/
            (exists j, g l' k = k + Z.of_nat j /\ l' !! j = Some x)).
  { induction l' as [|y r IH]; intros k Hk; subst g; cbn -[Z.geb].
    - left. split; [lia|apply not_elem_of_nil].
    - rewrite (proj2 (Z.geb_le k 0)) by lia. cbn [andb].
      destruct (Nat.eqb_spec x y) as [->|Hne].
      + right. exists 0%nat. split; [lia|reflexivity].
      + destruct (IH (k + 1) ltac:(lia)) as [[A B]|(j & A & B)].
        * left. split; [exact A|]. rewrite elem_of_cons. intros [?|?]; [congruence|tauto].
        * right. exists (S j). split; [lia|exact B]. }
  destruct (G l 0 ltac:(lia)) as [A|(j & A & B)]; [left; exact A|].
  right. rewrite A, Z.add_0_l. split; [lia|]. rewrite Nat2Z.id. exact B.
Qed.

Lemma remove_at_not_in (l : list nat) n x :
  count_occ Nat.eq_dec l x = 1%nat -> l !! n = Some x -> x ∉ take n l ++ drop (S n) l.
Proof.
  intros C Hn Hx. apply list_elem_of_In in Hx.
  rewrite <- (take_drop_middle l n x Hn) in C.
  rewrite count_occ_app, count_occ_cons_eq in C by reflexivity.
  assert (C0 : count_occ Nat.eq_dec (take n l ++ drop (S n) l) x = 0%nat)
    by (rewrite count_occ_app; lia).
  exact (proj2 (count_occ_not_In _ _ _) C0 Hx).
Qed.

Lemma upd_menu_lookup h f w u w' :
  upd_menu h f w = ROk u w' ->
  w_regs w' = w_regs w /\ exists m0, w_menus w !! h = Some m0 /\ w_menus w' !! h = Some (f m0) /\
    forall h', h' <> h -> w_menus w' !! h' = w_menus w !! h'.
Proof.
  intros H. apply upd_menu_inv in H as (m0 & Hm0 & ->). split; [reflexivity|].
  exists m0. cbn [w_menus set_w_menus]. split; [exact Hm0|]. split.
  - apply list_lookup_insert_eq. eapply lookup_lt_Some; exact Hm0.
  - intros h' Hne. apply list_lookup_insert_ne. congruence.
Qed.

(** [_detach()] on a registered menu: afterwards the menu has no parent,
    registry or root; its id and its path are gone from the registry it
    was in; and, when its parent's children list held it once, that list
    no longer holds it. *)
Theorem detach_unlinks this m reg r w w' :
  w_menus w !! this = Some m -> m_reg m = Some reg -> w_regs w !! reg = Some r ->
  Build.detach this w = ROk tt w' ->
  exists m' r',
    w_menus w' !! this = Some m' /\ m_parent m' = None /\ m_reg m' = None /\ m_root m' = None /\
    w_regs w' !! reg = Some r' /\ r_byId r' !! m_id m = None /\
    (forall p, MenuBuilder.path_w w this = Some p -> r_byPath r' !! p = None) /\
    (forall q qm cs, m_parent m = Some q -> q <> this -> w_menus w !! q = Some qm ->
       m_children qm = Some cs -> count_occ Nat.eq_dec cs this = 1%nat ->
       exists qm' cs', w_menus w' !! q = Some qm' /\ m_children qm' = Some cs' /\ this ∉ cs').
Proof.
  intros Hm Hreg Hr H. unfold Build.detach in H.
  apply bind_ROk in H as (m0 & w1 & H1 & H). apply get_menu_inv in H1 as [-> E0].
  rewrite Hm in E0. injection E0 as <-.
  apply bind_ROk in H as (reg0 & w1 & H1 & H). apply deref_inv in H1 as [E0 ->].
  rewrite Hreg in E0. injection E0 as <-.
  apply bind_ROk in H as (r0 & w1 & H1 & H). apply get_reg_inv in H1 as [-> E0].
  rewrite Hr in E0. injection E0 as <-.
  apply bind_ROk in H as (u & w2 & H2 & H). apply put_reg_inv in H2 as [L2 ->].
  apply bind_ROk in H as (p & w3 & H3 & H). apply path_inv in H3 as [-> P].
  change (MenuBuilder.path_w (set_w_regs w _) this) with (MenuBuilder.path_w w this) in P.
  apply bind_ROk in H as (r1 & w3 & H3 & H). apply get_reg_inv in H3 as [-> E1].
  cbn [w_regs set_w_regs] in E1. rewrite list_lookup_insert_eq in E1 by exact L2.
  injection E1 as <-.
  apply bind_ROk in H as (u3 & w3 & H3 & H). apply put_reg_inv in H3 as [L3 ->].
  apply bind_ROk in H as (r2 & w4 & H4 & H). apply get_reg_inv in H4 as [-> E2].
  cbn [w_regs set_w_regs] in E2. rewrite list_lookup_insert_eq in E2 by exact L3.
  injection E2 as <-. cbn [r_byId r_byIndex r_byPath] in *.
  apply bind_ROk in H as (u4 & w4 & H4 & H).
  set (w3 := set_w_regs _ _) in H4.
  assert (R4 : w_menus w4 = w_menus w /\ exists r3, w_regs w4 !! reg = Some r3 /\
                 r_byId r3 = delete (m_id m) (r_byId r) /\ r_byPath r3 = delete p (r_byPath r)).
  { assert (Lw3 : w_regs w3 !! reg = Some (mkRegistry (delete (m_id m) (r_byId r)) (r_byIndex r)
                              (delete p (r_byPath r)))).
    { subst w3. cbn [w_regs set_w_regs]. apply list_lookup_insert_eq. exact L3. }
    destruct (Z.geb _ 0).
    - apply put_reg_inv in H4 as [L4 ->]. split; [reflexivity|]. eexists.
      cbn [w_regs set_w_regs]. rewrite list_lookup_insert_eq by exact L4.
      refine (conj eq_refl (conj _ _)); reflexivity.
    - apply ret_inv in H4 as [_ ->]. split; [reflexivity|]. eexists. refine (conj Lw3 (conj _ _)); reflexivity. }
  clear H4. destruct R4 as (M4 & r3 & Hr3 & I3 & P3).
  apply bind_ROk in H as (s & w5 & H5 & H). apply getValueStack_links in H5 as [G1 G2].
  apply bind_ROk in H as (st & w6 & H6 & H). apply get_stack_inv in H6 as [-> _].
  apply bind_ROk in H as (u6 & w6 & H6 & H). apply put_stack_inv in H6 as [_ ->].
  apply bind_ROk in H as (u7 & w7 & H7 & H). apply upd_menu_lookup in H7 as (G7 & m6 & Hm6 & Hm7 & Ne7).
  cbn [w_regs w_menus set_w_stacks] in G7, Hm6, Ne7.
  assert (K : forall h mh, w_menus w !! h = Some mh -> exists mh', w_menus w5 !! h = Some mh' /\
                m_parent mh' = m_parent mh /\ m_reg mh' = m_reg mh /\ m_root mh' = m_root mh /\
                m_children mh' = m_children mh).
  { intros h mh Hh. apply G2. rewrite M4. exact Hh. }
  assert (Rw7 : w_regs w7 !! reg = Some r3) by (rewrite G7, G1; exact Hr3).
  destruct (K this m Hm) as (m5 & Hm5 & Pa5 & _).
  rewrite Hm5 in Hm6. injection Hm6 as <-.
  destruct (m_parent m) as [q|] eqn:Ep.
  - apply bind_ROk in H as (qm7 & w8 & H8 & H). apply get_menu_inv in H8 as [-> Eq7].
    apply bind_ROk in H as (sib & w8 & H8 & H). apply deref_inv in H8 as [Es ->].
    apply bind_ROk in H as (u8 & w8 & H8 & H). apply upd_menu_lookup in H8 as (G8 & m7 & Hm7' & Hm8 & Ne8).
    rewrite Hm7 in Hm7'. injection Hm7' as <-.
    set (m8 := set_m_parent (set_m_root (set_m_reg m5 None) None) None) in Hm8.
    assert (Sib : forall qm cs, q <> this -> w_menus w !! q = Some qm -> m_children qm = Some cs ->
                  sib = cs /\ w_menus w8 !! q = Some qm7).
    { intros qm cs Hne Hq Hc. destruct (K q qm Hq) as (qm5 & Hq5 & _ & _ & _ & C5).
      rewrite Ne7 in Eq7 by exact Hne. rewrite Hq5 in Eq7. injection Eq7 as <-.
      split; [congruence|]. rewrite Ne8 by exact Hne. rewrite Ne7 by exact Hne. exact Hq5. }
    destruct (Z.ltb_spec (Build.list_index_of sib this 0) 0) as [Hi|Hi].
    + apply ret_inv in H as [_ ->]. exists m8, r3.
      split; [exact Hm8|]. split; [reflexivity|]. split; [reflexivity|]. split; [reflexivity|].
      split; [rewrite G8, G7, G1; exact Hr3|].
      split; [rewrite I3; apply lookup_delete_eq|]. split.
      * intros p' Hp'. rewrite P in Hp'. injection Hp' as <-. rewrite P3. apply lookup_delete_eq.
      * intros q' qm cs Eq Hne Hq Hc _. try rewrite Ep in Eq. injection Eq as <-.
        destruct (Sib qm cs Hne Hq Hc) as [-> Hq8]. exists qm7, cs.
        split; [exact Hq8|]. split; [rewrite <- Es; reflexivity|].
        destruct (list_index_of_0 cs this) as [[_ A]|[A _]]; [exact A|lia].
    + apply bind_ROk in H as (u9 & w9 & H9 & H).
      apply upd_menu_lookup in H9 as (G9 & qm8 & Hq8 & Hq9 & Ne9).
      apply decrement_from_links in H as [G10 K10].
      set (sib' := take _ sib ++ drop _ sib) in Hq9.
      assert (T9 : exists mt, w_menus w9 !! this = Some mt /\ m_parent mt = None /\
                     m_reg mt = None /\ m_root mt = None).
      { destruct (decide (q = this)) as [->|Hne].
        - rewrite Hm8 in Hq8. injection Hq8 as <-. eexists. split; [exact Hq9|]. cbn. auto.
        - rewrite Ne9 by congruence. exists m8. split; [exact Hm8|]. cbn. auto. }
      destruct T9 as (mt & Ht & T1 & T2 & T3).
      destruct (K10 this mt Ht) as (m' & Hm' & A1 & A2 & A3 & _).
      exists m', r3. split; [exact Hm'|]. split; [congruence|]. split; [congruence|].
      split; [congruence|]. split; [rewrite G10, G9, G8, G7, G1; exact Hr3|].
      split; [rewrite I3; apply lookup_delete_eq|]. split.
      * intros p' Hp'. rewrite P in Hp'. injection Hp' as <-. rewrite P3. apply lookup_delete_eq.
      * intros q' qm cs Eq Hne Hq Hc D. try rewrite Ep in Eq. injection Eq as <-.
        destruct (Sib qm cs Hne Hq Hc) as [-> _].
        destruct (K10 q _ Hq9) as (qm' & Hq' & _ & _ & _ & C').
        exists qm', sib'. split; [exact Hq'|]. split; [exact C'|].
        destruct (list_index_of_0 cs this) as [[A _]|[_ A]]; [lia|].
        apply remove_at_not_in; assumption.
  - apply ret_inv in H as [_ ->]. exists (set_m_root (set_m_reg m5 None) None), r3.
    split; [exact Hm7|]. cbn. rewrite Pa5. split; [reflexivity|].
    split; [reflexivity|]. split; [reflexivity|]. split; [exact Rw7|].
    split; [rewrite I3; apply lookup_delete_eq|]. split.
    + intros p' Hp'. rewrite P in Hp'. injection Hp' as <-. rewrite P3. apply lookup_delete_eq.
    + intros q qm cs Eq. discriminate.
Qed.

Lemma detach_unlinks_witness :
  exists w' m r, Build.detach 1 nav_world = ROk tt w' /\
    w_menus nav_world !! 1%nat = Some m /\ w_regs nav_world !! 0%nat = Some r /\
    exists m' r',
      w_menus w' !! 1%nat = Some m' /\ m_parent m' = None /\ m_reg m' = None /\ m_root m' = None /\
      w_regs w' !! 0%nat = Some r' /\ r_byId r' !! m_id m = None /\
      (forall p, MenuBuilder.path_w nav_world 1 = Some p -> r_byPath r' !! p = None) /\
      (forall q qm cs, m_parent m = Some q -> q <> 1%nat -> w_menus nav_world !! q = Some qm ->
         m_children qm = Some cs -> count_occ Nat.eq_dec cs 1%nat = 1%nat ->
         exists qm' cs', w_menus w' !! q = Some qm' /\ m_children qm' = Some cs' /\ 1%nat ∉ cs').
Proof.
  let d := eval vm_compute in (Build.detach 1 nav_world) in
  let m := eval vm_compute in (w_menus nav_world !! 1%nat) in
  let r := eval vm_compute in (w_regs nav_world !! 0%nat) in
  match d with ROk _ ?w' => match m with Some ?m => match r with Some ?r =>
    assert (D : Build.detach 1 nav_world = ROk tt w') by (vm_compute; reflexivity);
    exists w', m, r; split; [exact D|]; split; [reflexivity|]; split; [reflexivity|];
    exact (detach_unlinks 1 m 0 r nav_world w' eq_refl eq_refl eq_refl D)
  end end end.
Defined.

(** ** Error messages a computation can throw *)


Lemma om_bind P {A B} (c : M A) (k : A -> M B) :
  only_msgs P c -> (forall a, only_msgs P (k a)) -> only_msgs P (bind c k).
Proof.
  intros Hc Hk w s w'. unfold bind. destruct (c w) as [a w1|e w1] eqn:E.
  - apply Hk.
  - destruct (Hc w s w') as [N|Ps]; [|right; exact Ps].
    left. intros Eq. injection Eq as -> ->. exact (N E).
Qed.

Lemma om_none P {A} (c : M A) : (forall w e w', c w = RErr e w' -> e = ErrType \/ e = ErrFuel) ->
  only_msgs P c.
Proof. intros H w s w'. left. intros E. destruct (H _ _ _ E); discriminate. Qed.

Ltac om_prim := apply om_none; intros ? ? ?;
  repeat match goal with
  | |- context [match ?x with _ => _ end] => destruct x
  | |- context [if ?x then _ else _] => destruct x
  end; cbn; intros E; inversion E; auto.

Lemma om_ret P {A} (a : A) : only_msgs P (ret a).
Proof. unfold ret. om_prim. Qed.
Lemma om_get P : only_msgs P get.
Proof. unfold get. om_prim. Qed.
Lemma om_deref P {A} (o : option A) : only_msgs P (deref o).
Proof. unfold deref, ret, throw. om_prim. Qed.
Lemma om_get_menu P h : only_msgs P (get_menu h).
Proof. unfold get_menu. om_prim. Qed.
Lemma om_put_menu P h m : only_msgs P (put_menu h m).
Proof. unfold put_menu. om_prim. Qed.
Lemma om_upd_menu P h f : only_msgs P (upd_menu h f).
Proof. unfold upd_menu. apply om_bind; [apply om_get_menu|intros; apply om_put_menu]. Qed.
Lemma om_get_item P h : only_msgs P (get_item h).
Proof. unfold get_item. om_prim. Qed.
Lemma om_put_item P h b : only_msgs P (put_item h b).
Proof. unfold put_item. om_prim. Qed.
Lemma om_upd_item P h f : only_msgs P (upd_item h f).
Proof. unfold upd_item. apply om_bind; [apply om_get_item|intros; apply om_put_item]. Qed.
Lemma om_get_reg P h : only_msgs P (get_reg h).
Proof. unfold get_reg. om_prim. Qed.
Lemma om_put_reg P h x : only_msgs P (put_reg h x).
Proof. unfold put_reg. om_prim. Qed.
Lemma om_get_dict P h : only_msgs P (get_dict h).
Proof. unfold get_dict. om_prim. Qed.
Lemma om_put_dict P h x : only_msgs P (put_dict h x).
Proof. unfold put_dict. om_prim. Qed.
Lemma om_alloc_menu P m : only_msgs P (alloc_menu m).
Proof. unfold alloc_menu. om_prim. Qed.
Lemma om_alloc_item P b : only_msgs P (alloc_item b).
Proof. unfold alloc_item. om_prim. Qed.
Lemma om_alloc_reg P : only_msgs P alloc_reg.
Proof. unfold alloc_reg. om_prim. Qed.
Lemma om_alloc_dict P : only_msgs P alloc_dict.
Proof. unfold alloc_dict. om_prim. Qed.
Lemma om_path P h : only_msgs P (MenuBuilder.path h).
Proof. unfold MenuBuilder.path. om_prim. Qed.
Lemma om_throw_fuel P {A} : only_msgs P (throw (A := A) ErrFuel).
Proof. unfold throw. om_prim. Qed.

Lemma om_weaken (P Q : string -> Prop) {A} (c : M A) :
  (forall s, P s -> Q s) -> only_msgs P c -> only_msgs Q c.
Proof. intros I H w s w'. destruct (H w s w'); [left|right; apply I]; assumption. Qed.

Lemma om_throw_msg (P : string -> Prop) {A} s : P s -> only_msgs P (throw (A := A) (ErrMsg s)).
Proof. intros Ps w s' w'. unfold throw. destruct (String.eqb_spec s s') as [<-|N]; [right; exact Ps|].
  left. intros E. injection E as E _. exact (N E). Qed.

Create HintDb only_msgs.
#[local] Hint Resolve om_ret om_get om_deref om_get_menu om_put_menu om_upd_menu om_get_item
  om_put_item om_upd_item om_get_reg om_put_reg om_get_dict om_put_dict om_alloc_menu
  om_alloc_item om_alloc_reg om_alloc_dict om_path om_throw_fuel : only_msgs.

Ltac om_t :=
  repeat first
    [ apply om_bind; [|intro]
    | solve [auto with only_msgs]
    | match goal with
      | |- only_msgs _ (match ?x with _ => _ end) => destruct x
      | |- only_msgs _ (if ?x then _ else _) => destruct x
      end ].

Lemma om_constructor text id parent :
  only_msgs (fun s => s = MenuBuilder.dup_id_message id) (MenuBuilder.constructor text id parent).
Proof. unfold MenuBuilder.constructor. om_t. apply om_throw_msg. reflexivity. Qed.

Lemma om_propagate_last P n t : only_msgs P (Build.propagate_last n t).
Proof. revert t. induction n as [|n IH]; intros t; cbn [Build.propagate_last]; om_t. Qed.

Lemma om_propagate_last_w P t : only_msgs P (fun w => Build.propagate_last (fuel_of w) t w).
Proof. intros w. apply om_propagate_last. Qed.

Lemma om_set_last_all P cs v : only_msgs P (Build.set_last_all cs v).
Proof. induction cs as [|c rest IH]; cbn [Build.set_last_all]; om_t. Qed.

Lemma om_item_markChange P h c : only_msgs P (MenuItemBuilder.markChange h c).
Proof. unfold MenuItemBuilder.markChange, MenuBuilder.markChange. om_t. Qed.

Lemma om_setFull P h x : only_msgs P (MenuItemBuilder.setFull h (PConst x)).
Proof.
  unfold MenuItemBuilder.setFull, MenuItemBuilder.set_full. om_t; apply om_item_markChange.
Qed.

Lemma om_setHide P h x : only_msgs P (MenuItemBuilder.setHide h (PConst x)).
Proof.
  unfold MenuItemBuilder.setHide, MenuItemBuilder.set_hide. om_t; apply om_item_markChange.
Qed.

#[local] Hint Resolve om_propagate_last_w om_set_last_all om_setFull om_setHide : only_msgs.

(** [menu(menuText, buttonText, menuId, buttonId, ...)]: the only
    [Error]s it throws are the empty menu text, the empty menu id, the
    empty button id and the duplicate menu id; it never throws "The text
    of the button text was empty", since that check tests the menu text
    again: a blank button text is accepted. *)
Theorem menu_error_messages this menuText buttonText id buttonId full hide w s w' :
  Build.menu this menuText buttonText id buttonId full hide w = RErr (ErrMsg s) w' ->
  (s = Build.text_empty_msg \/ s = Build.id_empty_msg \/ s = Build.button_id_empty_msg \/
   s = MenuBuilder.dup_id_message (JS.trim id)) /\ s <> Build.button_text_empty_msg.
Proof.
  intros H.
  assert (A : only_msgs (fun s => s = Build.text_empty_msg \/ s = Build.id_empty_msg \/
                  s = Build.button_id_empty_msg \/ s = MenuBuilder.dup_id_message (JS.trim id))
                (Build.menu this menuText buttonText id buttonId full hide)).
  { unfold Build.menu. destruct (JS.truthy_s (JS.trim menuText)) eqn:T; cbn [negb].
    - destruct (JS.truthy_s (JS.trim id)); cbn [negb]; [|apply om_throw_msg; tauto].
      destruct (JS.truthy_s (JS.trim buttonId)); cbn [negb]; [|apply om_throw_msg; tauto].
      apply om_bind; [eapply om_weaken; [|apply om_constructor]; intros ? ->; tauto|intros].
      unfold Build.button, MenuItemBuilder.constructor, MenuItemBuilder.setOnPress,
             MenuItemBuilder.end_.
      om_t.
    - apply om_throw_msg. tauto. }
  destruct (A w s w') as [N|Ps]; [contradiction|]. split; [exact Ps|].
  intros ->. unfold MenuBuilder.dup_id_message in Ps. rewrite !append_cons in Ps.
  unfold Build.text_empty_msg, Build.id_empty_msg, Build.button_id_empty_msg,
         Build.button_text_empty_msg in Ps.
  destruct Ps as [E|[E|[E|E]]]; discriminate.
Qed.

Lemma menu_error_messages_witness :
  Build.menu 0 "X" " " "a" "x" (PConst false) (PConst false) nav_world =
    RErr (ErrMsg (MenuBuilder.dup_id_message "a")) nav_world /\
  ((MenuBuilder.dup_id_message "a" = Build.text_empty_msg \/
    MenuBuilder.dup_id_message "a" = Build.id_empty_msg \/
    MenuBuilder.dup_id_message "a" = Build.button_id_empty_msg \/
    MenuBuilder.dup_id_message "a" = MenuBuilder.dup_id_message (JS.trim "a")) /\
   MenuBuilder.dup_id_message "a" <> Build.button_text_empty_msg).
Proof.
  split; [vm_compute; reflexivity|].
  apply (menu_error_messages 0 "X" " " "a" "x" (PConst false) (PConst false) nav_world _ nav_world).
  vm_compute. reflexivity.
Defined.

(** ** The [buttons] dictionary *)

Lemma dict_get_set_eq d k v : MenuBuilder.dict_get (MenuBuilder.dict_set d k v) k = Some v.
Proof.
  induction d as [|[k' v'] rest IH]; unfold MenuBuilder.dict_get in *; cbn.
  - rewrite String.eqb_refl. reflexivity.
  - destruct (String.eqb_spec k' k) as [->|N]; cbn; [rewrite String.eqb_refl; reflexivity|].
    rewrite (proj2 (String.eqb_neq k' k) N). exact IH.
Qed.

Lemma dict_get_set_ne d k v k' : k' <> k ->
  MenuBuilder.dict_get (MenuBuilder.dict_set d k v) k' = MenuBuilder.dict_get d k'.
Proof.
  intros N. induction d as [|[k0 v0] rest IH]; unfold MenuBuilder.dict_get in *; cbn.
  - rewrite (proj2 (String.eqb_neq k k') (not_eq_sym N)). reflexivity.
  - destruct (String.eqb_spec k0 k) as [->|N0]; cbn.
    + rewrite (proj2 (String.eqb_neq k k') (not_eq_sym N)). reflexivity.
    + destruct (String.eqb k0 k'); [reflexivity|exact IH].
Qed.

(** [end()]: afterwards the parent's [buttons] dictionary maps the
    button's id to the button, replacing any button registered there under
    the same id, and every other id keeps its entry (for an id other than
    ["__proto__"], whose assignment would set the prototype instead). *)
Theorem end_registers_button h b pm d w w' :
  w_items w !! h = Some b -> w_menus w !! b_parent b = Some pm ->
  w_dicts w !! m_buttons pm = Some d -> b_id b <> "__proto__" ->
  MenuItemBuilder.end_ h w = ROk tt w' ->
  exists d', w_dicts w' !! m_buttons pm = Some d' /\
    MenuBuilder.dict_get d' (b_id b) = Some h /\
    (forall k, k <> b_id b -> MenuBuilder.dict_get d' k = MenuBuilder.dict_get d k).
Proof.
  intros Hb Hp Hd _ H. unfold MenuItemBuilder.end_ in H. peel.
  rewrite Hb in E0. injection E0 as <-. rewrite Hp in E. injection E as <-.
  rewrite Hd in E1. injection E1 as <-.
  eexists. cbn [w_dicts set_w_dicts].
  rewrite list_lookup_insert_eq by exact L. split; [reflexivity|]. split.
  - apply dict_get_set_eq.
  - intros k N. apply dict_get_set_ne. exact N.
Qed.

Lemma end_registers_button_witness :
  exists b pm d w', w_items nav_world !! 0%nat = Some b /\ w_menus nav_world !! b_parent b = Some pm /\
    w_dicts nav_world !! m_buttons pm = Some d /\ MenuItemBuilder.end_ 0 nav_world = ROk tt w' /\
    exists d', w_dicts w' !! m_buttons pm = Some d' /\ MenuBuilder.dict_get d' (b_id b) = Some 0%nat /\
      (forall k, k <> b_id b -> MenuBuilder.dict_get d' k = MenuBuilder.dict_get d k).
Proof.
  do 4 eexists. split; [reflexivity|]. split; [reflexivity|]. split; [reflexivity|].
  split; [vm_compute; reflexivity|].
  apply (end_registers_button 0 _ _ _ nav_world); try reflexivity.
  discriminate.
Defined.

(** ** [String.prototype.trim] is idempotent *)

Lemma trim_start_head s :
  JS.trim_start s = EmptyString \/ exists c r, JS.trim_start s = String c r /\ JS.is_ws c = false.
Proof.
  induction s as [|c r IH]; cbn; [left; reflexivity|].
  destruct (JS.is_ws c) eqn:E; [exact IH|right; eauto].
Qed.

Lemma trim_start_fix c r : JS.is_ws c = false -> JS.trim_start (String c r) = String c r.
Proof. intros E. cbn. rewrite E. reflexivity. Qed.

Lemma trim_start_idem s : JS.trim_start (JS.trim_start s) = JS.trim_start s.
Proof.
  destruct (trim_start_head s) as [E|(c & r & E & Hc)]; rewrite E; [reflexivity|].
  apply trim_start_fix, Hc.
Qed.

Lemma append_empty_l (s : string) : EmptyString +:+ s = s.
Proof. reflexivity. Qed.

Lemma trim_start_keeps_last x c : JS.is_ws c = false ->
  exists y, JS.trim_start (x +:+ String c EmptyString) = y +:+ String c EmptyString.
Proof.
  intros Hc. induction x as [|a x IH].
  - exists EmptyString. rewrite !append_empty_l. cbn. rewrite Hc. reflexivity.
  - rewrite append_cons. cbn. destruct (JS.is_ws a); [exact IH|].
    exists (String a x). reflexivity.
Qed.

Lemma rev_string_cons c r : JS.rev_string (String c r) = JS.rev_string r +:+ String c EmptyString.
Proof. change (String c r) with (String c EmptyString +:+ r). apply rev_string_app. Qed.

Lemma rev_string_snoc y c : JS.rev_string (y +:+ String c EmptyString) = String c (JS.rev_string y).
Proof. rewrite rev_string_app. reflexivity. Qed.

Lemma trim_idem s : JS.trim (JS.trim s) = JS.trim s.
Proof.
  unfold JS.trim.
  destruct (trim_start_head s) as [Hu|(c & r & Hu & Hc)]; rewrite Hu; [reflexivity|].
  rewrite rev_string_cons.
  destruct (trim_start_keeps_last (JS.rev_string r) c Hc) as [y Hy].
  pose proof (trim_start_idem (JS.rev_string r +:+ String c EmptyString)) as I.
  rewrite Hy in *. rewrite rev_string_snoc, trim_start_fix by exact Hc.
  rewrite rev_string_cons, rev_string_involutive, I. apply rev_string_snoc.
Qed.

(** ** [setText] *)

Lemma set_w_items_same w : set_w_items w (w_items w) = w.
Proof. destruct w; reflexivity. Qed.

Lemma set_w_menus_same w : set_w_menus w (w_menus w) = w.
Proof. destruct w; reflexivity. Qed.

Lemma set_b_flags_same b : set_b_flags b (b_flags b) = b.
Proof. destruct b; reflexivity. Qed.

Lemma set_m_flags_same m : set_m_flags m (m_flags m) = m.
Proof. destruct m; reflexivity. Qed.

(** Marking a change the button and its parent menu already carry
    changes nothing. *)
Lemma item_markChange_noop h c b pm w :
  w_items w !! h = Some b -> Z.lor (b_flags b) c = b_flags b ->
  w_menus w !! b_parent b = Some pm -> Z.lor (m_flags pm) c = m_flags pm ->
  MenuItemBuilder.markChange h c w = ROk tt w.
Proof.
  intros Hb Fb Hp Fp. unfold MenuItemBuilder.markChange, MenuBuilder.markChange, upd_menu, bind.
  unfold get_item at 1. rewrite Hb. rewrite Fb, set_b_flags_same.
  unfold put_item. rewrite decide_True by (eapply lookup_lt_Some; exact Hb).
  rewrite list_insert_id by exact Hb. rewrite set_w_items_same.
  unfold get_menu. rewrite Hp, Fp, set_m_flags_same.
  unfold put_menu. rewrite decide_True by (eapply lookup_lt_Some; exact Hp).
  rewrite list_insert_id by exact Hp. rewrite set_w_menus_same. reflexivity.
Qed.

(** [setText(text)] has exactly the effect of the assignment
    [button.text = text]: the second [markChange(Change.Text)] it makes
    adds nothing, and trimming twice is trimming once. *)
Theorem setText_is_set_text h t w :
  MenuItemBuilder.setText h t w = MenuItemBuilder.set_text h t w.
Proof.
  unfold MenuItemBuilder.setText, MenuItemBuilder.set_text at 2.
  destruct (JS.truthy_s (JS.trim t)) eqn:T; cbn [negb]; [|reflexivity].
  destruct (w_items w !! h) as [b|] eqn:Hb; [|unfold bind, get_item; rewrite Hb; reflexivity].
  assert (G : get_item h w = ROk b w) by (unfold get_item; rewrite Hb; reflexivity).
  rewrite (bind_ROk_intro (get_item h) _ w b w G).
  rewrite (bind_ROk_intro (get_item h) _ w b w G).
  destruct (String.eqb (b_text b) (JS.trim t)) eqn:Et; [reflexivity|].
  assert (S : MenuItemBuilder.set_text h (JS.trim t) w =
              (put_item h (set_b_text b (JS.trim t)) ;;! MenuItemBuilder.markChange h Change.Text) w).
  { unfold MenuItemBuilder.set_text. rewrite trim_idem, T. cbn [negb].
    rewrite (bind_ROk_intro (get_item h) _ w b w G), Et. reflexivity. }
  rewrite <- S. unfold bind.
  destruct (MenuItemBuilder.set_text h (JS.trim t) w) as [u w1|e w1] eqn:Es; [|reflexivity].
  destruct u. symmetry in S. clear Es. rename S into Es.
  apply bind_ROk in Es as (u0 & w0 & E0 & Em). apply put_item_inv in E0 as [L ->].
  assert (H1 : w_items (set_w_items w (<[h:=set_b_text b (JS.trim t)]> (w_items w))) !! h =
               Some (set_b_text b (JS.trim t)))
    by (cbn [w_items set_w_items]; apply list_lookup_insert_eq; exact L).
  unfold MenuItemBuilder.markChange in Em.
  apply bind_ROk in Em as (b1 & w3 & E3 & Em). apply get_item_inv in E3 as [-> E3].
  rewrite H1 in E3. injection E3 as <-.
  apply bind_ROk in Em as (u & w4 & E4 & Em). apply put_item_inv in E4 as [L4 ->].
  unfold MenuBuilder.markChange in Em. apply upd_menu_inv in Em as (pm & Hpm & ->).
  eapply item_markChange_noop.
  - cbn [w_items set_w_menus set_w_items]. apply list_lookup_insert_eq. exact L4.
  - cbn. rewrite <- Z.lor_assoc, Z.lor_diag. reflexivity.
  - cbn [w_menus set_w_menus set_w_items]. apply list_lookup_insert_eq.
    eapply lookup_lt_Some. exact Hpm.
  - cbn. rewrite <- Z.lor_assoc, Z.lor_diag. reflexivity.
Qed.

(** [new MenuBuilder(text, id, parent)] with an id that names a property
    of [Object.prototype] (["constructor"], ["toString"], ...): [id in
    this._menuById] holds for every registry, even a fresh one, so the
    constructor always throws the duplicate-id error and registers no
    menu. *)
Theorem constructor_proto_id text id parent w :
  id ∈ JS.object_proto_keys ->
  (forall p, parent = Some p -> exists pm, w_menus w !! p = Some pm /\
     forall r, m_reg pm = Some r -> is_Some (w_regs w !! r)) ->
  exists w', MenuBuilder.constructor text id parent w =
             RErr (ErrMsg (MenuBuilder.dup_id_message id)) w' /\ w_menus w' = w_menus w.
Proof.
  intros Hk Hp. unfold MenuBuilder.constructor.
  assert (Hj : forall (g : gmap string nat), JS.js_in id g = true).
  { intros g. unfold JS.js_in. destruct (g !! id); [reflexivity|]. apply bool_decide_eq_true_2, Hk. }
  destruct parent as [p|].
  - destruct (Hp p eq_refl) as (pm & Hpm & Hr).
    rewrite (bind_ROk_intro _ _ w (m_reg pm, m_root pm) w)
      by (unfold bind, get_menu, ret; rewrite Hpm; reflexivity).
    cbn [fst snd]. destruct (m_reg pm) as [r|] eqn:Er.
    + destruct (Hr r eq_refl) as [x Hx].
      rewrite (bind_ROk_intro _ _ w r w) by reflexivity.
      rewrite (bind_ROk_intro _ _ w x w) by (unfold get_reg; rewrite Hx; reflexivity).
      rewrite Hj. eexists. split; reflexivity.
    + unfold bind at 1, alloc_reg. unfold bind at 1, get_reg. cbn [w_regs set_w_regs].
      rewrite lookup_app_r, Nat.sub_diag by lia. cbn. rewrite Hj. eexists. split; reflexivity.
  - rewrite (bind_ROk_intro _ _ w (None, None) w) by reflexivity. cbn [fst snd].
    unfold bind at 1, alloc_reg. unfold bind at 1, get_reg. cbn [w_regs set_w_regs].
    rewrite lookup_app_r, Nat.sub_diag by lia. cbn. rewrite Hj. eexists. split; reflexivity.
Qed.

Lemma constructor_proto_id_witness :
  exists w', MenuBuilder.constructor "T" "toString" None empty_world =
             RErr (ErrMsg (MenuBuilder.dup_id_message "toString")) w' /\ w_menus w' = w_menus empty_world.
Proof.
  apply constructor_proto_id; [|intros p Hp; discriminate].
  vm_compute. right. right. right. right. right. left.
Defined.

(** The string branch of a navigation button of [menu]: a target equal to
    the menu's own path or id is refused with the error "It is not possible
    to create navigation button for the same menu", before anything else. *)
Theorem navigate_string_self that tm p value w :
  w_menus w !! that = Some tm -> MenuBuilder.path_w w that = Some p ->
  value = p \/ value = m_id tm ->
  Build.navigate_string that value w = RErr (ErrMsg Build.self_nav_msg) w.
Proof.
  intros Hm Hp Hv. unfold Build.navigate_string, bind, get_menu, MenuBuilder.path.
  rewrite Hm, Hp.
  destruct Hv as [-> | ->]; rewrite String.eqb_refl; [|rewrite orb_true_r]; reflexivity.
Qed.

Lemma navigate_string_self_witness :
  Build.navigate_string 1 "a" nav_world = RErr (ErrMsg Build.self_nav_msg) nav_world.
Proof.
  refine (navigate_string_self 1 _ "/root/a/" "a" nav_world _ _ _).
  - reflexivity.
  - vm_compute. reflexivity.
  - right. reflexivity.
Defined.

(** The string branch of a navigation button of [menu]: a target that is
    neither the menu's path nor its id, does not start with "." and contains
    no "/" is tested with [value in that._menuById].  A registered id yields
    its menu; a property name every object inherits (such as [toString])
    yields that inherited member, on which [setMenuActive] throws a
    TypeError; any other target fails with
    Menu with id "<value>" is not found. *)
Theorem navigate_string_by_id that tm p reg r value w :
  w_menus w !! that = Some tm -> MenuBuilder.path_w w that = Some p ->
  value <> p -> value <> m_id tm ->
  JS.index_of value "." <> 0 -> JS.index_of value JS.slash_s < 0 ->
  m_reg tm = Some reg -> w_regs w !! reg = Some r ->
  Build.navigate_string that value w =
    match r_byId r !! value with
    | Some mh => ROk mh w
    | None =>
        if bool_decide (value ∈ JS.object_proto_keys) then RErr ErrType w
        else RErr (ErrMsg ("Menu with id " +:+ dq +:+ value +:+ dq +:+ " is not found")) w
    end.
Proof.
  intros Hm Hp Hnp Hnid Hdot Hsl Hreg Hr.
  unfold Build.navigate_string, bind, get_menu, MenuBuilder.path.
  rewrite Hm, Hp.
  apply String.eqb_neq in Hnp, Hnid. rewrite Hnp, Hnid. cbn [orb].
  apply Z.eqb_neq in Hdot. rewrite Hdot.
  replace (Z.geb (JS.index_of value JS.slash_s) 0) with false by (symmetry; rewrite Z.geb_leb; apply Z.leb_gt; lia).
  unfold deref, ret, get_reg. rewrite Hreg, Hr. unfold JS.js_in.
  destruct (r_byId r !! value); [reflexivity|].
  destruct (bool_decide _); reflexivity.
Qed.

Lemma navigate_string_by_id_witness :
  Build.navigate_string 1 "b" nav_world = ROk 2%nat nav_world /\
  Build.navigate_string 1 "toString" nav_world = RErr ErrType nav_world.
Proof.
  split.
  - eapply eq_trans.
    + refine (navigate_string_by_id 1 _ "/root/a/" 0 _ "b" nav_world _ _ _ _ _ _ _ _).
      * reflexivity.
      * vm_compute. reflexivity.
      * discriminate.
      * discriminate.
      * vm_compute. discriminate.
      * vm_compute. reflexivity.
      * reflexivity.
      * reflexivity.
    + vm_compute. reflexivity.
  - eapply eq_trans.
    + refine (navigate_string_by_id 1 _ "/root/a/" 0 _ "toString" nav_world _ _ _ _ _ _ _ _).
      * reflexivity.
      * vm_compute. reflexivity.
      * discriminate.
      * discriminate.
      * vm_compute. discriminate.
      * vm_compute. reflexivity.
      * reflexivity.
      * reflexivity.
    + vm_compute. reflexivity.
Defined.

Lemma path_f_agree ms ms' :
  (forall y, option_map (fun m => (m_id m, m_path m, m_parent m)) (ms !! y) =
             option_map (fun m => (m_id m, m_path m, m_parent m)) (ms' !! y)) ->
  forall fuel x, MenuBuilder.path_f ms fuel x = MenuBuilder.path_f ms' fuel x.
Proof.
  intros H fuel. induction fuel as [|f IH]; intros x; [reflexivity|]. cbn.
  specialize (H x). destruct (ms !! x) as [m|], (ms' !! x) as [m'|]; cbn in H;
    try discriminate H; [|reflexivity].
  injection H as E1 E2 E3. rewrite E1, E2, E3.
  destruct (m_path m') as [pp|]; [destruct (JS.truthy_s pp)|];
    destruct (m_parent m') as [q|]; rewrite ?IH; reflexivity.
Qed.

Lemma path_f_insert_same ms fuel h m m' x :
  ms !! h = Some m -> m_id m' = m_id m -> m_path m' = m_path m -> m_parent m' = m_parent m ->
  MenuBuilder.path_f (<[h := m']> ms) fuel x = MenuBuilder.path_f ms fuel x.
Proof.
  intros Hm E1 E2 E3. apply path_f_agree. intros y.
  destruct (decide (y = h)) as [->|Hne].
  - rewrite list_lookup_insert_eq by (eapply lookup_lt_Some; exact Hm). rewrite Hm. cbn.
    rewrite E1, E2, E3. reflexivity.
  - rewrite list_lookup_insert_ne by congruence. reflexivity.
Qed.

(** [_attach(to)] of a menu [this] under a different menu [to] sets
    [this]'s parent to [to], drops its cached path, shares [to]'s registry
    and root, takes the next index of the registry, appends [this] to [to]'s
    children and registers [this] by id, by index and by its new path. *)
Theorem attach_links this to m tm reg r w w' :
  this <> to -> w_menus w !! this = Some m -> w_menus w !! to = Some tm ->
  m_reg tm = Some reg -> w_regs w !! reg = Some r ->
  Build.attach this to w = ROk tt w' ->
  exists m' tm' r',
    w_menus w' !! this = Some m' /\ m_parent m' = Some to /\ m_path m' = None /\
    m_reg m' = Some reg /\ m_root m' = m_root tm /\
    m_index m' = Z.of_nat (length (r_byIndex r)) /\
    w_menus w' !! to = Some tm' /\
    m_children tm' = Some (match m_children tm with Some cs => cs | None => [] end ++ [this]) /\
    w_regs w' !! reg = Some r' /\ r_byId r' !! m_id m = Some this /\
    r_byIndex r' = r_byIndex r ++ [this] /\
    exists p, MenuBuilder.path_w w' this = Some p /\ r_byPath r' !! p = Some this.
Proof.
  intros Hne Hm Htm Hreg Hr H. unfold Build.attach in H. peel2.
  wsimpl. rewrite Hreg in *.
  assert (Hlt : (this < length (w_menus w))%nat) by (eapply lookup_lt_Some; exact Hm).
  assert (Hltr : (reg < length (w_regs w))%nat) by (eapply lookup_lt_Some; exact Hr).
  set (m1 := set_m_root (set_m_reg (set_m_path (set_m_parent m (Some to)) None) (Some reg)) (m_root tm)) in *.
  set (cs := match m_children tm with Some cs => cs | None => [] end ++ [this]) in *.
  assert (Em1 : <[to:=set_m_children tm (Some cs)]> (<[this:=m1]> (w_menus w)) !! this = Some m1)
    by (rewrite list_lookup_insert_ne by congruence; apply list_lookup_insert_eq; exact Hlt).
  rewrite Em1 in E, E4. injection E as <-. injection E4 as <-.
  rewrite Hr in E3. injection E3 as <-.
  rewrite list_lookup_insert_eq in E2 by exact Hltr. injection E2 as <-.
  rewrite list_lookup_insert_eq in E1 by (rewrite length_insert; exact Hltr). injection E1 as <-.
  cbn [r_byId r_byIndex r_byPath] in *.
  exists (set_m_index m1 (Z.of_nat (length (r_byIndex r)))), (set_m_children tm (Some cs)),
    {| r_byId := <[m_id m:=this]> (r_byId r); r_byIndex := r_byIndex r ++ [this];
       r_byPath := <[x6:=this]> (r_byPath r) |}.
  split_and!; try reflexivity.
  - apply list_lookup_insert_eq. rewrite !length_insert. exact Hlt.
  - rewrite list_lookup_insert_ne by congruence. apply list_lookup_insert_eq.
    rewrite !length_insert. eapply lookup_lt_Some; exact Htm.
  - apply list_lookup_insert_eq. rewrite !length_insert. exact Hltr.
  - apply lookup_insert_eq.
  - exists x6. split; [|apply lookup_insert_eq].
    unfold MenuBuilder.path_w, fuel_of in *. cbn [w_menus set_w_menus set_w_regs] in *.
    rewrite length_insert. rewrite (path_f_insert_same _ _ _ m1); [exact P|exact Em1|reflexivity..].
Qed.

Lemma attach_links_witness :
  exists w' m tm r, Build.attach 3 1 nav_world = ROk tt w' /\
    w_menus nav_world !! 3%nat = Some m /\ w_menus nav_world !! 1%nat = Some tm /\
    w_regs nav_world !! 0%nat = Some r /\
    exists m' tm' r',
      w_menus w' !! 3%nat = Some m' /\ m_parent m' = Some 1%nat /\ m_path m' = None /\
      m_reg m' = Some 0%nat /\ m_root m' = m_root tm /\
      m_index m' = Z.of_nat (length (r_byIndex r)) /\
      w_menus w' !! 1%nat = Some tm' /\
      m_children tm' = Some (match m_children tm with Some cs => cs | None => [] end ++ [3%nat]) /\
      w_regs w' !! 0%nat = Some r' /\ r_byId r' !! m_id m = Some 3%nat /\
      r_byIndex r' = r_byIndex r ++ [3%nat] /\
      exists p, MenuBuilder.path_w w' 3 = Some p /\ r_byPath r' !! p = Some 3%nat.
Proof.
  let d := eval vm_compute in (Build.attach 3 1 nav_world) in
  let m := eval vm_compute in (w_menus nav_world !! 3%nat) in
  let tm := eval vm_compute in (w_menus nav_world !! 1%nat) in
  let r := eval vm_compute in (w_regs nav_world !! 0%nat) in
  match d with ROk _ ?w' => match m with Some ?m => match tm with Some ?tm => match r with Some ?r =>
    assert (D : Build.attach 3 1 nav_world = ROk tt w') by (vm_compute; reflexivity);
    exists w', m, tm, r; split; [exact D|]; split; [reflexivity|]; split; [reflexivity|];
    split; [reflexivity|];
    exact (attach_links 3 1 m tm 0 r nav_world w' ltac:(discriminate) eq_refl eq_refl eq_refl eq_refl D)
  end end end end.
Defined.

Lemma item_markChange_idem h c w w1 :
  MenuItemBuilder.markChange h c w = ROk tt w1 -> MenuItemBuilder.markChange h c w1 = ROk tt w1.
Proof.
  intros H. unfold MenuItemBuilder.markChange in H.
  apply bind_ROk in H as (b & w0 & E0 & H). apply get_item_inv in E0 as [-> Hb].
  apply bind_ROk in H as (u & w2 & E2 & H). apply put_item_inv in E2 as [L ->].
  unfold MenuBuilder.markChange in H. apply upd_menu_inv in H as (pm & Hpm & ->).
  cbn [w_menus set_w_items] in Hpm.
  eapply item_markChange_noop.
  - cbn [w_items set_w_menus set_w_items]. apply list_lookup_insert_eq. exact L.
  - cbn. rewrite <- Z.lor_assoc, Z.lor_diag. reflexivity.
  - cbn [w_menus set_w_menus set_w_items b_parent set_b_flags]. apply list_lookup_insert_eq.
    eapply lookup_lt_Some. exact Hpm.
  - cbn. rewrite <- Z.lor_assoc, Z.lor_diag. reflexivity.
Qed.

Lemma then_item_markChange_idem (c : M unit) h ch w :
  (forall w1, c w = ROk tt w1 -> exists w0, MenuItemBuilder.markChange h ch w0 = ROk tt w1) ->
  (c ;;! MenuItemBuilder.markChange h ch) w = c w.
Proof.
  intros H. unfold bind at 1. destruct (c w) as [[] w1|e w1] eqn:E; [|reflexivity].
  destruct (H w1 eq_refl) as [w0 H0]. exact (item_markChange_idem _ _ _ _ H0).
Qed.

(** [setHide] and [setFull] with a constant boolean are exactly the
    [hide] and [full] setters. *)
Theorem setHide_setFull_const h v w :
  MenuItemBuilder.setHide h (PConst v) w = MenuItemBuilder.set_hide h v w /\
  MenuItemBuilder.setFull h (PConst v) w = MenuItemBuilder.set_full h v w.
Proof.
  destruct (w_items w !! h) as [b|] eqn:Hb;
    [|split; unfold MenuItemBuilder.setHide, MenuItemBuilder.set_hide, MenuItemBuilder.setFull,
        MenuItemBuilder.set_full, bind, get_item; rewrite Hb; reflexivity].
  assert (G : get_item h w = ROk b w) by (unfold get_item; rewrite Hb; reflexivity).
  split.
  - unfold MenuItemBuilder.setHide.
    rewrite (bind_ROk_intro (get_item h) _ w b w G).
    destruct (Bool.eqb (b_hidden b) v) eqn:Ev.
    + unfold MenuItemBuilder.set_hide. rewrite (bind_ROk_intro (get_item h) _ w b w G), Ev.
      reflexivity.
    + assert (S : MenuItemBuilder.set_hide h v w =
                  (put_item h (set_b_hidden b v) ;;! MenuItemBuilder.markChange h Change.Visibility) w)
        by (unfold MenuItemBuilder.set_hide; rewrite (bind_ROk_intro (get_item h) _ w b w G), Ev; reflexivity).
      apply then_item_markChange_idem. intros w1 H. rewrite S in H.
      apply bind_ROk in H as (u & w0 & _ & H). exists w0. exact H.
  - unfold MenuItemBuilder.setFull.
    rewrite (bind_ROk_intro (get_item h) _ w b w G).
    destruct (Bool.eqb (b_full b) v) eqn:Ev.
    + unfold MenuItemBuilder.set_full. rewrite (bind_ROk_intro (get_item h) _ w b w G), Ev.
      reflexivity.
    + assert (S : MenuItemBuilder.set_full h v w =
                  (put_item h (set_b_full b v) ;;! MenuItemBuilder.markChange h Change.Layout) w)
        by (unfold MenuItemBuilder.set_full; rewrite (bind_ROk_intro (get_item h) _ w b w G), Ev; reflexivity).
      apply then_item_markChange_idem. intros w1 H. rewrite S in H.
      apply bind_ROk in H as (u & w0 & _ & H). exists w0. exact H.
Qed.

(** The [text] setter of a menu with a non-blank new text different from
    the current one stores the trimmed text and marks [Change.Text]. *)
Theorem menu_set_text_stores h to m w :
  w_menus w !! h = Some m -> JS.truthy_s (JS.trim to) = true -> m_text m <> JS.trim to ->
  MenuBuilder.set_text h to w =
    ROk tt (set_w_menus w (<[h := set_m_flags (set_m_text m (JS.trim to))
                                  (Z.lor (m_flags m) Change.Text)]> (w_menus w))).
Proof.
  intros Hm T Hne. unfold MenuBuilder.set_text. rewrite T. cbn [negb].
  unfold bind at 1, get_menu at 1. rewrite Hm. apply String.eqb_neq in Hne. rewrite Hne.
  assert (L : (h < length (w_menus w))%nat) by (eapply lookup_lt_Some; exact Hm).
  unfold bind, put_menu. rewrite decide_True by exact L.
  unfold MenuBuilder.markChange, upd_menu, bind, get_menu. cbn [w_menus set_w_menus].
  rewrite list_lookup_insert_eq by exact L. unfold put_menu. cbn [w_menus set_w_menus].
  rewrite decide_True by (rewrite length_insert; exact L).
  rewrite list_insert_insert_eq. destruct w; reflexivity.
Qed.

Lemma menu_set_text_stores_witness :
  exists m, w_menus nav_world !! 1%nat = Some m /\
    MenuBuilder.set_text 1 " New " nav_world =
      ROk tt (set_w_menus nav_world (<[1%nat := set_m_flags (set_m_text m "New")
                                       (Z.lor (m_flags m) Change.Text)]> (w_menus nav_world))).
Proof.
  let m := eval vm_compute in (w_menus nav_world !! 1%nat) in
  match m with Some ?m =>
    exists m; split; [reflexivity|];
    exact (menu_set_text_stores 1 " New " m nav_world eq_refl eq_refl ltac:(discriminate))
  end.
Defined.

(** ** The [callback_query] listener *)

Lemma ka_bind {A B} (c : M A) (k : A -> M B) :
  keeps_active c -> (forall a, keeps_active (k a)) -> keeps_active (bind c k).
Proof.
  intros Hc Hk w. specialize (Hc w). unfold bind.
  destruct (c w) as [a w1|e w1]; [|exact Hc].
  specialize (Hk a w1). destruct (k a w1); congruence.
Qed.

Lemma ka_ret {A} (a : A) : keeps_active (ret a).
Proof. intros w. reflexivity. Qed.
Lemma ka_throw {A} e : keeps_active (@throw A e).
Proof. intros w. reflexivity. Qed.
Lemma ka_get : keeps_active get.
Proof. intros w. reflexivity. Qed.
Lemma ka_get_menu h : keeps_active (get_menu h).
Proof. intros w. unfold get_menu. destruct (w_menus w !! h); reflexivity. Qed.
Lemma ka_get_item h : keeps_active (get_item h).
Proof. intros w. unfold get_item. destruct (w_items w !! h); reflexivity. Qed.
Lemma ka_get_reg r : keeps_active (get_reg r).
Proof. intros w. unfold get_reg. destruct (w_regs w !! r); reflexivity. Qed.
Lemma ka_get_dict d : keeps_active (get_dict d).
Proof. intros w. unfold get_dict. destruct (w_dicts w !! d); reflexivity. Qed.
Lemma ka_deref {A} (o : option A) : keeps_active (deref o).
Proof. intros w. destruct o; reflexivity. Qed.
Lemma ka_path h : keeps_active (MenuBuilder.path h).
Proof. intros w. unfold MenuBuilder.path. destruct (MenuBuilder.path_w w h); reflexivity. Qed.
Lemma ka_emit c : keeps_active (emit c).
Proof. intros w. reflexivity. Qed.
Lemma ka_dict_lookup d k : keeps_active (Dispatch.dict_lookup d k).
Proof.
  intros w. unfold Dispatch.dict_lookup.
  destruct (d !! k); [|destruct (JS.js_in k d)]; reflexivity.
Qed.

Create HintDb keeps_active.
#[local] Hint Resolve ka_ret ka_throw ka_get ka_get_menu ka_get_item ka_get_reg ka_get_dict
  ka_deref ka_path ka_emit ka_dict_lookup : keeps_active.

Ltac ka_t :=
  repeat first
    [ apply ka_bind; [|intro]
    | solve [auto with keeps_active]
    | match goal with
      | |- keeps_active (match ?x with _ => _ end) => destruct x
      | |- keeps_active (if ?x then _ else _) => destruct x
      end ].

Lemma ka_scan_children cs seg acc : keeps_active (MenuBuilder.scan_children cs seg acc).
Proof. revert acc. induction cs as [|c rest IH]; intros acc; cbn; ka_t. Qed.
#[local] Hint Resolve ka_scan_children : keeps_active.

Lemma ka_walk ch segs cur : keeps_active (MenuBuilder.walk ch segs cur).
Proof.
  revert ch cur. induction segs as [|seg rest IH]; intros [cs|] cur; cbn; ka_t.
Qed.
#[local] Hint Resolve ka_walk : keeps_active.

Lemma ka_getChildByPath_f fuel this p : keeps_active (MenuBuilder.getChildByPath_f fuel this p).
Proof.
  revert this p. induction fuel as [|f IH]; intros this p; cbn; ka_t.
Qed.

Lemma ka_getMenuItemByPath this p : keeps_active (MenuBuilder.getMenuItemByPath this p).
Proof.
  unfold MenuBuilder.getMenuItemByPath. apply ka_bind; [|intro; ka_t].
  intros w. exact (ka_getChildByPath_f (fuel_of w) this _ w).
Qed.
#[local] Hint Resolve ka_getMenuItemByPath : keeps_active.

Lemma rc_bind {A B} (c : M A) (k : A -> M B) :
  (forall a, returns_cleared (k a)) -> returns_cleared (bind c k).
Proof.
  intros Hk w b w' H. apply bind_ROk in H as (a & w1 & _ & H). exact (Hk a w1 b w' H).
Qed.

Lemma rc_clear_ret {A} (a : A) : returns_cleared (Dispatch.set_activeMenu_ None ;;! ret a).
Proof. intros w b w' H. inversion H. reflexivity. Qed.

Lemma ca_catch {A} (body : M A) :
  returns_cleared body ->
  clears_active (catch body (fun e => Dispatch.set_activeMenu_ None ;;! throw e)).
Proof.
  intros Hb w. unfold catch. destruct (body w) as [a w1|e w1] eqn:E.
  - exact (Hb w a w1 E).
  - reflexivity.
Qed.

Lemma ca_set_then {A} v (k : M A) :
  clears_active k -> clears_active (Dispatch.set_activeMenu_ v ;;! k).
Proof. intros Hk w. exact (Hk _). Qed.

(** Whatever the press does, the [callback_query] listener ends, returning
    or throwing, either with [_activeMenu] unset or with it as it was. *)
Theorem onCallbackQuery_active_cleared run_fn run_source layout_fn nanoid ev w :
  match Dispatch.onCallbackQuery run_fn run_source layout_fn nanoid ev w with
  | ROk _ w' | RErr _ w' => w_active w' = None \/ w_active w' = w_active w
  end.
Proof.
  unfold Dispatch.onCallbackQuery.
  destruct (Dispatch.ev_data ev) as [data|]; [|right; reflexivity].
  destruct (negb (JS.truthy_s data)); [right; reflexivity|].
  unfold bind at 1, get at 1. destruct (w_menuMap w) as [md|]; [|right; reflexivity].
  set (menuId := match nth_error (JS.split_slash data) 1 with Some x => x | None => "undefined"%string end).
  assert (K1 := ka_dict_lookup md menuId w). unfold bind at 1.
  destruct (Dispatch.dict_lookup md menuId w) as [pm w1|e w1]; [|right; exact K1].
  assert (K2 : keeps_active (match pm with Some pm => MenuBuilder.getMenuItemByPath pm data
                                        | None => ret None end))
    by (destruct pm; [apply ka_getMenuItemByPath|apply ka_ret]).
  specialize (K2 w1). unfold bind at 1.
  destruct (match pm with Some pm => MenuBuilder.getMenuItemByPath pm data | None => ret None end w1)
    as [bt w2|e w2]; [|right; congruence].
  destruct pm as [pm|], bt as [bh|]; try (right; cbn; congruence).
  unfold bind at 1. assert (K3 := ka_get_item bh w2).
  destruct (get_item bh w2) as [b w3|e w3]; [|right; congruence].
  lazymatch goal with
  | |- match ?c w3 with _ => _ end =>
      assert (C : clears_active c); [|specialize (C w3); destruct (c w3); left; exact C]
  end.
  apply ca_set_then. apply ca_catch.
  repeat first [apply rc_clear_ret | apply rc_bind; intro].
Qed.

(** A callback query with no or empty data is ignored: the listener
    returns nothing and changes nothing. *)
Theorem onCallbackQuery_no_data run_fn run_source layout_fn nanoid ev w :
  (forall d, Dispatch.ev_data ev = Some d -> JS.truthy_s d = false) ->
  Dispatch.onCallbackQuery run_fn run_source layout_fn nanoid ev w = ROk None w.
Proof.
  intros H. unfold Dispatch.onCallbackQuery.
  destruct (Dispatch.ev_data ev) as [d|]; [|reflexivity].
  rewrite (H d eq_refl). reflexivity.
Qed.

Lemma onCallbackQuery_no_data_witness :
  Dispatch.onCallbackQuery Scenarios.no_fn Scenarios.no_source Scenarios.dyn_layout Scenarios.nano
    (Scenarios.event "") nav_world = ROk None nav_world.
Proof.
  apply onCallbackQuery_no_data. intros d E. injection E as <-. reflexivity.
Defined.

(** A callback query with data when there is no menu dictionary, or when
    the dictionary has no own entry under the data's first path segment:
    the listener only calls the unhandled-query hook and returns nothing.
    When that segment is a property name every object inherits (such as
    [toString]), [menuDict[menuId]] is that inherited member instead, and
    calling [getMenuItemByPath] on it throws a TypeError; nothing changes. *)
Theorem onCallbackQuery_unhandled run_fn run_source layout_fn nanoid ev d w :
  Dispatch.ev_data ev = Some d -> JS.truthy_s d = true ->
  let menuId := match nth_error (JS.split_slash d) 1 with Some x => x | None => "undefined"%string end in
  (w_menuMap w = None ->
   Dispatch.onCallbackQuery run_fn run_source layout_fn nanoid ev w =
     ROk None (set_w_log w (w_log w ++ [CHookUnhandled]))) /\
  (forall md, w_menuMap w = Some md -> md !! menuId = None ->
   Dispatch.onCallbackQuery run_fn run_source layout_fn nanoid ev w =
     if bool_decide (menuId ∈ JS.object_proto_keys) then RErr ErrType w
     else ROk None (set_w_log w (w_log w ++ [CHookUnhandled]))).
Proof.
  intros Hd Ht menuId. split.
  - intros Hn. unfold Dispatch.onCallbackQuery. rewrite Hd, Ht. cbn [negb].
    unfold bind at 1, get at 1. rewrite Hn. reflexivity.
  - intros md Hmd Hl. unfold Dispatch.onCallbackQuery. rewrite Hd, Ht. cbn [negb].
    unfold bind at 1, get at 1. rewrite Hmd. fold menuId. unfold bind at 1, Dispatch.dict_lookup. rewrite Hl.
    unfold JS.js_in. rewrite Hl. destruct (bool_decide _); reflexivity.
Qed.

Lemma onCallbackQuery_unhandled_witness :
  Dispatch.onCallbackQuery Scenarios.no_fn Scenarios.no_source Scenarios.dyn_layout Scenarios.nano
    (Scenarios.event "/root/a") nav_world =
    ROk None (set_w_log nav_world (w_log nav_world ++ [CHookUnhandled])) /\
  exists w1, Dispatch.registerMenu 0 nav_world = ROk tt w1 /\
    Dispatch.onCallbackQuery Scenarios.no_fn Scenarios.no_source Scenarios.dyn_layout Scenarios.nano
      (Scenarios.event "/other/x") w1 =
      ROk None (set_w_log w1 (w_log w1 ++ [CHookUnhandled])) /\
    Dispatch.onCallbackQuery Scenarios.no_fn Scenarios.no_source Scenarios.dyn_layout Scenarios.nano
      (Scenarios.event "/toString/x") w1 = RErr ErrType w1.
Proof.
  split.
  - exact (proj1 (onCallbackQuery_unhandled Scenarios.no_fn Scenarios.no_source Scenarios.dyn_layout
                    Scenarios.nano (Scenarios.event "/root/a") "/root/a" nav_world eq_refl eq_refl) eq_refl).
  - let d := eval vm_compute in (Dispatch.registerMenu 0 nav_world) in
    let mm := eval vm_compute in (match d with ROk _ w1 => w_menuMap w1 | RErr _ _ => None end) in
    match d with ROk _ ?w1 => match mm with Some ?md =>
      assert (D : Dispatch.registerMenu 0 nav_world = ROk tt w1) by (vm_compute; reflexivity);
      exists w1; split; [exact D|]; split;
      [ eapply eq_trans;
        [ exact (proj2 (onCallbackQuery_unhandled Scenarios.no_fn Scenarios.no_source Scenarios.dyn_layout
                   Scenarios.nano (Scenarios.event "/other/x") "/other/x" w1 eq_refl eq_refl)
                   md eq_refl ltac:(vm_compute; reflexivity))
        | vm_compute; reflexivity ]
      | eapply eq_trans;
        [ exact (proj2 (onCallbackQuery_unhandled Scenarios.no_fn Scenarios.no_source Scenarios.dyn_layout
                   Scenarios.nano (Scenarios.event "/toString/x") "/toString/x" w1 eq_refl eq_refl)
                   md eq_refl ltac:(vm_compute; reflexivity))
        | vm_compute; reflexivity ] ]
    end end.
Defined.

(** [toMenuItem()] on a button that must be rebuilt (not pure, changed, or
    never built) appends a new item object and caches it on the button,
    whose change flags it clears. The object carries the button's text, hide
    and full values; a button with a non-empty url gets that url, any other
    button gets the callback data parent path followed by its id. *)
Theorem toMenuItem_fresh run_fn h b w oh w' :
  w_items w !! h = Some b ->
  (if (b_pure b && Z.eqb (b_flags b) Change.None_)%bool then b_built b else None) = None ->
  Render.toMenuItem run_fn h w = ROk oh w' ->
  exists b' o,
    w_items w' !! h = Some b' /\ w_iobjs w' !! oh = Some o /\ oh = pred (length (w_iobjs w')) /\
    b_flags b' = Change.None_ /\ b_built b' = Some oh /\
    io_text o = b_text b' /\ io_hide o = b_hidden b' /\ io_full o = b_full b' /\
    match b_url b' with
    | Some u => if JS.truthy_s u then io_url o = Some u /\ io_callback o = None
                else io_url o = None /\
                     exists pp, MenuBuilder.path_w w' (b_parent b') = Some pp /\
                                io_callback o = Some (pp +:+ b_id b')
    | None => io_url o = None /\
              exists pp, MenuBuilder.path_w w' (b_parent b') = Some pp /\
                         io_callback o = Some (pp +:+ b_id b')
    end.
Proof.
  intros Hb Hc H. unfold Render.toMenuItem in H.
  apply bind_ROk in H as (b0 & w0 & H0 & H). apply get_item_inv in H0 as [-> E0].
  rewrite E0 in Hb. injection Hb as ->. rewrite Hc in H.
  apply bind_ROk in H as (u1 & w1 & _ & H).
  apply bind_ROk in H as (u2 & w2 & _ & H).
  apply bind_ROk in H as (b1 & w3 & H3 & H). apply get_item_inv in H3 as [-> E1].
  apply bind_ROk in H as (u4 & w4 & H4 & H). apply put_item_inv in H4 as [L4 ->].
  apply bind_ROk in H as (b2 & w5 & H5 & H). apply get_item_inv in H5 as [-> E2]. wsimpl.
  rewrite list_lookup_insert_eq in E2 by exact L4. injection E2 as <-.
  apply bind_ROk in H as (o & w6 & H6 & H).
  apply bind_ROk in H as (oh' & w7 & H7 & H). unfold alloc_iobj in H7. injection H7 as <- <-.
  apply bind_ROk in H as (u8 & w8 & H8 & H). unfold ret in H. injection H as <- <-.
  unfold upd_item in H8. apply bind_ROk in H8 as (b3 & w9 & H9 & H8).
  apply get_item_inv in H9 as [-> E3]. apply put_item_inv in H8 as [L8 ->].
  (* the object is built without changing the menus or items *)
  assert (O : w6 = set_w_items w2 (<[h:=set_b_flags b1 Change.None_]> (w_items w2)) /\
              match b_url (set_b_flags b1 Change.None_) with
              | Some u => if JS.truthy_s u
                          then o = mkItemObj (Some u) None (b_hidden b1) (b_text b1) (b_full b1)
                          else exists pp, MenuBuilder.path_w w2 (b_parent b1) = Some pp /\
                               o = mkItemObj None (Some (pp +:+ b_id b1)) (b_hidden b1) (b_text b1) (b_full b1)
              | None => exists pp, MenuBuilder.path_w w2 (b_parent b1) = Some pp /\
                        o = mkItemObj None (Some (pp +:+ b_id b1)) (b_hidden b1) (b_text b1) (b_full b1)
              end).
  { destruct b1 as [bid btext bhid bfull b_url0 ? ? ? ? ? ? ? ?].
    destruct b_url0 as [u|]; cbn in H6 |- *; [destruct (JS.truthy_s u)|].
    - unfold ret in H6. injection H6 as <- <-. split; reflexivity.
    - apply bind_ROk in H6 as (pp & w'' & Hp & H6). apply path_inv in Hp as [-> Hp].
      unfold ret in H6. injection H6 as <- <-. eauto.
    - apply bind_ROk in H6 as (pp & w'' & Hp & H6). apply path_inv in Hp as [-> Hp].
      unfold ret in H6. injection H6 as <- <-. eauto. }
  destruct O as [-> O]. wsimpl.
  rewrite list_lookup_insert_eq in E3 by exact L4. injection E3 as <-.
  exists (set_b_built (set_b_flags b1 Change.None_) (Some (length (w_iobjs w2)))), o.
  rewrite length_insert in L8.
  assert (Lk : <[h:=set_b_built (set_b_flags b1 Change.None_) (Some (length (w_iobjs w2)))]>
                 (<[h:=set_b_flags b1 Change.None_]> (w_items w2)) !! h =
               Some (set_b_built (set_b_flags b1 Change.None_) (Some (length (w_iobjs w2)))))
    by (apply list_lookup_insert_eq; rewrite length_insert; exact L8).
  assert (Lo : (w_iobjs w2 ++ [o]) !! length (w_iobjs w2) = Some o)
    by (rewrite lookup_app_r by lia; rewrite Nat.sub_diag; reflexivity).
  assert (Ln : length (w_iobjs w2) = pred (length (w_iobjs w2 ++ [o])))
    by (rewrite length_app; cbn; lia).
  clear - O Lk Lo Ln.
  destruct b1 as [bid btext bhid bfull b_url0 ? ? ? ? ? ? ? ?].
  destruct b_url0 as [u|]; [destruct (JS.truthy_s u) eqn:T|];
    cbn -[MenuBuilder.path_w JS.truthy_s] in O |- *; rewrite ?T in O |- *.
  - subst o. split_and!; first [exact Lk | exact Lo | exact Ln | reflexivity].
  - destruct O as (pp & Hp & ->).
    split_and!; first [exact Lk | exact Lo | exact Ln | reflexivity | exists pp; split; [exact Hp | reflexivity]].
  - destruct O as (pp & Hp & ->).
    split_and!; first [exact Lk | exact Lo | exact Ln | reflexivity | exists pp; split; [exact Hp | reflexivity]].
Qed.

Lemma toMenuItem_fresh_witness :
  exists b oh w',
    w_items nav_world !! 0%nat = Some b /\
    (if (b_pure b && Z.eqb (b_flags b) Change.None_)%bool then b_built b else None) = None /\
    Render.toMenuItem Scenarios.no_fn 0 nav_world = ROk oh w' /\
    exists b' o,
      w_items w' !! 0%nat = Some b' /\ w_iobjs w' !! oh = Some o /\ oh = pred (length (w_iobjs w')) /\
      b_flags b' = Change.None_ /\ b_built b' = Some oh /\
      io_text o = b_text b' /\ io_hide o = b_hidden b' /\ io_full o = b_full b' /\
      match b_url b' with
      | Some u => if JS.truthy_s u then io_url o = Some u /\ io_callback o = None
                  else io_url o = None /\
                       exists pp, MenuBuilder.path_w w' (b_parent b') = Some pp /\
                                  io_callback o = Some (pp +:+ b_id b')
      | None => io_url o = None /\
                exists pp, MenuBuilder.path_w w' (b_parent b') = Some pp /\
                           io_callback o = Some (pp +:+ b_id b')
      end.
Proof.
  let d := eval vm_compute in (Render.toMenuItem Scenarios.no_fn 0 nav_world) in
  let b := eval vm_compute in (w_items nav_world !! 0%nat) in
  match d with ROk ?oh ?w' => match b with Some ?b =>
    assert (D : Render.toMenuItem Scenarios.no_fn 0 nav_world = ROk oh w') by (vm_compute; reflexivity);
    assert (C : (if (b_pure b && Z.eqb (b_flags b) Change.None_)%bool then b_built b else None) = None)
      by (vm_compute; reflexivity);
    exists b, oh, w'; split; [reflexivity|]; split; [exact C|]; split; [exact D|];
    exact (toMenuItem_fresh Scenarios.no_fn 0 b nav_world oh w' eq_refl C D)
  end end.
Defined.
